(** * WalletConnect provider: dispatch and session-lifecycle core

    A shallow embedding of [src/index.ts].  The provider is event driven:
    its methods register promise reactions and event listeners, and the
    rest of the behaviour happens when the JavaScript run time delivers
    microtasks and events.  The embedding therefore has three layers:

    - JavaScript values, request objects held in a store (the caller and
      the provider alias the same object), and the external objects the
      provider drives (WalletConnect connectors, the QR-code modal,
      XMLHttpRequest objects);
    - a promise store with reaction lists and a microtask queue, with the
      source's arrow functions defunctionalised into [Handler],
      [Listener], [AbortClosure], [ReadyStateChange] and [TimeoutHandler];
    - the module-level variables [sessionPromise] and [webconnector] and
      the methods of the class, written in a state-and-exception monad,
      and a labelled step function whose labels are the calls of the
      caller and the events of the environment.

    What the libraries the provider imports answer is part of the
    environment: a dispatch carries what [new WalletConnect] finds and what
    [convertNumberToHex] of [@walletconnect/utils] returns or throws. *)

From stdpp Require Import base option list strings numbers.

(** ** JavaScript values *)

#[warnings="-register-all"]
Inductive Value : Type :=
| VUndefined
| VNull
| VBool (b : bool)
| VNum (n : Z)
| VStr (s : string)
| VArr (items : list Value)
| VObj (fields : list (string * Value))
| VErr (message : string) (detail : Value).

(** [if (v)], [a && b], [a || b] test this. *)
Definition truthy (v : Value) : bool :=
  match v with
  | VUndefined | VNull => false
  | VBool b => b
  | VNum n => negb (n =? 0)%Z
  | VStr s => negb (String.eqb s EmptyString)
  | VArr _ | VObj _ | VErr _ _ => true
  end.

Definition js_and (a b : Value) : Value := if truthy a then b else a.
Definition js_or (a b : Value) : Value := if truthy a then a else b.

(** Completion of a JavaScript computation: a value or a thrown exception. *)
Inductive Completion (A : Type) : Type :=
| Normal (a : A)
| Throw (e : Value).
Arguments Normal {A} a.
Arguments Throw {A} e.

Definition TypeError : Value := VErr "TypeError" VUndefined.

Fixpoint assoc (k : string) (fs : list (string * Value)) : Value :=
  match fs with
  | [] => VUndefined
  | (k', v) :: fs' => if String.eqb k k' then v else assoc k fs'
  end.

(** [v.k]: reading a property of [undefined] or [null] throws, a missing
    property reads as [undefined]. *)
Definition getProp (v : Value) (k : string) : Completion Value :=
  match v with
  | VUndefined | VNull => Throw TypeError
  | VObj fs => Normal (assoc k fs)
  | VArr xs =>
      Normal (if String.eqb k "length" then VNum (Z.of_nat (length xs)) else VUndefined)
  | VStr s =>
      Normal (if String.eqb k "length" then VNum (Z.of_nat (String.length s)) else VUndefined)
  | _ => Normal VUndefined
  end.

(** [v[i]]. *)
Definition getIndex (v : Value) (i : nat) : Completion Value :=
  match v with
  | VUndefined | VNull => Throw TypeError
  | VArr xs => Normal (default VUndefined (xs !! i))
  | _ => Normal VUndefined
  end.

(** ** Methods handled by the signing session (lines 10-20) *)

Definition walletconnectMethods : list string :=
  [ "eth_signTransaction"; "eth_sendTransaction"; "eth_sign";
    "eth_signTypedDataLegacy"; "eth_signTypedData"; "personal_sign" ].

Definition supportedMethods : list string := "eth_accounts" :: walletconnectMethods.

(** [xs.indexOf(v)] on an array of strings: strict equality, [-1] when absent. *)
Fixpoint indexOf_from (i : Z) (xs : list string) (v : Value) : Z :=
  match xs with
  | [] => (-1)%Z
  | x :: xs' =>
      match v with
      | VStr s => if String.eqb x s then i else indexOf_from (i + 1)%Z xs' v
      | _ => indexOf_from (i + 1)%Z xs' v
      end
  end.
Definition indexOf (xs : list string) (v : Value) : Z := indexOf_from 0%Z xs v.

Definition strictEq (v : Value) (s : string) : bool :=
  match v with VStr s' => String.eqb s' s | _ => false end.

(** ** Identifiers

    Promises, connectors, request objects and XMLHttpRequest objects are
    known by their index in the store that holds them; a function supplied
    by the caller (a dispatch callback or a lifecycle hook) by a number of
    its own: calling it is an observable effect. *)

Abbreviation PromiseId := nat (only parsing).
Abbreviation ConnId := nat (only parsing).
Abbreviation Ref := nat (only parsing).
Abbreviation XhrId := nat (only parsing).
Abbreviation Fn := nat (only parsing).

(** ** The JSON-RPC request object *)

Record Payload := {
  id : Value;
  jsonrpc : Value;
  method : Value;
  params : Value;
}.

Definition with_params (p : Payload) (ps : Value) : Payload :=
  {| id := id p; jsonrpc := jsonrpc p; method := method p; params := ps |}.

(** ** Provider configuration (lines 40-81) *)

Record RequestHeader := { name : string; value : string }.

Record Callbacks := {
  onConnect : option Fn;
  onCreate : option Fn;
  onAbort : option Fn;
  onUpdate : option Fn;
  onDisconnect : option Fn;
}.

Record WalletConnectProvider := {
  host : string;
  timeout : Z;
  user : option string;
  password : option string;
  headers : option (list RequestHeader);
  bridgeURL : string;
  showQRCode : bool;
  callbacks : Callbacks;
}.

Definition noCallbacks : Callbacks :=
  {| onConnect := None; onCreate := None; onAbort := None;
     onUpdate := None; onDisconnect := None |}.

(** The constructor's defaults. *)
Definition defaultProvider : WalletConnectProvider :=
  {| host := "http://localhost:8545"; timeout := 0; user := None; password := None;
     headers := None; bridgeURL := "https://bridge.walletconnect.org";
     showQRCode := true; callbacks := noCallbacks |}.

(** ** Closures of the source, defunctionalised *)

(** Promise reactions: the arrow functions passed to [then] and [catch]. *)
Inductive Handler :=
| CreateSessionThen (self : WalletConnectProvider) (d outer : PromiseId) (* lines 183-206 *)
| CreateSessionCatch                                                     (* lines 207-210 *)
| DThen (outer : PromiseId)                                              (* lines 201-203 *)
| DCatch (outer : PromiseId)                                             (* lines 203-205 *)
| SendCustom (payload : Ref)                                             (* lines 284-286 *)
| FnResult (payload : Ref) (cb : Fn)                                     (* lines 287-289 *)
| FnError (payload : Ref) (cb : Fn)                                      (* lines 290-292 *)
| Accounts (payload : Ref) (cb : Fn)                                     (* lines 296-302 *)
| AccountsCatch (payload : Ref) (cb : Fn)                                (* line 303 *)
| PlainThen (self : WalletConnectProvider) (payload : Ref) (cb : Fn)     (* lines 308-310 *)
| PlainCatch (cb : Fn).                                                  (* lines 311-313 *)

(** Event listeners registered with [webconnector.on]. *)
Inductive Listener :=
| OnConnect (self : WalletConnectProvider) (d : PromiseId)               (* lines 146-162 *)
| OnDisconnect (self : WalletConnectProvider)                            (* lines 164-177 *)
| OnSessionUpdate (self : WalletConnectProvider) (outer : PromiseId).    (* lines 220-230 *)

(** The callback handed to [WalletConnectQRCodeModal.open] (lines 193-197). *)
Inductive AbortClosure :=
| OnModalAbort (self : WalletConnectProvider) (uri : Value).

(** [request.onreadystatechange] (lines 237-249) captures the callback,
    [request.ontimeout] (lines 251-253) the provider and the callback. *)
Inductive ReadyStateChange :=
| OnReadyStateChange (callback : Fn).

Inductive TimeoutHandler :=
| OnTimeout (self : WalletConnectProvider) (callback : Fn).

(** ** Promises *)

Inductive PState :=
| Pending
| Fulfilled (v : Value)
| Rejected (e : Value).

Inductive Settled :=
| Ful (v : Value)
| Rej (e : Value).

Definition state_of (o : Settled) : PState :=
  match o with Ful v => Fulfilled v | Rej e => Rejected e end.

(** A reaction [p.then(f)] has only [onFulfilled], [p.catch(g)] only
    [onRejected]; a reaction with neither forwards the outcome of [p] to
    [derived], which is how a promise adopts another one. *)
Record Reaction := {
  onFulfilled : option Handler;
  onRejected : option Handler;
  derived : PromiseId;
}.

(** [external] marks a promise owned by the pairing transport. *)
Record Promise := {
  pstate : PState;
  reactions : list Reaction;
  external : bool;
}.

Record Job := {
  job_reaction : Reaction;
  job_arg : Settled;
}.

(** ** External objects *)

(** A [WalletConnect] connector.  [connected], [session] and [uri] belong
    to the library; the provider only reads them. *)
Record WalletConnect := {
  bridge : string;
  connected : bool;
  session : Value;
  uri : Value;
  listeners : list (string * Listener);
}.

(** What the libraries answer during one call of [sendAsync].
    [new WalletConnect({bridge})] finds a stored session or none.
    [convertNumberToHex] is imported from [@walletconnect/utils] (line 3)
    and is not code of this repository: it is taken as a parameter, and
    [init_hex] is what its one call on line 281 returns or throws.  The
    field is not read by a call that does not reach that line. *)
Record ConnInit := {
  init_connected : bool;
  init_session : Value;
  init_hex : Completion Value;
}.

Inductive HeaderValue :=
| Literal (s : string)
| Basic (user password : string).   (* `Basic ${base64(user + ':' + password)}` *)

(** A response body with the outcome of [JSON.parse] on it. *)
Record Body := {
  text : string;
  json : option Value;
}.

Definition emptyBody : Body := {| text := EmptyString; json := None |}.

Record XMLHttpRequest := {
  xhr_url : string;
  xhr_async : bool;
  xhr_headers : list (string * HeaderValue);
  xhr_timeout : Z;
  xhr_readyState : Z;
  xhr_responseText : Body;
  xhr_onreadystatechange : option ReadyStateChange;
  xhr_ontimeout : option TimeoutHandler;
  xhr_sentAt : option Z;
}.

(** ** Observable effects *)

Inductive Effect :=
| Callback (cb : Fn) (err result : Value)      (* the caller's [callback(err, result)] *)
| Hook (fn : Fn) (args : list Value)           (* a lifecycle hook *)
| CreateSession (k : ConnId) (reply : PromiseId)   (* [webconnector.createSession()] *)
| SendCustomRequest (k : ConnId) (request : Payload) (reply : PromiseId)
| KillSession (k : ConnId)
| ModalOpen (uri : Value)
| ModalClose
| XhrSend (x : XhrId) (body : Payload)
| Thrown (e : Value).                          (* an exception leaves the provider's code *)

(** ** Program state *)

Record State := {
  sessionPromise : option PromiseId;      (* line 7 *)
  webconnector : option ConnId;           (* line 8 *)
  connectors : list WalletConnect;
  promises : list Promise;
  microtasks : list Job;
  requests : list Payload;
  modal : option AbortClosure;
  xhrs : list XMLHttpRequest;
  now : Z;
  log : list Effect;
}.

Definition initial : State :=
  {| sessionPromise := None; webconnector := None; connectors := []; promises := [];
     microtasks := []; requests := []; modal := None; xhrs := []; now := 0; log := [] |}.

Definition set_sessionPromise (v : option PromiseId) (st : State) : State :=
  {| sessionPromise := v; webconnector := webconnector st; connectors := connectors st;
     promises := promises st; microtasks := microtasks st; requests := requests st;
     modal := modal st; xhrs := xhrs st; now := now st; log := log st |}.
Definition set_webconnector (v : option ConnId) (st : State) : State :=
  {| sessionPromise := sessionPromise st; webconnector := v; connectors := connectors st;
     promises := promises st; microtasks := microtasks st; requests := requests st;
     modal := modal st; xhrs := xhrs st; now := now st; log := log st |}.
Definition set_connectors (v : list WalletConnect) (st : State) : State :=
  {| sessionPromise := sessionPromise st; webconnector := webconnector st; connectors := v;
     promises := promises st; microtasks := microtasks st; requests := requests st;
     modal := modal st; xhrs := xhrs st; now := now st; log := log st |}.
Definition set_promises (v : list Promise) (st : State) : State :=
  {| sessionPromise := sessionPromise st; webconnector := webconnector st;
     connectors := connectors st; promises := v; microtasks := microtasks st;
     requests := requests st; modal := modal st; xhrs := xhrs st; now := now st;
     log := log st |}.
Definition set_microtasks (v : list Job) (st : State) : State :=
  {| sessionPromise := sessionPromise st; webconnector := webconnector st;
     connectors := connectors st; promises := promises st; microtasks := v;
     requests := requests st; modal := modal st; xhrs := xhrs st; now := now st;
     log := log st |}.
Definition set_requests (v : list Payload) (st : State) : State :=
  {| sessionPromise := sessionPromise st; webconnector := webconnector st;
     connectors := connectors st; promises := promises st; microtasks := microtasks st;
     requests := v; modal := modal st; xhrs := xhrs st; now := now st; log := log st |}.
Definition set_modal (v : option AbortClosure) (st : State) : State :=
  {| sessionPromise := sessionPromise st; webconnector := webconnector st;
     connectors := connectors st; promises := promises st; microtasks := microtasks st;
     requests := requests st; modal := v; xhrs := xhrs st; now := now st; log := log st |}.
Definition set_xhrs (v : list XMLHttpRequest) (st : State) : State :=
  {| sessionPromise := sessionPromise st; webconnector := webconnector st;
     connectors := connectors st; promises := promises st; microtasks := microtasks st;
     requests := requests st; modal := modal st; xhrs := v; now := now st; log := log st |}.
Definition set_now (v : Z) (st : State) : State :=
  {| sessionPromise := sessionPromise st; webconnector := webconnector st;
     connectors := connectors st; promises := promises st; microtasks := microtasks st;
     requests := requests st; modal := modal st; xhrs := xhrs st; now := v; log := log st |}.
Definition set_log (v : list Effect) (st : State) : State :=
  {| sessionPromise := sessionPromise st; webconnector := webconnector st;
     connectors := connectors st; promises := promises st; microtasks := microtasks st;
     requests := requests st; modal := modal st; xhrs := xhrs st; now := now st; log := v |}.

(** ** The state-and-exception monad *)

Definition M (A : Type) : Type := State -> Completion A * State.

Definition ret {A} (a : A) : M A := fun st => (Normal a, st).
Definition throw {A} (e : Value) : M A := fun st => (Throw e, st).
Definition bind {A B} (m : M A) (k : A -> M B) : M B :=
  fun st =>
    match m st with
    | (Normal a, st') => k a st'
    | (Throw e, st') => (Throw e, st')
    end.
(** Run [m] and hand back its completion instead of propagating a throw. *)
Definition attempt {A} (m : M A) : M (Completion A) :=
  fun st => (Normal (m st).1, (m st).2).
Definition get : M State := fun st => (Normal st, st).
Definition modify (f : State -> State) : M unit := fun st => (Normal tt, f st).
Definition lift {A} (c : Completion A) : M A := fun st => (c, st).

(** The monad is used through stdpp's notations [x ← m; k] and [m;; k]. *)
#[global] Instance M_ret : MRet M := @ret.
#[global] Instance M_bind : MBind M := fun A B k m => bind m k.

(** [try { m } catch (e) { h e }] *)
Definition try_catch {A} (m : M A) (h : Value -> M A) : M A :=
  c ← attempt m;
  match c with
  | Normal a => ret a
  | Throw e => h e
  end.

Definition when (b : bool) (m : M unit) : M unit := if b then m else ret tt.

Fixpoint forEach {A} (xs : list A) (f : A -> M unit) : M unit :=
  match xs with
  | [] => ret tt
  | x :: xs' => f x;; forEach xs' f
  end.

Definition emit (e : Effect) : M unit := modify (fun st => set_log (log st ++ [e]) st).

(** ** Promise primitives

    [new Promise], [resolve]/[reject], [then]/[catch] and the adoption of
    one promise by another.  Settling a promise queues one microtask per
    registered reaction; settling it again is a no-op. *)

Definition newPromise (s : PState) : M PromiseId :=
  st ← get;
  modify (fun st' =>
    set_promises (promises st' ++ [{| pstate := s; reactions := []; external := false |}]) st');;
  ret (length (promises st)).

(** A promise returned by the pairing transport; the environment settles it. *)
Definition newExternalPromise : M PromiseId :=
  st ← get;
  modify (fun st' =>
    set_promises (promises st' ++ [{| pstate := Pending; reactions := []; external := true |}]) st');;
  ret (length (promises st)).

Definition enqueue (js : list Job) : M unit :=
  modify (fun st => set_microtasks (microtasks st ++ js) st).

Definition settle (p : PromiseId) (o : Settled) : M unit :=
  st ← get;
  match promises st !! p with
  | Some {| pstate := Pending; reactions := rs; external := x |} =>
      modify (set_promises
                (<[p := {| pstate := state_of o; reactions := []; external := x |}]> (promises st)));;
      enqueue (map (fun r => {| job_reaction := r; job_arg := o |}) rs)
  | _ => ret tt
  end.

Definition resolve (p : PromiseId) (v : Value) : M unit := settle p (Ful v).
Definition reject (p : PromiseId) (e : Value) : M unit := settle p (Rej e).

Definition subscribe (p : PromiseId) (r : Reaction) : M unit :=
  st ← get;
  match promises st !! p with
  | Some {| pstate := Pending; reactions := rs; external := x |} =>
      modify (set_promises
                (<[p := {| pstate := Pending; reactions := rs ++ [r]; external := x |}]> (promises st)))
  | Some {| pstate := Fulfilled v |} => enqueue [{| job_reaction := r; job_arg := Ful v |}]
  | Some {| pstate := Rejected e |} => enqueue [{| job_reaction := r; job_arg := Rej e |}]
  | None => ret tt
  end.

(** [p.then(h)] *)
Definition then_ (p : PromiseId) (h : Handler) : M PromiseId :=
  q ← newPromise Pending;
  subscribe p {| onFulfilled := Some h; onRejected := None; derived := q |};;
  ret q.

(** [p.catch(h)] *)
Definition catch_ (p : PromiseId) (h : Handler) : M PromiseId :=
  q ← newPromise Pending;
  subscribe p {| onFulfilled := None; onRejected := Some h; derived := q |};;
  ret q.

(** [q] is resolved with the promise [inner]: it follows its outcome. *)
Definition adopt (q inner : PromiseId) : M unit :=
  subscribe inner {| onFulfilled := None; onRejected := None; derived := q |}.

(** [Promise.resolve(v)] *)
Definition promiseResolve (v : Value) : M PromiseId := newPromise (Fulfilled v).

(** ** Request objects *)

Definition readRequest (payload : Ref) : M Payload :=
  st ← get;
  match requests st !! payload with
  | Some p => ret p
  | None => throw TypeError
  end.

(** ** getCallback (lines 28-38)

    The wrapper reads [id] and [jsonrpc] off the request object when it is
    called, and hands the caller's callback the object built from them. *)

Definition response (p : Payload) (result : Value) : Value :=
  VObj [("id", id p); ("jsonrpc", jsonrpc p); ("result", result)].

Definition getCallback (payload : Ref) (cb : Fn) (err result : Value) : M unit :=
  p ← readRequest payload;
  emit (Callback cb err (response p result)).

(** ** Lifecycle hooks and the QR-code modal *)

(** [this.callbacks.onX && this.callbacks.onX(args)] *)
Definition callHook (h : option Fn) (args : list Value) : M unit :=
  match h with
  | Some f => emit (Hook f args)
  | None => ret tt
  end.

Definition modalOpen (u : Value) (c : AbortClosure) : M unit :=
  emit (ModalOpen u);; modify (set_modal (Some c)).

Definition modalClose : M unit :=
  emit ModalClose;; modify (set_modal None).

(** ** prepareRequest (lines 90-109) and _sendAsync (lines 235-260) *)

Definition newXMLHttpRequest : M XhrId :=
  st ← get;
  modify (fun st' => set_xhrs (xhrs st' ++
    [{| xhr_url := EmptyString; xhr_async := true; xhr_headers := []; xhr_timeout := 0;
        xhr_readyState := 0; xhr_responseText := emptyBody;
        xhr_onreadystatechange := None; xhr_ontimeout := None; xhr_sentAt := None |}]) st');;
  ret (length (xhrs st)).

Definition updateXhr (x : XhrId) (f : XMLHttpRequest -> XMLHttpRequest) : M unit :=
  modify (fun st => set_xhrs (alter f x (xhrs st)) st).

Definition xhrOpen (url : string) (isAsync : bool) (r : XMLHttpRequest) : XMLHttpRequest :=
  {| xhr_url := url; xhr_async := isAsync; xhr_headers := xhr_headers r;
     xhr_timeout := xhr_timeout r; xhr_readyState := 1;
     xhr_responseText := xhr_responseText r;
     xhr_onreadystatechange := xhr_onreadystatechange r;
     xhr_ontimeout := xhr_ontimeout r; xhr_sentAt := xhr_sentAt r |}.

Definition xhrSetRequestHeader (n : string) (v : HeaderValue) (r : XMLHttpRequest)
  : XMLHttpRequest :=
  {| xhr_url := xhr_url r; xhr_async := xhr_async r; xhr_headers := xhr_headers r ++ [(n, v)];
     xhr_timeout := xhr_timeout r; xhr_readyState := xhr_readyState r;
     xhr_responseText := xhr_responseText r;
     xhr_onreadystatechange := xhr_onreadystatechange r;
     xhr_ontimeout := xhr_ontimeout r; xhr_sentAt := xhr_sentAt r |}.

Definition xhrSetHandlers (orsc : option ReadyStateChange) (ot : option TimeoutHandler)
    (r : XMLHttpRequest)
  : XMLHttpRequest :=
  {| xhr_url := xhr_url r; xhr_async := xhr_async r; xhr_headers := xhr_headers r;
     xhr_timeout := xhr_timeout r; xhr_readyState := xhr_readyState r;
     xhr_responseText := xhr_responseText r;
     xhr_onreadystatechange := orsc; xhr_ontimeout := ot; xhr_sentAt := xhr_sentAt r |}.

Definition xhrSent (t : Z) (r : XMLHttpRequest) : XMLHttpRequest :=
  {| xhr_url := xhr_url r; xhr_async := xhr_async r; xhr_headers := xhr_headers r;
     xhr_timeout := xhr_timeout r; xhr_readyState := xhr_readyState r;
     xhr_responseText := xhr_responseText r;
     xhr_onreadystatechange := xhr_onreadystatechange r;
     xhr_ontimeout := xhr_ontimeout r; xhr_sentAt := Some t |}.

Definition xhrProgress (rs : Z) (b : Body) (r : XMLHttpRequest) : XMLHttpRequest :=
  {| xhr_url := xhr_url r; xhr_async := xhr_async r; xhr_headers := xhr_headers r;
     xhr_timeout := xhr_timeout r; xhr_readyState := rs; xhr_responseText := b;
     xhr_onreadystatechange := xhr_onreadystatechange r;
     xhr_ontimeout := xhr_ontimeout r; xhr_sentAt := xhr_sentAt r |}.

Definition nonEmpty (s : option string) : option string :=
  match s with
  | Some x => if String.eqb x EmptyString then None else Some x
  | None => None
  end.

Definition prepareRequest (self : WalletConnectProvider) (isAsync : bool) : M XhrId :=
  request ← newXMLHttpRequest;
  updateXhr request (xhrOpen (host self) isAsync);;
  match nonEmpty (user self), nonEmpty (password self) with
  | Some u, Some p => updateXhr request (xhrSetRequestHeader "Authorization" (Basic u p))
  | _, _ => ret tt
  end;;
  updateXhr request (xhrSetRequestHeader "Content-Type" (Literal "application/json"));;
  match headers self with
  | Some hs =>
      forEach hs (fun header =>
        updateXhr request (xhrSetRequestHeader (name header) (Literal (value header))))
  | None => ret tt
  end;;
  ret request.

(** [request.send(body)]: the environment decides whether it throws. *)
Definition xhrSend (request : XhrId) (body : Payload) (fails : bool) : M unit :=
  if fails then throw (VErr "NetworkError" VUndefined)
  else
    st ← get;
    updateXhr request (xhrSent (now st));;
    emit (XhrSend request body).

Definition _sendAsync (self : WalletConnectProvider) (payload : Ref) (callback : Fn)
    (sendFails : bool) : M unit :=
  request ← prepareRequest self true;
  updateXhr request
    (xhrSetHandlers (Some (OnReadyStateChange callback)) (Some (OnTimeout self callback)));;
  try_catch
    (body ← readRequest payload;
     xhrSend request body sendFails)
    (fun _ => emit (Callback callback (VErr "Invalid connection" (VStr (host self))) VUndefined)).

Definition onreadystatechange (x : XhrId) (h : ReadyStateChange) : M unit :=
  match h with
  | OnReadyStateChange callback =>
      st ← get;
      match xhrs st !! x with
      | Some request =>
          if (xhr_readyState request =? 4)%Z && negb (xhr_timeout request =? 1)%Z then
            match json (xhr_responseText request) with
            | Some result => emit (Callback callback VNull result)
            | None =>
                let t := VStr (text (xhr_responseText request)) in
                emit (Callback callback (VErr "Invalid response" t) t)
            end
          else ret tt
      | None => ret tt
      end
  end.

Definition ontimeout (h : TimeoutHandler) : M unit :=
  match h with
  | OnTimeout self callback =>
      emit (Callback callback (VErr "Connection timeout" (VNum (timeout self))) VUndefined)
  end.

(** ** send (lines 118-135)

    The synchronous request.  [request.send] returns when the transport has
    answered, with the body in [responseText], or throws; the environment
    decides which.  [payload] is absent when the caller passes nothing and
    the default [{}] is sent. *)

Definition emptyObject : Payload :=
  {| id := VUndefined; jsonrpc := VUndefined; method := VUndefined; params := VUndefined |}.

Definition xhrSendSync (request : XhrId) (body : Payload) (reply : option Body) : M unit :=
  match reply with
  | None => throw (VErr "NetworkError" VUndefined)
  | Some b =>
      st ← get;
      updateXhr request (xhrSent (now st));;
      emit (XhrSend request body);;
      updateXhr request (xhrProgress 4 b)
  end.

Definition send (self : WalletConnectProvider) (payload : option Ref) (reply : option Body)
  : M Value :=
  request ← prepareRequest self false;
  try_catch
    (body ← match payload with
            | Some r => readRequest r
            | None => ret emptyObject
            end;
     xhrSendSync request body reply)
    (fun _ => throw (VErr "Invalid connection" (VStr (host self))));;
  st ← get;
  match xhrs st !! request with
  | Some r =>
      match json (xhr_responseText r) with
      | Some result => ret result
      | None => throw (VErr "Invalid response" (VStr (text (xhr_responseText r))))
      end
  | None => throw TypeError
  end.

(** ** Connectors *)

Definition newWalletConnect (b : string) (init : ConnInit) : M ConnId :=
  st ← get;
  modify (fun st' => set_connectors (connectors st' ++
    [{| bridge := b; connected := init_connected init; session := init_session init;
        uri := VUndefined; listeners := [] |}]) st');;
  ret (length (connectors st)).

Definition addListener (event : string) (l : Listener) (c : WalletConnect) : WalletConnect :=
  {| bridge := bridge c; connected := connected c; session := session c; uri := uri c;
     listeners := listeners c ++ [(event, l)] |}.

(** [k.on(event, l)] *)
Definition on (k : ConnId) (event : string) (l : Listener) : M unit :=
  modify (fun st => set_connectors (alter (addListener event l) k (connectors st)) st).

(** [k.createSession()] *)
Definition createSession (k : ConnId) : M PromiseId :=
  reply ← newExternalPromise;
  emit (CreateSession k reply);;
  ret reply.

(** [s && s.accounts] for the connector's [session] *)
Definition sessionAccounts (s : Value) : Value :=
  if truthy s then
    match getProp s "accounts" with Normal a => a | Throw _ => VUndefined end
  else s.

(** [const { accounts } = payload.params[0]] *)
Definition payloadAccounts (payload : Value) : M Value :=
  ps ← lift (getProp payload "params");
  p0 ← lift (getIndex ps 0);
  lift (getProp p0 "accounts").

(** ** createWebconnector (lines 137-233)

    The function has no [await]: its body runs to the end inside the call.
    [webconnector] is assigned first and is the connector [k] for the rest
    of the body.  The promise of the async function adopts the promise the
    body returns. *)

Definition createWebconnector (self : WalletConnectProvider) (init : ConnInit) : M PromiseId :=
  k ← newWalletConnect (bridgeURL self) init;
  modify (set_webconnector (Some k));;
  returned ←
    (if negb (init_connected init) then
       d ← newPromise Pending;
       on k "connect" (OnConnect self d);;
       on k "disconnect" (OnDisconnect self);;
       outer ← newPromise Pending;
       created ← createSession k;
       t ← then_ created (CreateSessionThen self d outer);
       _ ← catch_ t CreateSessionCatch;
       ret outer
     else
       outer ← newPromise Pending;
       let _accounts := sessionAccounts (init_session init) in
       (if truthy _accounts &&
           truthy (match getProp _accounts "length" with Normal n => n | Throw _ => VUndefined end)
        then resolve outer _accounts
        else on k "session_update" (OnSessionUpdate self outer));;
       ret outer);
  result ← newPromise Pending;
  adopt result returned;;
  ret result.

(** ** Reactions *)

Inductive HandlerResult :=
| RetValue (v : Value)
| RetPromise (p : PromiseId).

Definition runHandler (h : Handler) (arg : Value) (sendFails : bool) : M HandlerResult :=
  match h with
  | CreateSessionThen self d outer =>
      st ← get;
      match webconnector st with
      | None => throw TypeError
      | Some k =>
          let u := default VUndefined (uri <$> connectors st !! k) in
          callHook (onCreate (callbacks self)) [u];;
          when (showQRCode self) (modalOpen u (OnModalAbort self u));;
          t ← then_ d (DThen outer);
          _ ← catch_ t (DCatch outer);
          ret (RetValue VUndefined)
      end
  | CreateSessionCatch =>
      modify (set_webconnector None);;
      modify (set_sessionPromise None);;
      ret (RetValue VUndefined)
  | DThen outer => resolve outer arg;; ret (RetValue VUndefined)
  | DCatch outer => reject outer arg;; ret (RetValue VUndefined)
  | SendCustom payload =>
      st ← get;
      match webconnector st with
      | None => throw TypeError
      | Some k =>
          request ← readRequest payload;
          reply ← newExternalPromise;
          emit (SendCustomRequest k request reply);;
          ret (RetPromise reply)
      end
  | FnResult payload cb => getCallback payload cb VNull arg;; ret (RetValue VUndefined)
  | FnError payload cb => getCallback payload cb arg VNull;; ret (RetValue VUndefined)
  | Accounts payload cb =>
      st ← get;
      let accounts :=
        match webconnector st with
        | Some k =>
            match connectors st !! k with
            | Some c =>
                if truthy (session c) then
                  match getProp (session c) "accounts" with Normal a => a | Throw _ => VNull end
                else VNull
            | None => VNull
            end
        | None => VNull
        end in
      getCallback payload cb VNull (js_or accounts (VArr []));;
      ret (RetValue VUndefined)
  | AccountsCatch payload cb => getCallback payload cb arg VUndefined;; ret (RetValue VUndefined)
  | PlainThen self payload cb => _sendAsync self payload cb sendFails;; ret (RetValue VUndefined)
  | PlainCatch cb =>
      emit (Callback cb (VErr "Invalid connection" arg) VUndefined);;
      ret (RetValue VUndefined)
  end.

Definition settled_value (o : Settled) : Value :=
  match o with Ful v => v | Rej e => e end.

Definition handlerFor (r : Reaction) (o : Settled) : option Handler :=
  match o with Ful _ => onFulfilled r | Rej _ => onRejected r end.

(** One microtask: run the reaction's handler on the outcome and settle the
    derived promise with what the handler returns or throws; without a
    handler the outcome passes through. *)
Definition runJob (j : Job) (sendFails : bool) : M unit :=
  let r := job_reaction j in
  match handlerFor r (job_arg j) with
  | Some h =>
      c ← attempt (runHandler h (settled_value (job_arg j)) sendFails);
      match c with
      | Normal (RetValue v) => settle (derived r) (Ful v)
      | Normal (RetPromise p) => adopt (derived r) p
      | Throw e => settle (derived r) (Rej e)
      end
  | None => settle (derived r) (job_arg j)
  end.

(** ** Event listeners (lines 146-177 and 220-230) *)

Definition runListener (l : Listener) (error payload : Value) : M unit :=
  match l with
  | OnConnect self d =>
      if truthy error then reject d error
      else
        callHook (onConnect (callbacks self)) [error; payload];;
        when (showQRCode self) modalClose;;
        accounts ← payloadAccounts payload;
        resolve d accounts
  | OnDisconnect self =>
      if truthy error then throw error
      else
        callHook (onDisconnect (callbacks self)) [error; payload];;
        when (showQRCode self) modalClose
  | OnSessionUpdate self outer =>
      if truthy error then reject outer error
      else
        callHook (onUpdate (callbacks self)) [error; payload];;
        accounts ← payloadAccounts payload;
        resolve outer accounts
  end.

(** The abort callback of the modal (lines 193-197). *)
Definition runAbort (c : AbortClosure) : M unit :=
  match c with
  | OnModalAbort self u =>
      modify (set_webconnector None);;
      modify (set_sessionPromise None);;
      callHook (onAbort (callbacks self)) [u]
  end.

(** ** sendAsync (lines 269-315) *)

(** [payload.params.push(convertNumberToHex(payload.params[0].chainId))]:
    the argument is read, the library converts it ([hex] is what it
    returns or throws), and the array of the caller's own request object
    grows by the string returned. *)
Definition pushChainId (payload : Ref) (hex : Completion Value) : M unit :=
  request ← readRequest payload;
  p0 ← lift (getIndex (params request) 0);
  chainId ← lift (getProp p0 "chainId");
  encoded ← lift hex;
  match params request with
  | VArr xs =>
      modify (fun st =>
        set_requests
          (<[payload := with_params request (VArr (xs ++ [encoded]))]>
             (requests st)) st)
  | _ => throw TypeError
  end.

(** Lines 272-276: the session future the call chains on. *)
Definition ensureSession (self : WalletConnectProvider) (init : ConnInit) : M PromiseId :=
  st ← get;
  match sessionPromise st with
  | None =>
      created ← createWebconnector self init;
      modify (set_sessionPromise (Some created));;
      ret created
  | Some p => ret p
  end.

Definition sendAsync (self : WalletConnectProvider) (payload : Ref) (callback : Fn)
    (init : ConnInit) : M (option PromiseId) :=
  p0 ← promiseResolve (VArr []);
  request ← readRequest payload;
  if (indexOf supportedMethods (method request) >? -1)%Z then
    p ← ensureSession self init;
    if (indexOf walletconnectMethods (method request) >? -1)%Z then
      when (strictEq (method request) "eth_sendTransaction")
        (pushChainId payload (init_hex init));;
      q1 ← then_ p (SendCustom payload);
      q2 ← then_ q1 (FnResult payload callback);
      q3 ← catch_ q2 (FnError payload callback);
      ret (Some q3)
    else if strictEq (method request) "eth_accounts" then
      q1 ← then_ p (Accounts payload callback);
      q2 ← catch_ q1 (AccountsCatch payload callback);
      ret (Some q2)
    else ret None
  else
    q1 ← then_ p0 (PlainThen self payload callback);
    q2 ← catch_ q1 (PlainCatch callback);
    ret (Some q2).

(** ** isConnected and disconnect (lines 323-335) *)

Definition isConnected (self : WalletConnectProvider) (st : State) : bool :=
  match webconnector st with
  | Some k =>
      match connectors st !! k with
      | Some c => connected c
      | None => false
      end
  | None => false
  end.

Definition disconnect (self : WalletConnectProvider) : M unit :=
  st ← get;
  match webconnector st with
  | Some k => if isConnected self st then emit (KillSession k) else ret tt
  | None => ret tt
  end.

(** ** The run time: caller actions and environment events *)

Inductive Label :=
| NewRequest (p : Payload)                 (* the caller builds a request object *)
| Dispatch (self : WalletConnectProvider) (payload : Ref) (callback : Fn) (init : ConnInit)
| Disconnect (self : WalletConnectProvider)
| Microtask (sendFails : bool)             (* the oldest queued reaction runs *)
| Settle (p : PromiseId) (o : Settled)     (* the pairing transport settles its promise *)
| ConnectorChanged (k : ConnId) (c : bool) (s u : Value)
| Event (k : ConnId) (event : string) (error payload : Value)
| ModalAbort                               (* the user closes the QR-code modal *)
| XhrReadyState (x : XhrId) (readyState : Z) (body : Body)
| XhrTimeout (x : XhrId)
| Tick (dt : Z).

Definition exec {A} (m : M A) (st : State) : State := (m st).2.

(** An exception that leaves a call or an event handler is recorded. *)
Definition guarded {A} (m : M A) : M unit :=
  c ← attempt m;
  match c with
  | Normal _ => ret tt
  | Throw e => emit (Thrown e)
  end.

Definition toplevel {A} (m : M A) (st : State) : State := exec (guarded m) st.

Definition listenersFor (event : string) (c : WalletConnect) : list Listener :=
  map snd (filter (fun el => String.eqb (fst el) event = true) (listeners c)).

Definition libraryState (c : bool) (s u : Value) (w : WalletConnect) : WalletConnect :=
  {| bridge := bridge w; connected := c; session := s; uri := u; listeners := listeners w |}.

(** The timeout event of XMLHttpRequest: it exists only for a request whose
    [timeout] attribute is positive, once that many milliseconds have
    passed since [send]. *)
Definition timeoutDue (r : XMLHttpRequest) (t : Z) : bool :=
  match xhr_sentAt r with
  | Some t0 =>
      (0 <? xhr_timeout r)%Z && (t0 + xhr_timeout r <=? t)%Z && negb (xhr_readyState r =? 4)%Z
  | None => false
  end.

Definition fire {H} (h : option H) (f : H -> M unit) : M unit :=
  match h with
  | Some c => f c
  | None => ret tt
  end.

Definition step (l : Label) (st : State) : option State :=
  match l with
  | NewRequest p => Some (set_requests (requests st ++ [p]) st)
  | Dispatch self payload callback init =>
      match requests st !! payload with
      | Some _ => Some (toplevel (sendAsync self payload callback init) st)
      | None => None
      end
  | Disconnect self => Some (toplevel (disconnect self) st)
  | Microtask sendFails =>
      match microtasks st with
      | j :: js => Some (toplevel (runJob j sendFails) (set_microtasks js st))
      | [] => None
      end
  | Settle p o =>
      match promises st !! p with
      | Some pr => if external pr then Some (toplevel (settle p o) st) else None
      | None => None
      end
  | ConnectorChanged k c s u =>
      match connectors st !! k with
      | Some _ => Some (set_connectors (alter (libraryState c s u) k (connectors st)) st)
      | None => None
      end
  | Event k event error payload =>
      match connectors st !! k with
      | Some c =>
          Some (toplevel
                  (forEach (listenersFor event c) (fun f => runListener f error payload)) st)
      | None => None
      end
  | ModalAbort =>
      match modal st with
      | Some c => Some (toplevel (runAbort c) (set_modal None st))
      | None => None
      end
  | XhrReadyState x readyState body =>
      match xhrs st !! x with
      | Some r =>
          match xhr_sentAt r with
          | Some _ =>
              Some (toplevel
                      (updateXhr x (xhrProgress readyState body);;
                       fire (xhr_onreadystatechange r) (onreadystatechange x)) st)
          | None => None
          end
      | None => None
      end
  | XhrTimeout x =>
      match xhrs st !! x with
      | Some r =>
          if timeoutDue r (now st) then
            Some (toplevel
                    (updateXhr x (xhrProgress 4 emptyBody);;
                     fire (xhr_onreadystatechange r) (onreadystatechange x);;
                     fire (xhr_ontimeout r) ontimeout) st)
          else None
      | None => None
      end
  | Tick dt => if (0 <=? dt)%Z then Some (set_now (now st + dt)%Z st) else None
  end.

Fixpoint run (tr : list Label) (st : State) : option State :=
  match tr with
  | [] => Some st
  | l :: tr' =>
      match step l st with
      | Some st' => run tr' st'
      | None => None
      end
  end.

(** ** Vocabulary of the specifications *)

(** [m] takes every state to one related to it by [R], whether it returns
    or throws. *)
Definition respects (R : relation State) {A} (m : M A) : Prop :=
  ∀ st, R st (exec m st).

(** The two module-level variables and the connectors are untouched. *)
Definition sameGlobals : relation State := fun st st' =>
  sessionPromise st' = sessionPromise st ∧
  webconnector st' = webconnector st ∧
  connectors st' = connectors st.

(** Two versions of a request object that differ at most in [params]. *)
Definition sameEnvelope (p q : Payload) : Prop :=
  id q = id p ∧ jsonrpc q = jsonrpc p ∧ method q = method p.

(** Every request object is still there, with the same envelope. *)
Definition requestsKept : relation State := fun st st' =>
  ∀ r p, requests st !! r = Some p → ∃ q, requests st' !! r = Some q ∧ sameEnvelope p q.

(** No XMLHttpRequest has its [timeout] attribute set. *)
Definition noTimeoutSet (st : State) : Prop :=
  Forall (fun r => xhr_timeout r = 0%Z) (xhrs st).

Definition timeoutsOff : relation State := fun st st' =>
  noTimeoutSet st → noTimeoutSet st'.

Definition isCreateSession (e : Effect) : bool :=
  match e with CreateSession _ _ => true | _ => false end.

(** The calls of [createSession] recorded in a log. *)
Definition createSessions (lg : list Effect) : list Effect := List.filter isCreateSession lg.

(** While a session future is stored, the globals are kept and no session
    is requested from the pairing transport. *)
Definition keepsSession : relation State := fun st st' =>
  sessionPromise st ≠ None →
  sameGlobals st st' ∧ createSessions (log st') = createSessions (log st).

(** The method needs the session: [supportedMethods.indexOf(method) > -1]. *)
Definition needsSession (v : Value) : bool := (indexOf supportedMethods v >? -1)%Z.

(** [m] returns [a] and changes nothing but the XMLHttpRequest objects,
    without creating or dropping one. *)
Definition touchesXhrs {A} (m : M A) (a : A) : Prop :=
  ∀ st, ∃ xs, length xs = length (xhrs st) ∧ m st = (Normal a, set_xhrs xs st).

(** The microtask of a plain relay: the reaction on [Promise.resolve([])]. *)
Definition plainJob (self : WalletConnectProvider) (payload : Ref) (callback : Fn)
    (q : PromiseId) : Job :=
  {| job_reaction :=
       {| onFulfilled := Some (PlainThen self payload callback); onRejected := None;
          derived := q |};
     job_arg := Ful (VArr []) |}.

(** One call of [sendAsync]: the instance it is made on, the request
    object, the callback, and what a [new WalletConnect] would find. *)
Record Call := {
  call_self : WalletConnectProvider;
  call_payload : Ref;
  call_callback : Fn;
  call_init : ConnInit;
}.

Definition dispatch (c : Call) : Label :=
  Dispatch (call_self c) (call_payload c) (call_callback c) (call_init c).

(** The call is made on an existing request whose method needs the session. *)
Definition sessionCall (st : State) (c : Call) : Prop :=
  ∃ rq, requests st !! call_payload c = Some rq ∧ needsSession (method rq) = true.

(** The instance a listener closure was created on. *)
Definition listenerSelf (l : Listener) : WalletConnectProvider :=
  match l with
  | OnConnect self _ | OnDisconnect self | OnSessionUpdate self _ => self
  end.

(** The connector was built from the configuration of instance [self]:
    its bridge is that instance's, and so are the hooks its listeners call. *)
Definition ownedBy (self : WalletConnectProvider) (c : option WalletConnect) : Prop :=
  match c with
  | Some c =>
      bridge c = bridgeURL self ∧
      Forall (fun el => listenerSelf el.2 = self) (listeners c)
  | None => False
  end.

(** The hook call made by the abort callback of instance [self]. *)
Definition abortHook (self : WalletConnectProvider) (u : Value) : list Effect :=
  match onAbort (callbacks self) with
  | Some f => [Hook f [u]]
  | None => []
  end.

(** The request object after line 281,
    [payload.params.push(convertNumberToHex(payload.params[0].chainId))],
    or the exception that line throws: reading the argument fails on a
    missing first parameter, the library ([hex] is what it returns or
    throws) may reject the chain identifier, and otherwise the string it
    returned is the new last element. *)
Definition pushed (hex : Completion Value) (rq : Payload) : Completion Payload :=
  match params rq with
  | VArr (p0 :: ps) =>
      match p0 with
      | VUndefined | VNull => Throw TypeError
      | _ =>
          match hex with
          | Normal encoded => Normal (with_params rq (VArr (p0 :: ps ++ [encoded])))
          | Throw e => Throw e
          end
      end
  | _ => Throw TypeError
  end.

(** The request objects are left as they are. *)
Definition sameRequests : relation State := fun st st' => requests st' = requests st.

(** The stored future is kept or dropped but never replaced, no connector
    is built and no session is requested from the pairing transport. *)
Definition holdsOrDrops : relation State := fun st st' =>
  (sessionPromise st' = sessionPromise st ∨ sessionPromise st' = None) ∧
  length (connectors st') = length (connectors st) ∧
  createSessions (log st') = createSessions (log st).

(** A session future is stored after every step of the trace. *)
Fixpoint slotHeld (tr : list Label) (st : State) : Prop :=
  match tr with
  | [] => True
  | l :: tr' =>
      match step l st with
      | Some st' => sessionPromise st' ≠ None ∧ slotHeld tr' st'
      | None => True
      end
  end.

(** The four reactions through which a dispatch on the session paths
    answers its callback (lines 287-292 and 296-303). *)
Definition sessionReactions (r : Ref) (cb : Fn) : list Handler :=
  [FnResult r cb; FnError r cb; Accounts r cb; AccountsCatch r cb].

(** The hook call made by the [disconnect] listener of instance [self]. *)
Definition disconnectHook (self : WalletConnectProvider) (error payload : Value)
  : list Effect :=
  match onDisconnect (callbacks self) with
  | Some f => [Hook f [error; payload]]
  | None => []
  end.

(** ** Scenarios *)

Definition rq (i : Z) (m : string) (ps : Value) : Payload :=
  {| id := VNum i; jsonrpc := VStr "2.0"; method := VStr m; params := ps |}.

(** The chain identifier of the scenarios is 1, which the library prints
    as [0x01]. *)
Definition fresh : ConnInit :=
  {| init_connected := false; init_session := VUndefined; init_hex := Normal (VStr "0x01") |}.

(** An instance with every hook set and a timeout of one second. *)
Definition hooked : WalletConnectProvider :=
  {| host := "http://localhost:8545"; timeout := 1000; user := None; password := None;
     headers := None; bridgeURL := "https://bridge.walletconnect.org"; showQRCode := true;
     callbacks := {| onConnect := Some 1; onCreate := Some 2; onAbort := Some 3;
                     onUpdate := Some 4; onDisconnect := Some 5 |} |}.

(** A second instance, with another bridge and other hooks. *)
Definition second : WalletConnectProvider :=
  {| host := "http://localhost:8545"; timeout := 0; user := None; password := None;
     headers := None; bridgeURL := "https://bridge.example.org"; showQRCode := false;
     callbacks := {| onConnect := Some 11; onCreate := Some 12; onAbort := Some 13;
                     onUpdate := Some 14; onDisconnect := Some 15 |} |}.

Definition tasks (n : nat) : list Label := replicate n (Microtask false).

Definition accountsRequest : Payload := rq 2 "eth_accounts" (VArr []).
Definition blockRequest : Payload := rq 1 "eth_blockNumber" (VArr []).
Definition signRequest : Payload := rq 4 "personal_sign" (VArr [VStr "0x00"]).
Definition txRequest : Payload :=
  rq 3 "eth_sendTransaction" (VArr [VObj [("chainId", VNum 1)]]).

Definition wallet : Value := VArr [VStr "0xabc"].
Definition approval : Value :=
  VObj [("params", VArr [VObj [("accounts", wallet); ("chainId", VNum 1)]])].
Definition bridgeDown : Value := VErr "bridge unreachable" VUndefined.
Definition refused : Value := VErr "session rejected" VUndefined.

(** [eth_accounts] is dispatched on [hooked] with nothing stored: the
    negotiation is in flight, its future is promise 6 and the promise of
    [createSession] is promise 3. *)
Definition negotiating : list Label :=
  [NewRequest accountsRequest; Dispatch hooked 0 7 fresh].

(** The pairing transport created the session: the URI is shown. *)
Definition paired : list Label :=
  negotiating ++
  [ConnectorChanged 0 false VUndefined (VStr "wc:1"); Settle 3 (Ful VUndefined)] ++ tasks 2.

(** The wallet approved. *)
Definition established : list Label :=
  paired ++
  [ConnectorChanged 0 true (VObj [("accounts", wallet)]) (VStr "wc:1");
   Event 0 "connect" VNull approval] ++ tasks 5.

(** The pairing transport fails to create the session. *)
Definition failedNegotiation : list Label :=
  negotiating ++ [Settle 3 (Rej bridgeDown)] ++ tasks 2.

(** The wallet refuses the session. *)
Definition refusedNegotiation : list Label :=
  paired ++ [Event 0 "connect" refused VNull] ++ tasks 5.

(** A plain relay is dispatched while the negotiation is in flight. *)
Definition relayDuringNegotiation : list Label :=
  negotiating ++ [NewRequest blockRequest; Dispatch hooked 1 8 fresh; Microtask false].

(** A plain relay on an instance with [timeout = 1000], and a transport
    that never answers while a hundred and one seconds pass. *)
Definition silentTransport : list Label :=
  [NewRequest blockRequest; Dispatch hooked 0 7 fresh; Microtask false;
   Tick 1000; Tick 100000].

(** A transaction is dispatched. *)
Definition transaction : list Label :=
  [NewRequest txRequest; Dispatch hooked 0 9 fresh].

(** Three request objects of the caller, and three calls on two instances. *)
Definition threeRequests : State :=
  set_requests [accountsRequest; signRequest; txRequest] initial.

Definition threeCalls : list Call :=
  [ {| call_self := hooked; call_payload := 0; call_callback := 7; call_init := fresh |};
    {| call_self := second; call_payload := 1; call_callback := 8; call_init := fresh |};
    {| call_self := hooked; call_payload := 2; call_callback := 9; call_init := fresh |} ].

(** The state a trace leads to from the initial state. *)
Definition after (tr : list Label) : State := default initial (run tr initial).

(** ** Promises nothing can settle any more

    A closure targets the promises it may settle: a reaction its derived
    promise, the handlers of lines 183-206 the promise [outer], the
    [connect] and [session_update] listeners the promise they resolve. *)

Definition handlerOk (gone : list PromiseId) (h : option Handler) : Prop :=
  match h with
  | Some (CreateSessionThen _ _ outer) | Some (DThen outer) | Some (DCatch outer) => outer ∉ gone
  | _ => True
  end.

Definition reactionOk (gone : list PromiseId) (r : Reaction) : Prop :=
  (derived r ∉ gone) ∧ handlerOk gone (onFulfilled r) ∧ handlerOk gone (onRejected r).

Definition listenerOk (gone : list PromiseId) (l : Listener) : Prop :=
  match l with
  | OnConnect _ d => d ∉ gone
  | OnSessionUpdate _ outer => outer ∉ gone
  | OnDisconnect _ => True
  end.

Definition pendingInternal (st : State) (p : PromiseId) : Prop :=
  ∃ rs, promises st !! p = Some {| pstate := Pending; reactions := rs; external := false |}.

(** The promises of [gone] are abandoned: they are pending, the pairing
    transport does not own them, and no microtask, no listener and no
    reaction registered on a promise outside [gone] targets one of them. *)
Record abandoned (gone : list PromiseId) (st : State) : Prop := {
  abandoned_pending : ∀ p, p ∈ gone → pendingInternal st p;
  abandoned_jobs : Forall (fun j => reactionOk gone (job_reaction j)) (microtasks st);
  abandoned_reactions :
    ∀ q pr, promises st !! q = Some pr → q ∉ gone → Forall (reactionOk gone) (reactions pr);
  abandoned_listeners :
    ∀ k c, connectors st !! k = Some c → Forall (fun el => listenerOk gone el.2) (listeners c);
}.

(** [m] keeps [gone] abandoned, and what it returns satisfies [ok]. *)
Definition keepsAbandoned (gone : list PromiseId) {A} (ok : A → Prop) (m : M A) : Prop :=
  ∀ st, abandoned gone st → abandoned gone (m st).2 ∧ ∀ a, (m st).1 = Normal a → ok a.

(** The promises the failed negotiation leaves behind: [outer], the future
    of the async function, and the two promises of the caller's chain. *)
Definition leftBehind : list PromiseId := [2; 6; 7; 8].

(** Promises, microtasks and connectors are left as they are. *)
Definition sameReactive : relation State := fun st st' =>
  promises st' = promises st ∧
  microtasks st' = microtasks st ∧
  connectors st' = connectors st.

(** ** Vocabulary of the further properties *)

(** The two module-level variables are left as they are. *)
Definition sameSlot : relation State := fun st st' =>
  sessionPromise st' = sessionPromise st ∧ webconnector st' = webconnector st.

(** The two module-level variables are set together and cleared together. *)
Definition slotsAgree (st : State) : Prop :=
  sessionPromise st = None ↔ webconnector st = None.

(** The step is one of the two that clear the session: the abort callback
    of the modal (lines 193-197) or the reaction to a failed
    [createSession] (lines 207-210). *)
Definition clearsSession (l : Label) (st : State) : Prop :=
  l = ModalAbort ∨
  ∃ b j js, l = Microtask b ∧ microtasks st = j :: js ∧
            handlerFor (job_reaction j) (job_arg j) = Some CreateSessionCatch.

(** The listeners of an event, by a test on the event name. *)
Fixpoint listenersOf (event : string) (ls : list (string * Listener)) : list Listener :=
  match ls with
  | [] => []
  | (e, l) :: ls' =>
      if String.eqb e event then l :: listenersOf event ls' else listenersOf event ls'
  end.

(** ** Further scenarios *)

(** What [new WalletConnect] finds when an approved session is stored. *)
Definition restored : ConnInit :=
  {| init_connected := true; init_session := VObj [("accounts", wallet)];
     init_hex := Normal (VStr "0x01") |}.

(** A connected session that names no accounts yet. *)
Definition restoredEmpty : ConnInit :=
  {| init_connected := true; init_session := VObj [("accounts", VArr [])];
     init_hex := Normal (VStr "0x01") |}.

(** A transaction without parameters. *)
Definition emptyTransaction : Payload := rq 5 "eth_sendTransaction" (VArr []).

(** An instance with credentials and a header of its own. *)
Definition authenticated : WalletConnectProvider :=
  {| host := "http://localhost:8545"; timeout := 0; user := Some "alice";
     password := Some "secret"; headers := Some [{| name := "X-Trace"; value := "1" |}];
     bridgeURL := "https://bridge.walletconnect.org"; showQRCode := true;
     callbacks := noCallbacks |}.

(** A response body that parses, and one that does not. *)
Definition blockNumber : Body := {| text := "16"; json := Some (VNum 16) |}.
Definition garbled : Body := {| text := "<html>"; json := None |}.

(** A session-update event that names the wallet's accounts. *)
Definition sessionUpdate : Value := approval.


(** ** What a dispatch on a session path registers *)

(** The first reaction of the dispatch, on the session future: lines
    283-286 for a method of the signing session, lines 295-302 for
    [eth_accounts]; [q1] is the promise of that [then]. *)
Definition firstReaction (rq : Payload) (r : Ref) (cb : Fn) (q1 : PromiseId) : Reaction :=
  {| onFulfilled :=
       Some (if (indexOf walletconnectMethods (method rq) >? -1)%Z
             then SendCustom r else Accounts r cb);
     onRejected := None;
     derived := q1 |}.

(** The promises of the [then] and [catch] calls of lines 283-292 and
    295-303, [q1] being the first of them, with the reactions that answer
    the callback. *)
Definition answerChain (rq : Payload) (r : Ref) (cb : Fn) (q1 : PromiseId) : list Promise :=
  if (indexOf walletconnectMethods (method rq) >? -1)%Z then
    [{| pstate := Pending;
        reactions := [{| onFulfilled := Some (FnResult r cb); onRejected := None;
                         derived := q1 + 1 |}];
        external := false |};
     {| pstate := Pending;
        reactions := [{| onFulfilled := None; onRejected := Some (FnError r cb);
                         derived := q1 + 2 |}];
        external := false |};
     {| pstate := Pending; reactions := []; external := false |}]
  else
    [{| pstate := Pending;
        reactions := [{| onFulfilled := None; onRejected := Some (AccountsCatch r cb);
                         derived := q1 + 1 |}];
        external := false |};
     {| pstate := Pending; reactions := []; external := false |}].

(** Reaction [rn] is registered on promise [p] between [st] and [st']: it
    is appended to the reactions of the pending promise, or, the promise
    being settled, queued as a job with the outcome of the promise. *)
Definition registered (st st' : State) (p : PromiseId) (rn : Reaction) : Prop :=
  match promises st !! p with
  | Some {| pstate := Pending; reactions := rs; external := x |} =>
      promises st' !! p
      = Some {| pstate := Pending; reactions := rs ++ [rn]; external := x |} ∧
      microtasks st' = microtasks st
  | Some {| pstate := Fulfilled v |} =>
      promises st' !! p = promises st !! p ∧
      microtasks st' = microtasks st ++ [{| job_reaction := rn; job_arg := Ful v |}]
  | Some {| pstate := Rejected e |} =>
      promises st' !! p = promises st !! p ∧
      microtasks st' = microtasks st ++ [{| job_reaction := rn; job_arg := Rej e |}]
  | None => False
  end.

(** The connector that [createWebconnector] builds on instance [self]
    when the library finds [init]: [d] and [outer] are the promises the
    listeners settle. *)
Definition builtConnector (self : WalletConnectProvider) (init : ConnInit)
    (c : WalletConnect) : Prop :=
  bridge c = bridgeURL self ∧
  connected c = init_connected init ∧
  session c = init_session init ∧
  uri c = VUndefined ∧
  if init_connected init then
    listeners c = [] ∨ ∃ outer, listeners c = [("session_update", OnSessionUpdate self outer)]
  else
    ∃ d, listeners c = [("connect", OnConnect self d); ("disconnect", OnDisconnect self)].

(** Reaction [rn] waits for promise [p]: among the reactions of the
    pending promise, or, the promise being settled, among the queued jobs
    with the outcome of the promise. *)
Definition waitsOn (st : State) (p : PromiseId) (rn : Reaction) : Prop :=
  match promises st !! p with
  | Some {| pstate := Pending; reactions := rs |} => rn ∈ rs
  | Some {| pstate := Fulfilled v |} =>
      {| job_reaction := rn; job_arg := Ful v |} ∈ microtasks st
  | Some {| pstate := Rejected e |} =>
      {| job_reaction := rn; job_arg := Rej e |} ∈ microtasks st
  | None => False
  end.

Definition handlersOf (rn : Reaction) : list Handler :=
  option_list (onFulfilled rn) ++ option_list (onRejected rn).

(** The handlers of the reactions that a dispatch registers. *)
Definition chainHandlers (rq : Payload) (r : Ref) (cb : Fn) (q1 : PromiseId) : list Handler :=
  handlersOf (firstReaction rq r cb q1) ++
  concat (map (fun p => concat (map handlersOf (reactions p))) (answerChain rq r cb q1)).

(** The stored session future is a promise of the store. *)
Definition slotInStore (st : State) : Prop :=
  ∀ sp, sessionPromise st = Some sp → sp < length (promises st).

(** No promise leaves the store. *)
Definition promisesGrow : relation State := fun st st' =>
  length (promises st) ≤ length (promises st').
(** * Properties *)

(** ** Reasoning about monadic code *)

Section Respects.
Context (R : relation State) `{!PreOrder R}.

Lemma respects_ret {A} (a : A) : respects R (ret a).
Proof. intros st. reflexivity. Qed.

Lemma respects_throw {A} (e : Value) : respects R (@throw A e).
Proof. intros st. reflexivity. Qed.

Lemma respects_lift {A} (c : Completion A) : respects R (lift c).
Proof. intros st. reflexivity. Qed.

Lemma respects_get : respects R get.
Proof. intros st. reflexivity. Qed.

Lemma respects_modify (f : State → State) : (∀ st, R st (f st)) → respects R (modify f).
Proof. intros H st. apply H. Qed.

Lemma respects_bind {A B} (m : M A) (k : A → M B) :
  respects R m → (∀ a, respects R (k a)) → respects R (m ≫= k).
Proof.
  intros Hm Hk st. unfold exec, mbind, M_bind, bind.
  specialize (Hm st). unfold exec in Hm.
  destruct (m st) as [[a|e] st1]; simpl in *; [|done].
  etrans; [exact Hm|]. apply Hk.
Qed.

Lemma respects_attempt {A} (m : M A) : respects R m → respects R (attempt m).
Proof. intros Hm st. apply Hm. Qed.

Lemma respects_try_catch {A} (m : M A) (h : Value → M A) :
  respects R m → (∀ e, respects R (h e)) → respects R (try_catch m h).
Proof.
  intros Hm Hh. apply respects_bind; [by apply respects_attempt|].
  intros [a|e]; [apply respects_ret | apply Hh].
Qed.

Lemma respects_when (b : bool) (m : M unit) : respects R m → respects R (when b m).
Proof. intros Hm. destruct b; [done | apply respects_ret]. Qed.

Lemma respects_forEach {A} (xs : list A) (f : A → M unit) :
  (∀ x, respects R (f x)) → respects R (forEach xs f).
Proof.
  intros Hf. induction xs as [|x xs IH]; simpl; [apply respects_ret|].
  apply respects_bind; [apply Hf | intros _; apply IH].
Qed.

Lemma respects_fire {H} (h : option H) (f : H → M unit) :
  (∀ c, respects R (f c)) → respects R (fire h f).
Proof. intros Hf. destruct h; [apply Hf | apply respects_ret]. Qed.

Lemma respects_guarded {A} (m : M A) :
  respects R m → (∀ e, respects R (emit (Thrown e))) → respects R (guarded m).
Proof.
  intros Hm He. apply respects_bind; [by apply respects_attempt|].
  intros [a|e]; [apply respects_ret | apply He].
Qed.
End Respects.

(** Apply a lemma of the section, finding the preorder by instance search. *)
Ltac rapply lem := apply lem; [apply _ | ..].

(** Decompose a goal [respects R m] along the structure of [m]; [prim]
    proves the residual goals [R st (f st)] about state updates. *)
Ltac respects_with prim :=
  repeat match goal with
    | |- respects _ (ret _) => rapply respects_ret
    | |- respects _ (throw _) => rapply respects_throw
    | |- respects _ (lift _) => rapply respects_lift
    | |- respects _ get => rapply respects_get
    | |- respects _ (attempt _) => apply respects_attempt
    | |- respects _ (_ ≫= _) => rapply respects_bind; [| intros ?]
    | |- respects _ (try_catch _ _) => rapply respects_try_catch; [| intros ?]
    | |- respects _ (guarded _) => rapply respects_guarded; [| intros ?]
    | |- respects _ (when _ _) => rapply respects_when
    | |- respects _ (forEach _ _) => rapply respects_forEach; intros ?
    | |- respects _ (fire _ _) => rapply respects_fire; intros ?
    | |- respects _ (modify _) => apply respects_modify; intros ?; prim
    | |- respects _ (match ?x with _ => _ end) => destruct x
    | |- respects _ (let _ := _ in _) => cbv zeta
    end.

Create HintDb js discriminated.
#[global] Hint Unfold newPromise newExternalPromise enqueue settle resolve reject subscribe
  then_ catch_ adopt promiseResolve readRequest getCallback callHook modalOpen modalClose
  newXMLHttpRequest updateXhr prepareRequest xhrSend _sendAsync onreadystatechange ontimeout
  on createSession payloadAccounts emit : js.

#[global] Instance sameGlobals_preorder : PreOrder sameGlobals.
Proof.
  split; [by intros st | intros a b c (?&?&?) (?&?&?)].
  unfold sameGlobals. repeat split; congruence.
Qed.

#[global] Instance requestsKept_preorder : PreOrder requestsKept.
Proof.
  split.
  - intros st r p Hp. exists p. by rewrite Hp.
  - intros a b c Hab Hbc r p Hp.
    destruct (Hab r p Hp) as (q & Hq & (?&?&?)).
    destruct (Hbc r q Hq) as (q' & Hq' & (?&?&?)).
    exists q'. split; [done|]. unfold sameEnvelope. repeat split; congruence.
Qed.

#[global] Instance timeoutsOff_preorder : PreOrder timeoutsOff.
Proof. split; [intros st H; exact H | intros a b c Hab Hbc H; exact (Hbc (Hab H))]. Qed.

(** ** Tactics *)

Ltac respects_auto prim :=
  repeat (autounfold with js; respects_with prim; try solve [auto with js]).

Ltac len :=
  repeat (rewrite length_insert || rewrite length_app || rewrite length_alter); simpl.

(** Symbolic execution of monadic code on a symbolic state. *)
Ltac run_js :=
  repeat (cbn -[length lookup insert alter app] in *;
          unfold mbind, M_bind, bind, ret, get, modify, attempt, lift, throw, when in *;
          cbn -[length lookup insert alter app] in *;
          try case_match; simplify_eq).

Lemma respects_toplevel R {A} (m : M A) st : respects R (guarded m) → R st (toplevel m st).
Proof. intros H. apply H. Qed.

(** ** Frame properties of a dispatch *)

#[global] Instance keepsSession_preorder : PreOrder keepsSession.
Proof.
  split.
  - intros st _. by repeat split.
  - intros a b c Hab Hbc Ha. destruct (Hab Ha) as [(H1&H2&H3) H4].
    assert (Hb : sessionPromise b ≠ None) by congruence.
    destruct (Hbc Hb) as [(H5&H6&H7) H8]. unfold sameGlobals. repeat split; congruence.
Qed.

Lemma createSessions_snoc lg e :
  (∀ k p, e ≠ CreateSession k p) → createSessions (lg ++ [e]) = createSessions lg.
Proof.
  intros H. unfold createSessions. rewrite List.filter_app. simpl.
  destruct e; simpl; rewrite ?app_nil_r; try done.
  by specialize (H k reply).
Qed.

Ltac keeps_prim :=
  intros _; split; [by repeat split | try done; simpl; by rewrite createSessions_snoc].

Lemma keepsSession_pushChainId r hex : respects keepsSession (pushChainId r hex).
Proof. unfold pushChainId. respects_auto keeps_prim. Qed.

Lemma keepsSession_ensureSession self init : respects keepsSession (ensureSession self init).
Proof. intros st Hs. unfold exec, ensureSession. run_js; done. Qed.

#[global] Hint Resolve keepsSession_pushChainId keepsSession_ensureSession : js.

Lemma keepsSession_sendAsync self r cb init :
  respects keepsSession (guarded (sendAsync self r cb init)).
Proof. unfold sendAsync. respects_auto keeps_prim. Qed.

Ltac kept_prim := intros ? ? Hkept; eexists; split; [exact Hkept | by repeat split].

Lemma requestsKept_set_requests st r rq v :
  requests st !! r = Some rq →
  requestsKept st (set_requests (<[r := with_params rq v]> (requests st)) st).
Proof.
  intros Hr r' p Hp. simpl. destruct (decide (r' = r)) as [->|Hne].
  - rewrite list_lookup_insert_eq by (by eapply lookup_lt_Some). eexists; split; [done|].
    rewrite Hr in Hp. by simplify_eq.
  - rewrite list_lookup_insert_ne by done. eexists; split; [done|]. done.
Qed.

Lemma requestsKept_pushChainId r hex : respects requestsKept (pushChainId r hex).
Proof.
  intros st. unfold exec, pushChainId, readRequest. run_js; try reflexivity.
  by apply requestsKept_set_requests.
Qed.
#[global] Hint Resolve requestsKept_pushChainId : js.

Lemma requestsKept_sendAsync self r cb init :
  respects requestsKept (guarded (sendAsync self r cb init)).
Proof.
  unfold sendAsync, ensureSession, createWebconnector, newWalletConnect.
  respects_auto kept_prim.
Qed.

(** ** Request envelopes are never rewritten *)

Lemma requestsKept_runJob j b : respects requestsKept (guarded (runJob j b)).
Proof. unfold runJob, handlerFor, runHandler. respects_auto kept_prim. Qed.

Lemma requestsKept_listeners ls error payload :
  respects requestsKept (guarded (forEach ls (fun f => runListener f error payload))).
Proof. unfold runListener. respects_auto kept_prim. Qed.

Ltac kept_toplevel :=
  apply (respects_toplevel requestsKept); rapply respects_guarded; [|intros ?];
  try unfold disconnect; try unfold runAbort; respects_auto kept_prim.

Lemma requestsKept_step l st st' : step l st = Some st' → requestsKept st st'.
Proof.
  destruct l; simpl; intros Hs; repeat case_match; simplify_eq.
  - intros r q Hq. exists q. split; [by apply lookup_app_l_Some | by repeat split].
  - apply requestsKept_sendAsync.
  - kept_toplevel.
  - etrans; [|apply requestsKept_runJob]. kept_prim.
  - kept_toplevel.
  - kept_prim.
  - apply requestsKept_listeners.
  - etrans; [|kept_toplevel]. kept_prim.
  - kept_toplevel.
  - kept_toplevel.
  - kept_prim.
Qed.

Lemma requestsKept_run tr st st' : run tr st = Some st' → requestsKept st st'.
Proof.
  revert st. induction tr as [|l tr IH]; simpl; intros st Hr.
  - by simplify_eq.
  - destruct (step l st) as [st1|] eqn:Hs; [|done].
    etrans; [by eapply requestsKept_step | by apply IH].
Qed.

(** ** No request ever gets a timeout *)

Lemma noTimeout_alter (f : XMLHttpRequest → XMLHttpRequest) x st :
  (∀ r, xhr_timeout (f r) = xhr_timeout r) →
  timeoutsOff st (set_xhrs (alter f x (xhrs st)) st).
Proof.
  intros Hf H. unfold noTimeoutSet in *. simpl.
  apply Forall_alter; [done|]. intros r Hr Hx. rewrite Hf.
  by eapply Forall_lookup_1 in H.
Qed.

Ltac off_prim :=
  first [ by (intros Hoff; exact Hoff)
        | by (apply noTimeout_alter; intros ?)
        | by (intros Hoff; apply Forall_app; split; [exact Hoff | by repeat constructor]) ].

Lemma timeoutsOff_runJob j b : respects timeoutsOff (guarded (runJob j b)).
Proof. unfold runJob, handlerFor, runHandler. respects_auto off_prim. Qed.

Lemma timeoutsOff_sendAsync self r cb init :
  respects timeoutsOff (guarded (sendAsync self r cb init)).
Proof.
  unfold sendAsync, ensureSession, createWebconnector, newWalletConnect, pushChainId.
  respects_auto off_prim.
Qed.

Lemma timeoutsOff_listeners ls error payload :
  respects timeoutsOff (guarded (forEach ls (fun f => runListener f error payload))).
Proof. unfold runListener. respects_auto off_prim. Qed.

Lemma timeoutDue_off r t : xhr_timeout r = 0%Z → timeoutDue r t = false.
Proof. intros H. unfold timeoutDue. rewrite H. by destruct (xhr_sentAt r). Qed.

Ltac off_toplevel :=
  let Hoff := fresh in
  intros Hoff;
  match goal with
  | |- noTimeoutSet (toplevel ?m ?s) => refine (respects_toplevel timeoutsOff m s _ Hoff)
  end;
  rapply respects_guarded; [|intros ?];
  try unfold disconnect; try unfold runAbort; respects_auto off_prim.

Lemma timeoutsOff_step l st st' :
  noTimeoutSet st → step l st = Some st' → noTimeoutSet st' ∧ ∀ x, l ≠ XhrTimeout x.
Proof.
  intros Hoff. destruct l; simpl; intros Hs; repeat case_match; simplify_eq;
    try (split; [|done]; revert Hoff).
  - off_prim.
  - apply timeoutsOff_sendAsync.
  - off_toplevel.
  - intros Hoff. by apply timeoutsOff_runJob.
  - off_toplevel.
  - off_prim.
  - apply timeoutsOff_listeners.
  - off_toplevel.
  - off_toplevel.
  - exfalso.
    match goal with H : xhrs st !! _ = Some ?r, H' : timeoutDue ?r _ = true |- _ =>
      eapply Forall_lookup_1 in Hoff; [|exact H]; simpl in Hoff;
      rewrite (timeoutDue_off _ _ Hoff) in H'; discriminate end.
  - off_prim.
Qed.

Lemma timeoutsOff_run tr st st' :
  noTimeoutSet st → run tr st = Some st' → noTimeoutSet st' ∧ ∀ x, XhrTimeout x ∉ tr.
Proof.
  revert st. induction tr as [|l tr IH]; simpl; intros st Hoff Hr.
  - simplify_eq. split; [done|]. intros x Hx. by apply elem_of_nil in Hx.
  - destruct (step l st) as [st1|] eqn:Hs; [|done].
    destruct (timeoutsOff_step _ _ _ Hoff Hs) as [Hoff1 Hl].
    destruct (IH _ Hoff1 Hr) as [Hoff' Htr]. split; [done|].
    intros x [Heq|Hx]%elem_of_cons; [by eapply Hl | by eapply Htr].
Qed.

(** ** Symbolic execution helpers *)

Lemma lookup_snoc_at {A} (l : list A) (x : A) i : i = length l → (l ++ [x]) !! i = Some x.
Proof. intros ->. by apply list_lookup_middle. Qed.

Lemma lookup_insert_at {A} (l : list A) (x : A) i j :
  i = j → j < length l → <[i:=x]> l !! j = Some x.
Proof. intros -> H. by apply list_lookup_insert_eq. Qed.

(** Resolve lookups in lists built by appending and updating. *)
Ltac lookup_norm :=
  repeat match goal with
    | |- context [(?l ++ [?x]) !! ?i] =>
        rewrite (lookup_snoc_at l x i) by (len; lia)
    | |- context [(?l ++ ?k) !! ?i] =>
        rewrite (lookup_app_l l k i) by (len; lia)
    | |- context [(<[?j := ?v]> ?l) !! ?i] =>
        first [ rewrite (list_lookup_insert_ne l j i v) by (len; lia)
              | rewrite (lookup_insert_at l v j i) by (len; lia) ]
    | H : context [(?l ++ [?x]) !! ?i] |- _ =>
        rewrite (lookup_snoc_at l x i) in H by (len; lia)
    | H : context [(?l ++ ?k) !! ?i] |- _ =>
        rewrite (lookup_app_l l k i) in H by (len; lia)
    | H : context [(<[?j := ?v]> ?l) !! ?i] |- _ =>
        first [ rewrite (list_lookup_insert_ne l j i v) in H by (len; lia)
              | rewrite (lookup_insert_at l v j i) in H by (len; lia) ]
    end.

Ltac js_cbn :=
  cbn -[length lookup insert alter app indexOf strictEq _sendAsync createWebconnector
        pushChainId ensureSession forEach] in *.

Ltac js_unfold :=
  unfold toplevel, exec, guarded, try_catch, when in *;
  unfold mbind, M_bind, bind, ret, get, modify, attempt, lift, throw in *.

Ltac use_known :=
  repeat match goal with
         | H : ?l = _ |- context [match ?l with _ => _ end] => rewrite H
         | H : ?l = _, H' : ?l = _ |- _ => rewrite H in H'
         end.

(** Symbolic execution that keeps the larger operations folded. *)
Ltac js_exec :=
  repeat (js_unfold; js_cbn; lookup_norm; use_known; try case_match; simplify_eq).

Lemma touches_ret {A} (a : A) : touchesXhrs (ret a) a.
Proof. intros st. exists (xhrs st). split; [done|]. by destruct st. Qed.

Lemma touches_bind {A B} (m : M A) (k : A → M B) b a :
  touchesXhrs m b → touchesXhrs (k b) a → touchesXhrs (m ≫= k) a.
Proof.
  intros Hm Hk st. destruct (Hm st) as (xs & Hlen & Hm').
  destruct (Hk (set_xhrs xs st)) as (xs' & Hlen' & Hk').
  exists xs'. split; [by rewrite Hlen'|].
  unfold mbind, M_bind, bind. by rewrite Hm', Hk'.
Qed.

Lemma touches_updateXhr x f : touchesXhrs (updateXhr x f) tt.
Proof. intros st. eexists. split; [|reflexivity]. by rewrite length_alter. Qed.

Lemma touches_forEach {A} (xs : list A) (f : A → M unit) :
  (∀ x, touchesXhrs (f x) tt) → touchesXhrs (forEach xs f) tt.
Proof.
  intros Hf. induction xs as [|x xs IH]; simpl; [apply touches_ret|].
  eapply touches_bind; [apply Hf | apply IH].
Qed.

Ltac touches :=
  repeat first
    [ apply touches_ret
    | apply touches_updateXhr
    | apply touches_forEach; intros ?
    | eapply touches_bind
    | match goal with
      | |- touchesXhrs (match ?x with _ => _ end) _ => destruct x
      end ].

Lemma bind_eq {A B} (m : M A) (k : A → M B) st a st1 :
  m st = (Normal a, st1) → (m ≫= k) st = k a st1.
Proof. intros H. unfold mbind, M_bind, bind. by rewrite H. Qed.

(** What [prepareRequest] does to the state: one more XMLHttpRequest. *)
Lemma prepareRequest_spec self isAsync st :
  ∃ xs, length xs = S (length (xhrs st)) ∧
    prepareRequest self isAsync st = (Normal (length (xhrs st)), set_xhrs xs st).
Proof.
  unfold prepareRequest. erewrite bind_eq by reflexivity.
  match goal with |- context [ ?m ?s = _ ] =>
    assert (Ht : touchesXhrs m (length (xhrs st))) by touches;
    destruct (Ht s) as (xs & Hlen & ->) end.
  exists xs. split; [|done]. rewrite Hlen. simpl. len. lia.
Qed.

(** What [_sendAsync] does when [send] goes through: the request is
    handed to the transport, and nothing else is observable. *)
Lemma _sendAsync_spec self r cb rq st :
  requests st !! r = Some rq →
  ∃ xs, length xs = S (length (xhrs st)) ∧
    _sendAsync self r cb false st
    = (Normal tt, set_log (log st ++ [XhrSend (length (xhrs st)) rq]) (set_xhrs xs st)).
Proof.
  intros Hr. unfold _sendAsync.
  destruct (prepareRequest_spec self true st) as (xs & Hlen & Heq).
  rewrite (bind_eq _ _ _ _ _ Heq).
  unfold try_catch, readRequest, xhrSend, updateXhr, emit.
  js_exec. eexists. split; [|reflexivity]. len. lia.
Qed.

(** ** Plain relays *)

(** C2, as the code has it.  A dispatch whose method is not in
    [supportedMethods] never touches the session: it starts no negotiation
    and does not wait on the stored session future either.  It chains on a
    promise of its own that is already fulfilled, so its reaction is queued
    at once, whatever [sessionPromise] holds; when that microtask runs the
    request is handed to the HTTP transport. *)
Theorem plain_relay_never_waits self r cb init rq st :
  requests st !! r = Some rq →
  needsSession (method rq) = false →
  ∃ st1,
    step (Dispatch self r cb init) st = Some st1 ∧
    sameGlobals st st1 ∧ log st1 = log st ∧ requests st1 = requests st ∧
    xhrs st1 = xhrs st ∧
    microtasks st1 = microtasks st ++ [plainJob self r cb (S (length (promises st)))] ∧
    (microtasks st = [] →
     ∃ st2, step (Microtask false) st1 = Some st2 ∧
       sameGlobals st st2 ∧
       log st2 = log st ++ [XhrSend (length (xhrs st)) rq]).
Proof.
  intros Hr Hplain. unfold needsSession in Hplain.
  unfold step. rewrite Hr.
  unfold sendAsync, promiseResolve, readRequest, then_, catch_, newPromise, subscribe, enqueue.
  js_exec.
  eexists. split; [reflexivity|]. js_cbn.
  do 4 (split; [done|]).
  split; [unfold plainJob; len; by rewrite ?Nat.add_1_r|].
  intros Hq. rewrite Hq, app_nil_l.
  unfold runJob, handlerFor, runHandler, settle, enqueue. js_unfold. js_cbn.
  match goal with |- context [_sendAsync self r cb false ?s] =>
    destruct (_sendAsync_spec self r cb rq s Hr) as (xs & Hlen & ->) end.
  js_exec; (eexists; split; [reflexivity|]; by repeat split).
Qed.

(** ** Starting a negotiation *)

(** [createWebconnector] always returns: it builds one connector from the
    configuration of the instance it is called on, makes it the current
    one, and hands back a promise that did not exist before. *)
Lemma createWebconnector_spec self init st :
  ∃ sp st', createWebconnector self init st = (Normal sp, st') ∧
    sessionPromise st' = sessionPromise st ∧
    webconnector st' = Some (length (connectors st)) ∧
    length (connectors st') = S (length (connectors st)) ∧
    requests st' = requests st ∧
    length (promises st) ≤ sp < length (promises st') ∧
    length (createSessions (log st')) ≤ S (length (createSessions (log st))) ∧
    ownedBy self (connectors st' !! length (connectors st)).
Proof.
  unfold createWebconnector. autounfold with js. unfold newWalletConnect.
  destruct (init_connected init); run_js.
  all: eexists _, _; split; [reflexivity|]; cbn -[length lookup insert alter app].
  all: repeat split; try done.
  all: try (unfold createSessions; rewrite ?List.filter_app; len; lia).
  all: rewrite ?list_lookup_alter_eq, lookup_snoc_at by done; simpl; by repeat constructor.
Qed.

Lemma toplevel_bind {A B} (m : M A) (k : A → M B) st a st1 :
  m st = (Normal a, st1) → toplevel (m ≫= k) st = toplevel (k a) st1.
Proof.
  intros H. unfold toplevel, exec, guarded, attempt, mbind, M_bind, bind. simpl.
  by rewrite H.
Qed.

Lemma ensureSession_first self init st :
  sessionPromise st = None →
  ∃ sp st', ensureSession self init st = (Normal sp, st') ∧
    sessionPromise st' = Some sp ∧
    webconnector st' = Some (length (connectors st)) ∧
    length (connectors st') = S (length (connectors st)) ∧
    requests st' = requests st ∧
    length (promises st) ≤ sp < length (promises st') ∧
    length (createSessions (log st')) ≤ S (length (createSessions (log st))) ∧
    ownedBy self (connectors st' !! length (connectors st)).
Proof.
  intros Hs.
  destruct (createWebconnector_spec self init st)
    as (sp & st1 & Hc & ? & ? & ? & ? & ? & ? & ?).
  exists sp, (set_sessionPromise (Some sp) st1).
  split; [|simpl; intuition].
  unfold ensureSession. erewrite bind_eq by reflexivity. rewrite Hs.
  by erewrite bind_eq by exact Hc.
Qed.

Lemma ensureSession_stored self init st sp :
  sessionPromise st = Some sp → ensureSession self init st = (Normal sp, st).
Proof. intros Hs. unfold ensureSession. erewrite bind_eq by reflexivity. by rewrite Hs. Qed.

(** After [ensureSession], the rest of a dispatch keeps the stored future. *)
Lemma keepsSession_chain r cb (request : Payload) p hex :
  respects keepsSession
    (guarded
       (if (indexOf walletconnectMethods (method request) >? -1)%Z then
          when (strictEq (method request) "eth_sendTransaction") (pushChainId r hex);;
          q1 ← then_ p (SendCustom r);
          q2 ← then_ q1 (FnResult r cb);
          q3 ← catch_ q2 (FnError r cb);
          ret (Some q3)
        else if strictEq (method request) "eth_accounts" then
          q1 ← then_ p (Accounts r cb);
          q2 ← catch_ q1 (AccountsCatch r cb);
          ret (Some q2)
        else ret None)).
Proof. respects_auto keeps_prim. Qed.

Lemma dispatch_first self r cb init rq st :
  sessionPromise st = None →
  requests st !! r = Some rq →
  needsSession (method rq) = true →
  ∃ sp st', step (Dispatch self r cb init) st = Some st' ∧
    sessionPromise st' = Some sp ∧
    length (promises st) ≤ sp ∧
    webconnector st' = Some (length (connectors st)) ∧
    length (connectors st') = S (length (connectors st)) ∧
    length (createSessions (log st')) ≤ S (length (createSessions (log st))) ∧
    ownedBy self (connectors st' !! length (connectors st)).
Proof.
  intros Hs Hr Hn. unfold needsSession in Hn. unfold step. rewrite Hr.
  unfold sendAsync.
  erewrite toplevel_bind by reflexivity.
  erewrite toplevel_bind by (unfold readRequest; erewrite bind_eq by reflexivity;
                             simpl; rewrite Hr; reflexivity).
  rewrite Hn.
  edestruct (ensureSession_first self init)
    as (sp & st1 & He & Hsp & Hw & Hc & Hq & Hp & Hl & Ho);
    [|erewrite toplevel_bind by exact He]; [exact Hs|].
  simpl in *. rewrite length_app in Hp. simpl in Hp.
  destruct (keepsSession_chain r cb rq sp (init_hex init) st1) as [(H1 & H2 & H3) H4]; [congruence|].
  eexists sp, _. split; [reflexivity|].
  unfold toplevel. rewrite H1, H2, H3, H4. repeat split; try done. lia.
Qed.

Lemma dispatch_stored self r cb init rq st sp :
  sessionPromise st = Some sp →
  requests st !! r = Some rq →
  ∃ st', step (Dispatch self r cb init) st = Some st' ∧
    sameGlobals st st' ∧ createSessions (log st') = createSessions (log st).
Proof.
  intros Hs Hr. unfold step. rewrite Hr. eexists. split; [reflexivity|].
  apply (keepsSession_sendAsync self r cb init st). congruence.
Qed.

(** ** Concurrent dispatches share one negotiation *)

Lemma run_dispatch_cons c calls st st1 :
  step (dispatch c) st = Some st1 →
  run (dispatch <$> c :: calls) st = run (dispatch <$> calls) st1.
Proof. intros H. rewrite fmap_cons. cbn [run]. by rewrite H. Qed.

Lemma sessionCall_kept st st' c : requestsKept st st' → sessionCall st c → sessionCall st' c.
Proof.
  intros Hk (rq & Hr & Hn). destruct (Hk _ _ Hr) as (q & Hq & _ & _ & Hm).
  exists q. split; [done|]. by rewrite Hm.
Qed.


(** ** At most one negotiation in flight *)

#[global] Instance holdsOrDrops_preorder : PreOrder holdsOrDrops.
Proof.
  split.
  - intros st. by repeat split; [left|..].
  - intros a b c ([Hab|Hab] & Hab2 & Hab3) ([Hbc|Hbc] & Hbc2 & Hbc3);
      (split; [|split; congruence]); [left|right|right|right]; congruence.
Qed.

Ltac holds_prim :=
  split; [first [by left | by right]|];
  split; [simpl; by rewrite ?length_alter|];
  first [done | simpl; by rewrite createSessions_snoc].

Lemma holdsOrDrops_runJob j b : respects holdsOrDrops (guarded (runJob j b)).
Proof. unfold runJob, handlerFor, runHandler. respects_auto holds_prim. Qed.

Lemma holdsOrDrops_listeners ls error payload :
  respects holdsOrDrops (guarded (forEach ls (fun f => runListener f error payload))).
Proof. unfold runListener. respects_auto holds_prim. Qed.

Ltac holds_toplevel :=
  match goal with
  | |- holdsOrDrops _ (toplevel ?m ?s) => apply (respects_toplevel holdsOrDrops m s)
  end;
  rapply respects_guarded; [|intros ?];
  try unfold disconnect; try unfold runAbort; respects_auto holds_prim.

(** While a session future is stored, a step keeps it or drops it; it does
    not replace it, build a connector or request a session. *)
Lemma step_in_flight l st st' :
  sessionPromise st ≠ None → step l st = Some st' → holdsOrDrops st st'.
Proof.
  intros Hs. destruct l; simpl; intros Hstep; repeat case_match; simplify_eq.
  - holds_prim.
  - destruct (keepsSession_sendAsync self payload callback init st Hs) as [(H1 & H2 & H3) H4].
    unfold toplevel. split; [left; exact H1|]. split; [by rewrite H3|exact H4].
  - holds_toplevel.
  - etrans; [|apply holdsOrDrops_runJob]. holds_prim.
  - holds_toplevel.
  - holds_prim.
  - apply holdsOrDrops_listeners.
  - etrans; [|holds_toplevel]. holds_prim.
  - holds_toplevel.
  - holds_toplevel.
  - holds_prim.
Qed.

(** Whatever the caller and the environment do, as long as a session
    future stays stored it is the same one, and no second negotiation is
    started. *)
Lemma one_negotiation_in_flight tr st st' sp :
  sessionPromise st = Some sp →
  run tr st = Some st' →
  slotHeld tr st →
  sessionPromise st' = Some sp ∧
  length (connectors st') = length (connectors st) ∧
  createSessions (log st') = createSessions (log st).
Proof.
  revert st. induction tr as [|l tr IH]; simpl; intros st Hs Hrun Hheld.
  - by simplify_eq.
  - destruct (step l st) as [st1|] eqn:Hstep; [|done].
    destruct Hheld as [Hs1 Hheld].
    destruct (step_in_flight l st st1) as ([H1|H1] & H2 & H3); [congruence|done| |done].
    destruct (IH st1) as (H4 & H5 & H6); [congruence|done|done|].
    repeat split; congruence.
Qed.

(** ** Abort *)

(** C8. When the abort callback of the QR-code modal fires, [webconnector]
    and [sessionPromise] are both cleared and [onAbort] is called with the
    pairing URI when the instance has that hook.  A later dispatch that
    needs the session, on any instance, then builds a new connector and
    stores a promise that did not exist at the time of the abort. *)
Theorem abort_resets_negotiation (st : State) (self : WalletConnectProvider) (u : Value) :
  modal st = Some (OnModalAbort self u) →
  ∃ st1,
    step ModalAbort st = Some st1 ∧
    sessionPromise st1 = None ∧
    webconnector st1 = None ∧
    log st1 = log st ++ abortHook self u ∧
    ∀ other r cb init rq,
      requests st1 !! r = Some rq →
      needsSession (method rq) = true →
      ∃ sp st2,
        step (Dispatch other r cb init) st1 = Some st2 ∧
        sessionPromise st2 = Some sp ∧
        (∀ old, old < length (promises st) → sp ≠ old) ∧
        webconnector st2 = Some (length (connectors st)) ∧
        length (connectors st2) = S (length (connectors st)).
Proof.
  intros Hm. unfold step. rewrite Hm.
  assert (Hst1 : ∃ st1, toplevel (runAbort (OnModalAbort self u)) (set_modal None st) = st1 ∧
            sessionPromise st1 = None ∧ webconnector st1 = None ∧
            log st1 = log st ++ abortHook self u ∧
            promises st1 = promises st ∧ connectors st1 = connectors st).
  { unfold runAbort, callHook, abortHook, emit.
    destruct (onAbort (callbacks self)); js_exec; eexists; (split; [reflexivity|]);
      simpl; rewrite ?app_nil_r; by repeat split. }
  destruct Hst1 as (st1 & -> & Hs & Hw & Hl & Hp & Hc).
  exists st1. do 4 (split; [done|]).
  intros other r cb init rq Hr Hn.
  destruct (dispatch_first other r cb init rq st1 Hs Hr Hn)
    as (sp & st2 & Hstep & Hs2 & Hfresh & Hw2 & Hc2 & _).
  exists sp, st2. rewrite Hp in Hfresh. rewrite Hc in Hw2, Hc2.
  repeat split; try done. intros old Hold. lia.
Qed.

(** ** One session for every instance *)

(** C10. [sessionPromise] and [webconnector] are variables of the module,
    not fields of an instance.  A dispatch on instance [a] made while no
    future is stored builds the connector from [a]'s bridge URL and hooks;
    from then on every instance [b] answers [isConnected] from that
    connector, kills that connector's session on [disconnect], and a
    dispatch on [b] reuses the stored future without building a connector
    from its own configuration. *)
Theorem session_shared_across_instances (a b : WalletConnectProvider) :
  (∀ st r cb init rq,
     sessionPromise st = None →
     requests st !! r = Some rq →
     needsSession (method rq) = true →
     ∃ sp st1,
       step (Dispatch a r cb init) st = Some st1 ∧
       sessionPromise st1 = Some sp ∧
       webconnector st1 = Some (length (connectors st)) ∧
       ownedBy a (connectors st1 !! length (connectors st))) ∧
  (∀ st sp k c,
     sessionPromise st = Some sp →
     webconnector st = Some k →
     connectors st !! k = Some c →
     isConnected b st = connected c ∧
     isConnected b st = isConnected a st ∧
     (connected c = true →
      step (Disconnect b) st = Some (set_log (log st ++ [KillSession k]) st)) ∧
     ∀ r cb init rq,
       requests st !! r = Some rq →
       ∃ st',
         step (Dispatch b r cb init) st = Some st' ∧
         sessionPromise st' = Some sp ∧
         webconnector st' = Some k ∧
         connectors st' = connectors st ∧
         createSessions (log st') = createSessions (log st)).
Proof.
  split.
  - intros st r cb init rq Hs Hr Hn.
    destruct (dispatch_first a r cb init rq st Hs Hr Hn)
      as (sp & st1 & Hstep & Hs1 & _ & Hw & _ & _ & Ho).
    by exists sp, st1.
  - intros st sp k c Hs Hw Hc.
    split; [by unfold isConnected; rewrite Hw, Hc|].
    split; [done|].
    split.
    + intros Hcon. unfold step, disconnect, isConnected, emit. js_exec. by destruct st.
    + intros r cb init rq Hr.
      destruct (dispatch_stored b r cb init rq st sp Hs Hr) as (st' & Hstep & (H1 & H2 & H3) & Hl).
      exists st'. repeat split; congruence.
Qed.

(** ** The accounts query *)

Lemma readRequest_eq r rq st : requests st !! r = Some rq → readRequest r st = (Normal rq, st).
Proof. intros H. unfold readRequest. erewrite bind_eq by reflexivity. by rewrite H. Qed.


(** ** The request object is the caller's *)

#[global] Instance sameRequests_preorder : PreOrder sameRequests.
Proof. split; [by intros st | intros a b c Hab Hbc; unfold sameRequests in *; congruence]. Qed.

Ltac same_prim := reflexivity.

Lemma toplevel_throw {A B} (m : M A) (k : A → M B) st e st1 :
  m st = (Throw e, st1) → toplevel (m ≫= k) st = set_log (log st1 ++ [Thrown e]) st1.
Proof.
  intros H. unfold toplevel, exec, guarded, attempt, mbind, M_bind, bind. simpl.
  by rewrite H.
Qed.

Lemma pushChainId_spec r hex rq st :
  requests st !! r = Some rq →
  pushChainId r hex st =
    match pushed hex rq with
    | Normal rq' => (Normal tt, set_requests (<[r := rq']> (requests st)) st)
    | Throw e => (Throw e, st)
    end.
Proof.
  intros Hr. unfold pushChainId, pushed.
  erewrite bind_eq by (by apply readRequest_eq).
  unfold lift, mbind, M_bind, bind, modify, throw.
  destruct (params rq) as [| | | | |[|p0 ps]| |]; try done.
  by destruct p0, hex.
Qed.

(** What line 281 leaves of a request object: the envelope, and the
    parameters with the string of the library behind them. *)
Lemma pushed_Normal hex rq rq' :
  pushed hex rq = Normal rq' →
  ∃ xs encoded,
    params rq = VArr xs ∧ hex = Normal encoded ∧
    rq' = with_params rq (VArr (xs ++ [encoded])).
Proof.
  unfold pushed. destruct (params rq) as [| | | | |[|p0 ps]| |]; try done.
  destruct p0, hex; try done; intros [= <-]; by eexists _, _.
Qed.

Lemma strictEq_true v s : strictEq v s = true → v = VStr s.
Proof.
  destruct v; simpl; try done. intros H. apply String.eqb_eq in H. by subst.
Qed.

Lemma sameRequests_ensureSession self init : respects sameRequests (ensureSession self init).
Proof.
  unfold ensureSession, createWebconnector, newWalletConnect. respects_auto same_prim.
Qed.

Lemma ensureSession_returns self init st :
  ∃ p st1, ensureSession self init st = (Normal p, st1).
Proof.
  destruct (sessionPromise st) as [sp|] eqn:Hs.
  - exists sp, st. by apply ensureSession_stored.
  - destruct (ensureSession_first self init st Hs) as (sp & st1 & He & _). by exists sp, st1.
Qed.

(** C5, as the code has it.  A dispatch changes the caller's request object
    only for [eth_sendTransaction], and then in place: the string that
    [convertNumberToHex] returns for the [chainId] of the first parameter
    is appended to the [params] array of the very object the caller
    passed; when the first parameter cannot be read or the library rejects
    the chain identifier, the object is left as it is and the exception
    leaves [sendAsync].  The [id], [jsonrpc] and [method] of the object
    never change.  What is later forwarded to the pairing transport is
    that same object, read when the reaction runs. *)
Theorem dispatch_mutates_request_in_place self r cb init rq st :
  requests st !! r = Some rq →
  ∃ st',
    step (Dispatch self r cb init) st = Some st' ∧
    requests st' =
      (if strictEq (method rq) "eth_sendTransaction" then
         match pushed (init_hex init) rq with
         | Normal rq' => <[r := rq']> (requests st)
         | Throw _ => requests st
         end
       else requests st) ∧
    (∀ p0 ps chainId encoded,
       strictEq (method rq) "eth_sendTransaction" = true →
       params rq = VArr (p0 :: ps) →
       getProp p0 "chainId" = Normal chainId →
       init_hex init = Normal encoded →
       requests st' = <[r := with_params rq (VArr (p0 :: ps ++ [encoded]))]> (requests st)) ∧
    (∀ p0 ps chainId e,
       strictEq (method rq) "eth_sendTransaction" = true →
       params rq = VArr (p0 :: ps) →
       getProp p0 "chainId" = Normal chainId →
       init_hex init = Throw e →
       requests st' = requests st ∧ ∃ l, log st' = l ++ [Thrown e]) ∧
    (∀ e,
       strictEq (method rq) "eth_sendTransaction" = true →
       pushed (init_hex init) rq = Throw e →
       ∃ l, log st' = l ++ [Thrown e]) ∧
    (∀ q, requests st' !! r = Some q → sameEnvelope rq q) ∧
    ∀ st2 rq2 k v b,
      requests st2 !! r = Some rq2 →
      webconnector st2 = Some k →
      log (exec (runHandler (SendCustom r) v b) st2)
      = log st2 ++ [SendCustomRequest k rq2 (length (promises st2))].
Proof.
  intros Hr.
  assert (Hreq : requests (toplevel (sendAsync self r cb init) st) =
      (if strictEq (method rq) "eth_sendTransaction" then
         match pushed (init_hex init) rq with
         | Normal rq' => <[r := rq']> (requests st)
         | Throw _ => requests st
         end
       else requests st)).
  { unfold sendAsync.
    erewrite toplevel_bind by reflexivity.
    erewrite toplevel_bind by (by apply readRequest_eq).
    destruct (indexOf supportedMethods (method rq) >? -1)%Z eqn:Hn.
    + match goal with |- context [toplevel _ ?s] =>
        pose proof (sameRequests_ensureSession self init s) as He;
        destruct (ensureSession_returns self init s) as (p & st1 & Hens) end.
      unfold sameRequests, exec in He. rewrite Hens in He. simpl in He.
      erewrite toplevel_bind by exact Hens.
      assert (Hr1 : requests st1 !! r = Some rq) by (by rewrite He).
      destruct (indexOf walletconnectMethods (method rq) >? -1)%Z eqn:Hw.
      * destruct (strictEq (method rq) "eth_sendTransaction") eqn:Hs; simpl when.
        -- destruct (pushed (init_hex init) rq) as [rq'|e] eqn:Hpush.
           ++ erewrite toplevel_bind
                by (rewrite (pushChainId_spec r _ rq st1 Hr1), Hpush; reflexivity).
              match goal with |- requests (toplevel ?m ?s) = _ =>
                transitivity (requests s);
                [apply (respects_toplevel sameRequests m s); rapply respects_guarded;
                 [|intros ?]; respects_auto same_prim|] end.
              simpl. by rewrite He.
           ++ erewrite toplevel_throw
                by (rewrite (pushChainId_spec r _ rq st1 Hr1), Hpush; reflexivity).
              simpl. by rewrite He.
        -- erewrite toplevel_bind by reflexivity.
           match goal with |- requests (toplevel ?m ?s) = _ =>
             transitivity (requests s);
             [apply (respects_toplevel sameRequests m s); rapply respects_guarded;
              [|intros ?]; respects_auto same_prim|] end.
           by rewrite He.
      * assert (strictEq (method rq) "eth_sendTransaction" = false) as ->.
        { destruct (strictEq (method rq) "eth_sendTransaction") eqn:Hs; [|done].
          apply strictEq_true in Hs. rewrite Hs in Hw. done. }
        match goal with |- requests (toplevel ?m ?s) = _ =>
          transitivity (requests s);
          [apply (respects_toplevel sameRequests m s); rapply respects_guarded;
           [|intros ?]; respects_auto same_prim|] end.
        by rewrite He.
    + assert (strictEq (method rq) "eth_sendTransaction" = false) as ->.
      { destruct (strictEq (method rq) "eth_sendTransaction") eqn:Hs; [|done].
        apply strictEq_true in Hs. rewrite Hs in Hn. done. }
      match goal with |- requests (toplevel ?m ?s) = _ =>
        transitivity (requests s);
        [apply (respects_toplevel sameRequests m s); rapply respects_guarded;
         [|intros ?]; respects_auto same_prim|] end.
      done. }
  assert (Hlt : r < length (requests st)) by (by eapply lookup_lt_Some).
  unfold step. rewrite Hr. eexists. split; [reflexivity|]. split; [exact Hreq|].
  assert (Hthrown : ∀ e,
            strictEq (method rq) "eth_sendTransaction" = true →
            pushed (init_hex init) rq = Throw e →
            ∃ l, log (toplevel (sendAsync self r cb init) st) = l ++ [Thrown e]);
    [|split; [|split; [|split; [|split]]]].
  - intros e Hs Hpush. apply strictEq_true in Hs. unfold sendAsync.
    erewrite toplevel_bind by reflexivity.
    erewrite toplevel_bind by (by apply readRequest_eq).
    rewrite Hs.
    change (indexOf supportedMethods (VStr "eth_sendTransaction") >? -1)%Z with true.
    change (indexOf walletconnectMethods (VStr "eth_sendTransaction") >? -1)%Z with true.
    change (strictEq (VStr "eth_sendTransaction") "eth_sendTransaction") with true.
    cbv iota. cbn [when].
    match goal with |- context [toplevel _ ?s] =>
      pose proof (sameRequests_ensureSession self init s) as He;
      destruct (ensureSession_returns self init s) as (p & st1 & Hens) end.
    unfold sameRequests, exec in He. rewrite Hens in He. simpl in He.
    erewrite toplevel_bind by exact Hens.
    assert (Hr1 : requests st1 !! r = Some rq) by (by rewrite He).
    erewrite toplevel_throw
      by (rewrite (pushChainId_spec r _ rq st1 Hr1), Hpush; reflexivity).
    simpl. by eexists.
  - intros p0 ps chainId encoded Hs Hps Hc Hh. rewrite Hreq, Hs.
    unfold pushed. rewrite Hps, Hh. by destruct p0.
  - intros p0 ps chainId e Hs Hps Hc Hh.
    assert (Hpush : pushed (init_hex init) rq = Throw e).
    { unfold pushed. rewrite Hps, Hh. by destruct p0. }
    split; [by rewrite Hreq, Hs, Hpush|by apply Hthrown].
  - exact Hthrown.
  - intros q Hq. rewrite Hreq in Hq.
    destruct (strictEq (method rq) "eth_sendTransaction");
      [destruct (pushed (init_hex init) rq) as [rq'|e] eqn:Hpush|].
    + rewrite list_lookup_insert_eq in Hq by done. simplify_eq.
      apply pushed_Normal in Hpush as (xs & encoded & _ & _ & ->). by repeat split.
    + rewrite Hr in Hq. simplify_eq. by repeat split.
    + rewrite Hr in Hq. simplify_eq. by repeat split.
  - intros st2 rq2 k v b Hr2 Hk. unfold exec, runHandler.
    erewrite bind_eq by reflexivity. rewrite Hk.
    erewrite bind_eq by (by apply readRequest_eq).
    reflexivity.
Qed.

(** ** Responses echo the request *)

(** ** Disconnect events *)

(** C7, as the code has it.  The [disconnect] listener throws the error of
    the event: the exception leaves the listener, [onDisconnect] is not
    called and the modal is not closed.  Only an event without an error
    reaches the hook. *)
Theorem disconnect_error_is_thrown (self : WalletConnectProvider) (k : ConnId)
    (error payload : Value) (st : State) :
  listenersFor "disconnect" <$> connectors st !! k = Some [OnDisconnect self] →
  (truthy error = true →
   step (Event k "disconnect" error payload) st
   = Some (set_log (log st ++ [Thrown error]) st)) ∧
  (truthy error = false →
   ∃ st',
     step (Event k "disconnect" error payload) st = Some st' ∧
     log st' = log st ++ disconnectHook self error payload ++
                 (if showQRCode self then [ModalClose] else [])).
Proof.
  intros Hl. destruct (connectors st !! k) as [c|] eqn:Hc; [|done].
  simpl in Hl. injection Hl as Hl. unfold step. rewrite Hc, Hl.
  cbn [forEach].
  unfold runListener, disconnectHook, callHook, modalClose, emit. split; intros Ht; rewrite Ht.
  - reflexivity.
  - destruct (onDisconnect (callbacks self)), (showQRCode self); js_exec;
      eexists; (split; [reflexivity|]); simpl; by rewrite <- ?app_assoc, ?app_nil_r.
Qed.

(** ** Abandoned promises stay pending *)

Section Abandoned.
Context (gone : list PromiseId).

Lemma abandoned_lt st p : abandoned gone st → p ∈ gone → p < length (promises st).
Proof. intros H Hp. destruct (abandoned_pending _ _ H p Hp) as (rs & Hl). by eapply lookup_lt_Some. Qed.

Lemma abandoned_fresh st : abandoned gone st → length (promises st) ∉ gone.
Proof. intros H Hp. apply (abandoned_lt _ _ H) in Hp. lia. Qed.

Lemma keeps_ret {A} (ok : A → Prop) (a : A) : ok a → keepsAbandoned gone ok (ret a).
Proof. intros Hok st H. split; [done|]. intros a' Ha. simpl in Ha. by simplify_eq. Qed.

Lemma keeps_throw {A} (ok : A → Prop) e : keepsAbandoned gone ok (throw e).
Proof. intros st H. by split. Qed.

Lemma keeps_lift {A} (c : Completion A) : keepsAbandoned gone (fun _ => True) (lift c).
Proof. intros st H. by split. Qed.

Lemma keeps_get : keepsAbandoned gone (fun _ => True) get.
Proof. intros st H. by split. Qed.

Lemma keeps_weaken {A} (ok ok' : A → Prop) (m : M A) :
  keepsAbandoned gone ok m → (∀ a, ok a → ok' a) → keepsAbandoned gone ok' m.
Proof. intros Hm Hw st H. destruct (Hm st H) as [H1 H2]. split; [done|]. auto. Qed.

Lemma keeps_bind {A B} (ok1 : A → Prop) (ok2 : B → Prop) (m : M A) (k : A → M B) :
  keepsAbandoned gone ok1 m →
  (∀ a, ok1 a → keepsAbandoned gone ok2 (k a)) →
  keepsAbandoned gone ok2 (m ≫= k).
Proof.
  intros Hm Hk st H. unfold mbind, M_bind, bind.
  destruct (Hm st H) as [H1 H2]. destruct (m st) as [[a|e] st1]; simpl in *.
  - apply Hk; auto.
  - by split.
Qed.

Lemma keeps_attempt {A} (m : M A) (ok : A → Prop) :
  keepsAbandoned gone ok m →
  keepsAbandoned gone (fun c => match c with Normal a => ok a | Throw _ => True end) (attempt m).
Proof.
  intros Hm st H. destruct (Hm st H) as [H1 H2]. split; [done|].
  intros c Hc. unfold attempt in Hc. simpl in Hc. simplify_eq.
  destruct (m st).1; auto.
Qed.

(** A state update that leaves promises, microtasks and connectors alone. *)
Lemma keeps_modify (f : State → State) :
  (∀ st, promises (f st) = promises st) →
  (∀ st, microtasks (f st) = microtasks st) →
  (∀ st, connectors (f st) = connectors st) →
  keepsAbandoned gone (fun _ => True) (modify f).
Proof.
  intros Hp Hm Hc st [H1 H2 H3 H4]. split; [|done]. simpl.
  split; unfold pendingInternal; rewrite ?Hp, ?Hm, ?Hc; done.
Qed.

Lemma keeps_newPromise s :
  keepsAbandoned gone (fun q => q ∉ gone) (newPromise s).
Proof.
  intros st H. split; [|intros a Ha; simpl in Ha; simplify_eq; by apply abandoned_fresh].
  destruct H as [H1 H2 H3 H4]. simpl. split; simpl; try done.
  - intros p Hp. destruct (H1 p Hp) as (rs & Hl). exists rs.
    by apply lookup_app_l_Some.
  - intros q pr Hq Hn. apply lookup_app_Some in Hq as [Hq|[_ Hq]]; [by eapply H3|].
    destruct (q - length (promises st)) as [|[|]]; simpl in Hq; simplify_eq. constructor.
Qed.

Lemma keeps_newExternalPromise :
  keepsAbandoned gone (fun q => q ∉ gone) newExternalPromise.
Proof.
  intros st H. split; [|intros a Ha; simpl in Ha; simplify_eq; by apply abandoned_fresh].
  destruct H as [H1 H2 H3 H4]. simpl. split; simpl; try done.
  - intros p Hp. destruct (H1 p Hp) as (rs & Hl). exists rs.
    by apply lookup_app_l_Some.
  - intros q pr Hq Hn. apply lookup_app_Some in Hq as [Hq|[_ Hq]]; [by eapply H3|].
    destruct (q - length (promises st)) as [|[|]]; simpl in Hq; simplify_eq. constructor.
Qed.

Lemma keeps_settle p o : p ∉ gone → keepsAbandoned gone (fun _ => True) (settle p o).
Proof.
  intros Hp st H. split; [|done]. destruct H as [H1 H2 H3 H4].
  unfold settle, enqueue. unfold mbind, M_bind, bind, get, modify, ret. simpl.
  destruct (promises st !! p) as [[[] rs x]|] eqn:Hl; simpl; try by split.
  split; simpl; try done.
  - intros q Hq. destruct (H1 q Hq) as (rs' & Hl'). exists rs'. simpl.
    rewrite list_lookup_insert_ne; [done|]. intros ->. done.
  - apply Forall_app. split; [done|]. apply Forall_fmap.
    specialize (H3 p _ Hl Hp). simpl in H3. eapply List.Forall_impl; [|exact H3]. done.
  - intros q pr Hq Hn. destruct (decide (p = q)) as [->|Hne].
    + rewrite list_lookup_insert_eq in Hq by (by eapply lookup_lt_Some).
      simplify_eq. constructor.
    + rewrite list_lookup_insert_ne in Hq by done. by eapply H3.
Qed.

Lemma keeps_subscribe p r : reactionOk gone r → keepsAbandoned gone (fun _ => True) (subscribe p r).
Proof.
  intros Hr st H. split; [|done]. destruct H as [H1 H2 H3 H4].
  unfold subscribe, enqueue. unfold mbind, M_bind, bind, get, modify, ret. simpl.
  destruct (promises st !! p) as [[[] rs x]|] eqn:Hl; simpl; try by split.
  - split; simpl; try done.
    + intros q Hq. destruct (H1 q Hq) as (rs' & Hl'). destruct (decide (p = q)) as [->|Hne].
      * rewrite Hl in Hl'. simplify_eq. eexists. simpl.
        by rewrite list_lookup_insert_eq by (by eapply lookup_lt_Some).
      * exists rs'. simpl. by rewrite list_lookup_insert_ne.
    + intros q pr Hq Hn. destruct (decide (p = q)) as [->|Hne].
      * rewrite list_lookup_insert_eq in Hq by (by eapply lookup_lt_Some).
        simplify_eq. simpl. apply Forall_app. split; [by eapply (H3 q _ Hl)|].
        by constructor.
      * rewrite list_lookup_insert_ne in Hq by done. by eapply H3.
  - split; simpl; try done. apply Forall_app. split; [done|]. by constructor.
  - split; simpl; try done. apply Forall_app. split; [done|]. by constructor.
Qed.

Lemma keeps_on k event l : listenerOk gone l → keepsAbandoned gone (fun _ => True) (on k event l).
Proof.
  intros Hl st [H1 H2 H3 H4]. split; [|done]. split; simpl; try done.
  intros k' c Hc. destruct (decide (k = k')) as [->|Hne].
  - rewrite list_lookup_alter_eq in Hc. destruct (connectors st !! k') as [c'|] eqn:Hc'; [|done].
    simpl in Hc. simplify_eq. simpl. apply Forall_app. split; [by eapply H4|].
    by constructor.
  - rewrite list_lookup_alter_ne in Hc by done. by eapply H4.
Qed.

Lemma keeps_connectors (f : list WalletConnect → list WalletConnect) :
  (∀ cs k c, f cs !! k = Some c →
     ∃ c', listeners c = listeners c' ∧ (cs !! k = Some c' ∨ listeners c' = [])) →
  keepsAbandoned gone (fun _ => True) (modify (fun st => set_connectors (f (connectors st)) st)).
Proof.
  intros Hf st [H1 H2 H3 H4]. split; [|done]. split; simpl; try done.
  intros k c Hc. destruct (Hf _ _ _ Hc) as (c' & -> & [Hc'|Hc']); [by eapply H4|].
  rewrite Hc'. constructor.
Qed.
End Abandoned.

#[global] Instance sameReactive_preorder : PreOrder sameReactive.
Proof.
  split; [by intros st | intros a b c (?&?&?) (?&?&?)].
  unfold sameReactive. repeat split; congruence.
Qed.

Ltac reactive_prim := by repeat split.

Lemma keeps_of_respects gone {A} (m : M A) :
  respects sameReactive m → keepsAbandoned gone (fun _ => True) m.
Proof.
  intros Hm st [H1 H2 H3 H4]. split; [|done].
  destruct (Hm st) as (Hp & Hj & Hc). unfold exec in *.
  split; unfold pendingInternal; rewrite ?Hp, ?Hj, ?Hc; done.
Qed.

Ltac keeps_frame :=
  apply keeps_of_respects; unfold pushChainId, disconnect, runAbort;
  respects_auto reactive_prim.

Ltac keeps_ok := first [ done | by repeat split ].

Ltac keeps_known :=
  first
    [ apply keeps_get
    | apply keeps_lift
    | apply keeps_newPromise
    | apply keeps_newExternalPromise
    | apply keeps_settle; keeps_ok
    | apply keeps_subscribe; keeps_ok
    | apply keeps_on; keeps_ok
    | solve [eauto with keeps]
    | solve [keeps_frame]
    | match goal with
      | |- keepsAbandoned _ _ (match ?x with _ => _ end) => destruct x; keeps_known
      end ].

Ltac keeps :=
  repeat match goal with
    | |- keepsAbandoned _ _ (ret _) => apply keeps_ret; keeps_ok
    | |- keepsAbandoned _ _ (throw _) => apply keeps_throw
    | |- keepsAbandoned _ _ (_ ≫= _) =>
        eapply keeps_bind; [ keeps_known | intros ? ?; cbv beta in * ]
    | |- keepsAbandoned _ _ (when ?b _) => destruct b; unfold when
    | |- keepsAbandoned _ _ (match ?x with _ => _ end) => destruct x
    | |- keepsAbandoned _ _ (let _ := _ in _) => cbv zeta
    | |- keepsAbandoned _ _ _ => keeps_known
    end.

Create HintDb keeps discriminated.

Section AbandonedOperations.
Context (gone : list PromiseId).

Lemma keeps_then_ p h :
  handlerOk gone (Some h) → keepsAbandoned gone (fun q => q ∉ gone) (then_ p h).
Proof. intros Hh. unfold then_. keeps. Qed.

Lemma keeps_catch_ p h :
  handlerOk gone (Some h) → keepsAbandoned gone (fun q => q ∉ gone) (catch_ p h).
Proof. intros Hh. unfold catch_. keeps. Qed.

Lemma keeps_adopt q inner : q ∉ gone → keepsAbandoned gone (fun _ => True) (adopt q inner).
Proof. intros Hq. unfold adopt. keeps. Qed.

Lemma keeps_createSession k : keepsAbandoned gone (fun q => q ∉ gone) (createSession k).
Proof. unfold createSession. keeps. Qed.

Lemma keeps_newWalletConnect b init :
  keepsAbandoned gone (fun _ => True) (newWalletConnect b init).
Proof.
  unfold newWalletConnect. eapply keeps_bind; [apply keeps_get|intros st0 _].
  eapply keeps_bind; [|intros ? ?; by apply keeps_ret].
  apply (keeps_connectors gone (fun cs => cs ++ [_])).
  intros cs k c Hc. apply lookup_app_Some in Hc as [Hc|[_ Hc]]; [by eauto|].
  destruct (k - length cs) as [|[|]]; simpl in Hc; simplify_eq. eauto.
Qed.

#[local] Hint Resolve keeps_then_ keeps_catch_ keeps_adopt keeps_createSession
  keeps_newWalletConnect : keeps.
#[local] Hint Extern 1 (handlerOk _ _) => simpl; done : keeps.
#[local] Hint Extern 1 (_ ∉ _) => done : keeps.

Lemma keeps_createWebconnector self init :
  keepsAbandoned gone (fun q => q ∉ gone) (createWebconnector self init).
Proof.
  unfold createWebconnector.
  eapply keeps_bind; [apply keeps_newWalletConnect|intros k _].
  eapply keeps_bind; [keeps_frame|intros _ _].
  eapply (keeps_bind _ (fun q => q ∉ gone)).
  { destruct (negb (init_connected init)); unfold resolve; keeps. }
  intros returned Hr. keeps.
Qed.

Lemma keeps_ensureSession self init :
  keepsAbandoned gone (fun _ => True) (ensureSession self init).
Proof.
  unfold ensureSession. eapply keeps_bind; [apply keeps_get|intros st0 _].
  destruct (sessionPromise st0); [by apply keeps_ret|].
  eapply keeps_bind; [apply keeps_createWebconnector|intros q Hq]. keeps.
Qed.

#[local] Hint Resolve keeps_createWebconnector keeps_ensureSession : keeps.

Lemma keeps_sendAsync self r cb init :
  keepsAbandoned gone (fun _ => True) (guarded (sendAsync self r cb init)).
Proof.
  unfold guarded. eapply keeps_bind; [apply keeps_attempt|intros [a|e] _; keeps].
  unfold sendAsync, promiseResolve. keeps.
Qed.

Lemma keeps_runHandler h arg b :
  handlerOk gone (Some h) →
  keepsAbandoned gone (fun _ => True) (runHandler h arg b).
Proof.
  intros Hh. destruct h; simpl in Hh; unfold runHandler, resolve, reject; keeps.
Qed.

Lemma keeps_runJob j b :
  reactionOk gone (job_reaction j) →
  keepsAbandoned gone (fun _ => True) (guarded (runJob j b)).
Proof.
  intros (Hd & Hf & Hr). unfold guarded.
  eapply keeps_bind; [apply keeps_attempt|intros [a|e] _; keeps].
  unfold runJob, handlerFor.
  destruct (job_arg j);
    [destruct (onFulfilled (job_reaction j)) as [h|] eqn:Hh
    |destruct (onRejected (job_reaction j)) as [h|] eqn:Hh]; cbv zeta.
  all: try (by apply keeps_settle).
  all: (eapply keeps_bind;
        [apply keeps_attempt; by apply keeps_runHandler|intros [[v'|p']|e'] _]).
  all: first [by apply keeps_settle | by apply keeps_adopt].
Qed.

Lemma keeps_runListener l error payload :
  listenerOk gone l →
  keepsAbandoned gone (fun _ => True) (runListener l error payload).
Proof.
  intros Hl. destruct l; simpl in Hl; unfold runListener, resolve, reject; keeps.
Qed.

Lemma keeps_listeners ls error payload :
  Forall (listenerOk gone) ls →
  keepsAbandoned gone (fun _ => True)
    (guarded (forEach ls (fun f => runListener f error payload))).
Proof.
  intros Hls. unfold guarded.
  eapply keeps_bind;
    [apply (keeps_attempt gone _ (fun _ => True))|intros [a|e] _; keeps].
  induction Hls as [|l ls Hl Hls IH]; simpl; [by apply keeps_ret|].
  eapply keeps_bind; [by apply keeps_runListener|intros _ _; exact IH].
Qed.
End AbandonedOperations.

Lemma abandoned_toplevel gone {A} (ok : unit → Prop) (m : M A) st :
  keepsAbandoned gone ok (guarded m) → abandoned gone st → abandoned gone (toplevel m st).
Proof. intros Hm H. by apply Hm. Qed.

Lemma abandoned_frame gone st st' :
  promises st' = promises st →
  microtasks st' = microtasks st →
  connectors st' = connectors st →
  abandoned gone st → abandoned gone st'.
Proof.
  intros Hp Hj Hc [H1 H2 H3 H4].
  split; unfold pendingInternal; rewrite ?Hp, ?Hj, ?Hc; done.
Qed.

Ltac abandoned_toplevel_frame :=
  eapply abandoned_toplevel; [|eassumption];
  apply keeps_of_respects; rapply respects_guarded; [|intros ?];
  try unfold disconnect; try unfold runAbort; respects_auto reactive_prim.

(** No step of the caller or of the environment settles an abandoned
    promise or makes anything target it. *)
Lemma abandoned_step gone l st st' :
  abandoned gone st → step l st = Some st' → abandoned gone st'.
Proof.
  intros H. destruct l; simpl; intros Hs; repeat case_match; simplify_eq.
  - by eapply abandoned_frame; [..|exact H].
  - eapply abandoned_toplevel; [apply keeps_sendAsync|done].
  - abandoned_toplevel_frame.
  - destruct H as [H1 H2 H3 H4].
    match goal with Hm : microtasks st = _ |- _ => rewrite Hm in H2 end.
    inversion_clear H2 as [|? ? Hj H2'].
    eapply abandoned_toplevel; [by apply keeps_runJob|].
    by split.
  - eapply abandoned_toplevel; [|exact H].
    unfold guarded. eapply keeps_bind; [apply keeps_attempt|intros [?|?] _; keeps].
    apply keeps_settle. intros Hp.
    destruct (abandoned_pending _ _ H _ Hp) as (rs & Hl). simplify_eq.
  - match goal with |- abandoned _ (set_connectors (alter ?g ?k _) _) =>
      pose proof (keeps_connectors gone (alter g k)) as Hk end.
    apply Hk; [|done].
    intros cs k' c' Hc. destruct (decide (k = k')) as [->|Hne].
    + rewrite list_lookup_alter_eq in Hc.
      destruct (cs !! k') as [c0|] eqn:Hc0; [|done].
      simpl in Hc. simplify_eq. exists c0. split; [done|by left].
    + rewrite list_lookup_alter_ne in Hc by done. exists c'. split; [done|by left].
  - eapply abandoned_toplevel; [apply keeps_listeners|done].
    match goal with Hc : connectors st !! _ = Some ?c |- _ =>
      pose proof (abandoned_listeners _ _ H _ _ Hc) as Hl end.
    unfold listenersFor. apply Forall_fmap. apply Forall_forall.
    intros el Hel. apply list_elem_of_In, list_elem_of_filter in Hel as [_ Hel].
    eapply Forall_forall in Hl; [exact Hl|by apply list_elem_of_In].
  - eapply abandoned_toplevel with (st := set_modal None st);
      [|by eapply abandoned_frame; [..|exact H]].
    apply keeps_of_respects; rapply respects_guarded; [|intros ?];
      try unfold runAbort; respects_auto reactive_prim.
  - abandoned_toplevel_frame.
  - abandoned_toplevel_frame.
  - by eapply abandoned_frame; [..|exact H].
Qed.

Lemma abandoned_run gone tr st st' :
  abandoned gone st → run tr st = Some st' → abandoned gone st'.
Proof.
  revert st. induction tr as [|l tr IH]; simpl; intros st H Hr; [by simplify_eq|].
  destruct (step l st) as [st1|] eqn:Hs; [|done].
  eapply IH; [|done]. by eapply abandoned_step.
Qed.

Ltac decide_it := apply (bool_decide_unpack _); vm_compute; exact I.

(** After the failed negotiation nothing targets the promises the caller
    waits on. *)
Lemma abandoned_after_failure : abandoned leftBehind (after failedNegotiation).
Proof.
  split.
  - intros p Hp. unfold leftBehind in Hp.
    repeat (apply elem_of_cons in Hp as [->|Hp]); [..|by apply elem_of_nil in Hp];
      eexists; vm_compute; reflexivity.
  - vm_compute. constructor.
  - intros q pr Hq Hn.
    do 9 (destruct q as [|q];
          [vm_compute in Hq; simplify_eq;
           first [ by constructor | exfalso; apply Hn; decide_it ]|]).
    vm_compute in Hq. done.
  - intros k c Hc. destruct k as [|k]; [|vm_compute in Hc; done].
    vm_compute in Hc. simplify_eq.
    repeat constructor; simpl; decide_it.
Qed.

(** ** A negotiation that fails *)

(** C4 on the code.  The reaction to a failed [createSession] (lines
    207-210) clears the two globals and does nothing else: it settles no
    promise and calls nothing.  So when the pairing transport rejects
    [createSession] while an [eth_accounts] call awaits the negotiation
    (promise 6), both globals are cleared but the awaited promise stays
    pending with no microtask left to run, and the caller's callback has
    not been called.  Nothing that happens later changes this: whatever
    the caller and the environment do from there, the promise the caller
    awaits and the two derived from it by [sendAsync] are pending in every
    state that is reached. *)
Theorem failed_negotiation_leaves_callers_pending :
  (∀ st e b,
     runHandler CreateSessionCatch e b st
     = (Normal (RetValue VUndefined), set_sessionPromise None (set_webconnector None st))) ∧
  sessionPromise (after negotiating) = Some 6 ∧
  ∃ st,
    run failedNegotiation initial = Some st ∧
    sessionPromise st = None ∧
    webconnector st = None ∧
    pstate <$> promises st !! 6 = Some Pending ∧
    microtasks st = [] ∧
    log st = [CreateSession 0 3] ∧
    ∀ tr st', run tr st = Some st' →
      ∀ p, p ∈ [6; 7; 8] → pstate <$> promises st' !! p = Some Pending.
Proof.
  split; [reflexivity|]. split; [reflexivity|].
  exists (after failedNegotiation). split; [vm_compute; reflexivity|].
  do 5 (split; [by vm_compute|]).
  intros tr st' Hr p Hp.
  pose proof (abandoned_run _ _ _ _ abandoned_after_failure Hr) as Ha.
  destruct (abandoned_pending _ _ Ha p) as (rs & Hl).
  - unfold leftBehind. apply elem_of_cons. by right.
  - by rewrite Hl.
Qed.

(** ** The timeout of the HTTP path *)

(** No request of the provider ever has a timeout, so the transport never
    delivers a timeout event. *)
Lemma timeout_never_fires tr st st' :
  noTimeoutSet st → run tr st = Some st' → noTimeoutSet st' ∧ ∀ x, XhrTimeout x ∉ tr.
Proof. apply timeoutsOff_run. Qed.

(** C9 on the code: the instance is configured with [timeout = 1000], the
    request is sent at time 0 and the transport stays silent for 101
    seconds.  The request's own [timeout] attribute is still 0, so no
    timeout event exists for it and the callback has not been called. *)
Theorem configured_timeout_is_not_applied :
  timeout hooked = 1000%Z ∧
  ∃ st x,
    run silentTransport initial = Some st ∧
    xhrs st !! 0 = Some x ∧
    xhr_timeout x = 0%Z ∧
    xhr_sentAt x = Some 0%Z ∧
    xhr_ontimeout x = Some (OnTimeout hooked 7) ∧
    now st = 101000%Z ∧
    step (XhrTimeout 0) st = None ∧
    log st = [XhrSend 0 blockRequest].
Proof.
  split; [reflexivity|]. eexists _, _. split; [vm_compute; reflexivity|].
  split; [vm_compute; reflexivity|]. by vm_compute.
Qed.

(** ** Where the code departs from the specification *)

(** C2 fails: with a negotiation in flight (its future, promise 6, is
    pending), a plain relay is sent to the HTTP transport after one
    microtask. *)
Lemma plain_relay_overtakes_negotiation :
  ∃ st,
    run relayDuringNegotiation initial = Some st ∧
    sessionPromise st = Some 6 ∧
    pstate <$> promises st !! 6 = Some Pending ∧
    log st = [CreateSession 0 3; XhrSend 0 blockRequest].
Proof. eexists. split; [vm_compute; reflexivity|]. by vm_compute. Qed.

(** C3 fails: [eth_accounts] is dispatched with no session, the wallet
    refuses, and the callback is called with that error. *)
Lemma accounts_query_can_fail :
  sessionPromise initial = None ∧
  webconnector initial = None ∧
  ∃ st,
    run refusedNegotiation initial = Some st ∧
    log st = [CreateSession 0 3; Hook 2 [VStr "wc:1"]; ModalOpen (VStr "wc:1");
              Callback 7 refused (response accountsRequest VUndefined)].
Proof.
  split; [done|]. split; [done|]. eexists. split; [vm_compute; reflexivity|].
  by vm_compute.
Qed.

(** C5 fails: after the dispatch the caller's own request object has one
    more parameter. *)
Lemma caller_request_is_mutated :
  ∃ st,
    run transaction initial = Some st ∧
    requests st !! 0 =
      Some (with_params txRequest (VArr [VObj [("chainId", VNum 1)]; VStr "0x01"])) ∧
    requests st !! 0 ≠ Some txRequest.
Proof. eexists. split; [vm_compute; reflexivity|]. by vm_compute. Qed.

(** C7 fails: with the session established, a [disconnect] event that
    carries an error makes the listener throw; no hook is called. *)
Lemma disconnect_error_escapes :
  ∃ st st',
    run established initial = Some st ∧
    isConnected hooked st = true ∧
    step (Event 0 "disconnect" bridgeDown VNull) st = Some st' ∧
    log st' = log st ++ [Thrown bridgeDown].
Proof.
  eexists _, _. split; [vm_compute; reflexivity|]. split; [by vm_compute|].
  split; [vm_compute; reflexivity|]. by vm_compute.
Qed.

(** ** The theorems at concrete inputs *)

Lemma plain_relay_never_waits_witness :
  ∃ st1,
    step (Dispatch hooked 1 8 fresh) (after (negotiating ++ [NewRequest blockRequest]))
    = Some st1 ∧
    log st1 = log (after (negotiating ++ [NewRequest blockRequest])).
Proof.
  destruct (plain_relay_never_waits hooked 1 8 fresh blockRequest
              (after (negotiating ++ [NewRequest blockRequest])))
    as (st1 & Hstep & _ & Hlog & _).
  - reflexivity.
  - reflexivity.
  - exists st1. split; [exact Hstep|exact Hlog].
Defined.

Lemma dispatch_mutates_request_in_place_witness :
  ∃ st',
    step (Dispatch hooked 0 9 fresh) (after [NewRequest txRequest]) = Some st' ∧
    requests st' = [with_params txRequest (VArr [VObj [("chainId", VNum 1)]; VStr "0x01"])].
Proof.
  destruct (dispatch_mutates_request_in_place hooked 0 9 fresh txRequest
              (after [NewRequest txRequest]))
    as (st' & Hstep & Hreq & _).
  - reflexivity.
  - exists st'. split; [exact Hstep|exact Hreq].
Defined.

Lemma disconnect_error_is_thrown_witness :
  step (Event 0 "disconnect" bridgeDown VNull) (after established)
  = Some (set_log (log (after established) ++ [Thrown bridgeDown]) (after established)).
Proof.
  apply (disconnect_error_is_thrown hooked 0 bridgeDown VNull (after established)).
  - reflexivity.
  - reflexivity.
Defined.

Lemma abort_resets_negotiation_witness :
  ∃ st1,
    step ModalAbort (after paired) = Some st1 ∧
    sessionPromise st1 = None ∧
    webconnector st1 = None ∧
    log st1 = log (after paired) ++ [Hook 3 [VStr "wc:1"]].
Proof.
  destruct (abort_resets_negotiation (after paired) hooked (VStr "wc:1"))
    as (st1 & Hstep & Hs & Hw & Hl & _).
  - reflexivity.
  - exists st1. repeat split; assumption.
Defined.

Lemma session_shared_across_instances_witness :
  isConnected second (after established) = true ∧
  ∃ st',
    step (Dispatch second 0 8 fresh) (after established) = Some st' ∧
    connectors st' = connectors (after established).
Proof.
  destruct (session_shared_across_instances hooked second) as [_ Hshared].
  destruct (Hshared (after established) 6 0
              {| bridge := "https://bridge.walletconnect.org"; connected := true;
                 session := VObj [("accounts", wallet)]; uri := VStr "wc:1";
                 listeners := [("connect", OnConnect hooked 1);
                               ("disconnect", OnDisconnect hooked)] |})
    as (Hcon & _ & _ & Hdisp); [reflexivity..|].
  split; [exact Hcon|].
  destruct (Hdisp 0 8 fresh accountsRequest) as (st' & Hstep & _ & _ & Hc & _); [reflexivity|].
  exists st'. split; assumption.
Defined.

(** * Further properties of the code *)

(** ** The HTTP transport *)

Lemma alter_last {A} (f : A → A) (l : list A) (x : A) :
  alter f (length l) (l ++ [x]) = l ++ [f x].
Proof. induction l as [|a l IH]; simpl; [done|]. by rewrite <- IH. Qed.

Lemma updateXhr_last f l x st :
  updateXhr (length l) f (set_xhrs (l ++ [x]) st) = (Normal tt, set_xhrs (l ++ [f x]) st).
Proof. unfold updateXhr, modify. simpl. by rewrite alter_last. Qed.

(** The request after the instance's own headers have been set on it. *)
Lemma forEach_headers hs l x st :
  ∃ y,
    forEach hs (fun header =>
      updateXhr (length l) (xhrSetRequestHeader (name header) (Literal (value header))))
      (set_xhrs (l ++ [x]) st)
    = (Normal tt, set_xhrs (l ++ [y]) st) ∧
    xhr_headers y = xhr_headers x ++ ((fun h => (name h, Literal (value h))) <$> hs) ∧
    xhr_url y = xhr_url x ∧ xhr_async y = xhr_async x ∧
    xhr_readyState y = xhr_readyState x ∧ xhr_timeout y = xhr_timeout x ∧
    xhr_sentAt y = xhr_sentAt x ∧ xhr_responseText y = xhr_responseText x ∧
    xhr_onreadystatechange y = xhr_onreadystatechange x ∧
    xhr_ontimeout y = xhr_ontimeout x.
Proof.
  revert x. induction hs as [|h hs IH]; intros x; simpl.
  - exists x. rewrite app_nil_r. by repeat split.
  - erewrite bind_eq by apply updateXhr_last.
    destruct (IH (xhrSetRequestHeader (name h) (Literal (value h)) x))
      as (y & -> & Hh & ? & ? & ? & ? & ? & ? & ? & ?).
    exists y. split; [done|]. simpl in *. rewrite Hh, <- app_assoc. by repeat split.
Qed.

Lemma nonEmpty_Some s x : nonEmpty s = Some x ↔ s = Some x ∧ x ≠ EmptyString.
Proof.
  unfold nonEmpty. destruct s as [y|]; [|by split; [|intros []]].
  destruct (String.eqb_spec y EmptyString) as [->|Hne].
  - split; [done|]. intros [? ?]. by simplify_eq.
  - split; [by intros ?; simplify_eq|]. by intros [? ?].
Qed.

Lemma nonEmpty_None s : nonEmpty s = None ↔ s = None ∨ s = Some EmptyString.
Proof.
  unfold nonEmpty. destruct s as [y|]; [|by split; [left|]].
  destruct (String.eqb_spec y EmptyString) as [->|Hne].
  - split; [by right|done].
  - split; [done|]. intros [?|?]; by simplify_eq.
Qed.

(** The request [prepareRequest] builds, field by field. *)
Lemma prepareRequest_request (self : WalletConnectProvider) (isAsync : bool) (st : State) :
  ∃ x,
    prepareRequest self isAsync st
    = (Normal (length (xhrs st)), set_xhrs (xhrs st ++ [x]) st) ∧
    xhr_url x = host self ∧ xhr_async x = isAsync ∧ xhr_readyState x = 1%Z ∧
    xhr_timeout x = 0%Z ∧ xhr_sentAt x = None ∧ xhr_responseText x = emptyBody ∧
    xhr_onreadystatechange x = None ∧ xhr_ontimeout x = None ∧
    xhr_headers x =
      match nonEmpty (user self), nonEmpty (password self) with
      | Some u, Some p => [("Authorization", Basic u p)]
      | _, _ => []
      end ++
      ("Content-Type", Literal "application/json") ::
        ((fun h => (name h, Literal (value h))) <$> default [] (headers self)).
Proof.
  unfold prepareRequest, newXMLHttpRequest.
  erewrite bind_eq by (erewrite bind_eq by reflexivity; reflexivity).
  set (x0 := {| xhr_url := EmptyString; xhr_async := true; xhr_headers := [];
                xhr_timeout := 0; xhr_readyState := 0; xhr_responseText := emptyBody;
                xhr_onreadystatechange := None; xhr_ontimeout := None;
                xhr_sentAt := None |}).
  set (auth := match nonEmpty (user self), nonEmpty (password self) with
               | Some u, Some p => [("Authorization", Basic u p)]
               | _, _ => []
               end).
  assert (Hauth :
    (match nonEmpty (user self), nonEmpty (password self) with
     | Some u, Some p =>
         updateXhr (length (xhrs st)) (xhrSetRequestHeader "Authorization" (Basic u p))
     | _, _ => ret tt
     end) (set_xhrs (xhrs st ++ [xhrOpen (host self) isAsync x0]) st)
    = (Normal tt,
       set_xhrs (xhrs st ++
         [{| xhr_url := host self; xhr_async := isAsync; xhr_headers := auth;
             xhr_timeout := 0; xhr_readyState := 1; xhr_responseText := emptyBody;
             xhr_onreadystatechange := None; xhr_ontimeout := None;
             xhr_sentAt := None |}]) st)).
  { subst auth. destruct (nonEmpty (user self)) as [u|], (nonEmpty (password self)) as [p|];
      first [ by rewrite updateXhr_last | by destruct st ]. }
  erewrite bind_eq by apply updateXhr_last.
  erewrite bind_eq by exact Hauth.
  erewrite bind_eq by apply updateXhr_last.
  destruct (headers self) as [hs|]; simpl default.
  - match goal with |- context [(_ ≫= _) (set_xhrs (_ ++ [?y]) st)] =>
      destruct (forEach_headers hs (xhrs st) y st)
        as (z & Hz & Hh & ? & ? & ? & ? & ? & ? & ? & ?) end.
    erewrite bind_eq by exact Hz.
    exists z. split; [reflexivity|]. simpl in *.
    repeat split; try done. rewrite Hh. by rewrite <- app_assoc.
  - erewrite bind_eq by reflexivity.
    eexists. split; [reflexivity|]. simpl. by repeat split.
Qed.

(** [prepareRequest] (lines 90-109) creates one XMLHttpRequest and leaves
    the others alone.  The new request is opened on the instance's host in
    the mode asked for; it carries an [Authorization] header exactly when
    the instance has both a user and a password that are not empty, then
    [Content-Type: application/json], then the instance's own headers in
    their order.  Its [timeout] attribute is not set and it has no handler. *)
Theorem prepareRequest_builds_request (self : WalletConnectProvider) (isAsync : bool)
    (st : State) :
  ∃ x auth,
    prepareRequest self isAsync st
    = (Normal (length (xhrs st)), set_xhrs (xhrs st ++ [x]) st) ∧
    xhr_url x = host self ∧ xhr_async x = isAsync ∧ xhr_readyState x = 1%Z ∧
    xhr_timeout x = 0%Z ∧ xhr_sentAt x = None ∧ xhr_responseText x = emptyBody ∧
    xhr_onreadystatechange x = None ∧ xhr_ontimeout x = None ∧
    xhr_headers x =
      auth ++ ("Content-Type", Literal "application/json") ::
        ((fun h => (name h, Literal (value h))) <$> default [] (headers self)) ∧
    (∀ u p, user self = Some u → password self = Some p →
            u ≠ EmptyString → p ≠ EmptyString →
            auth = [("Authorization", Basic u p)]) ∧
    (user self = None ∨ user self = Some EmptyString ∨
     password self = None ∨ password self = Some EmptyString → auth = []).
Proof.
  destruct (prepareRequest_request self isAsync st)
    as (x & Hp & Hu & Ha & Hr & Ht & Hs & Hb & Ho & Hto & Hh).
  eexists x, _. split; [exact Hp|]. do 8 (split; [assumption|]).
  split; [exact Hh|]. split.
  - intros u p Hu' Hp' Hne Hne'.
    assert (nonEmpty (user self) = Some u) as -> by (by apply nonEmpty_Some).
    by assert (nonEmpty (password self) = Some p) as -> by (by apply nonEmpty_Some).
  - intros Hnone.
    destruct (nonEmpty (user self)) as [u|] eqn:Hu'; [|done].
    destruct (nonEmpty (password self)) as [p|] eqn:Hp'; [|done].
    apply nonEmpty_Some in Hu' as [Hu' ?]. apply nonEmpty_Some in Hp' as [Hp' ?].
    destruct Hnone as [?|[?|[?|?]]]; congruence.
Qed.

(** What [_sendAsync] leaves behind when [send] goes through: the request
    is with the transport, and its two handlers are the closures over the
    caller's callback. *)
Lemma _sendAsync_sent self r cb rq st :
  requests st !! r = Some rq →
  ∃ x,
    _sendAsync self r cb false st
    = (Normal tt,
       set_log (log st ++ [XhrSend (length (xhrs st)) rq]) (set_xhrs (xhrs st ++ [x]) st)) ∧
    xhr_onreadystatechange x = Some (OnReadyStateChange cb) ∧
    xhr_ontimeout x = Some (OnTimeout self cb) ∧
    xhr_sentAt x = Some (now st) ∧ xhr_timeout x = 0%Z.
Proof.
  intros Hr. unfold _sendAsync.
  destruct (prepareRequest_request self true st)
    as (x & Hp & _ & _ & _ & Ht & _).
  erewrite bind_eq by exact Hp.
  erewrite bind_eq by apply updateXhr_last.
  unfold try_catch, xhrSend.
  erewrite bind_eq.
  2:{ unfold attempt.
      erewrite bind_eq by (by apply readRequest_eq).
      erewrite bind_eq by reflexivity.
      cbn [now]. erewrite bind_eq by apply updateXhr_last.
      reflexivity. }
  eexists. split; [reflexivity|]. by repeat split.
Qed.

(** And when [send] throws: the callback is called at once. *)
Lemma _sendAsync_refused self r cb st :
  ∃ x,
    _sendAsync self r cb true st
    = (Normal tt,
       set_log (log st ++
                  [Callback cb (VErr "Invalid connection" (VStr (host self))) VUndefined])
         (set_xhrs (xhrs st ++ [x]) st)) ∧
    xhr_sentAt x = None.
Proof.
  unfold _sendAsync.
  destruct (prepareRequest_request self true st)
    as (x & Hp & _ & _ & _ & _ & Hs & _).
  erewrite bind_eq by exact Hp.
  erewrite bind_eq by apply updateXhr_last.
  unfold try_catch, xhrSend, readRequest.
  exists (xhrSetHandlers (Some (OnReadyStateChange cb)) (Some (OnTimeout self cb)) x).
  split; [|simpl; exact Hs].
  unfold attempt, mbind, M_bind, bind, get, ret, throw, emit, modify. simpl.
  by destruct (requests st !! r).
Qed.

(** A dispatch of a plain relay queues its reaction and does nothing else. *)
Lemma plain_dispatch_queued self r cb init rq st :
  requests st !! r = Some rq →
  needsSession (method rq) = false →
  ∃ st1,
    step (Dispatch self r cb init) st = Some st1 ∧
    microtasks st1 = microtasks st ++ [plainJob self r cb (S (length (promises st)))] ∧
    log st1 = log st ∧ xhrs st1 = xhrs st ∧ requests st1 = requests st ∧
    now st1 = now st ∧ sameGlobals st st1.
Proof.
  intros Hr Hplain. unfold needsSession in Hplain.
  unfold step. rewrite Hr.
  unfold sendAsync, promiseResolve, readRequest, then_, catch_, newPromise, subscribe, enqueue.
  js_exec.
  eexists. split; [reflexivity|]. js_cbn.
  split; [unfold plainJob; len; by rewrite ?Nat.add_1_r|]. by repeat split.
Qed.

(** The reaction of a plain relay hands the request to the transport. *)
Lemma plain_job_sends self r cb q rq js st :
  microtasks st = plainJob self r cb q :: js →
  requests st !! r = Some rq →
  ∃ st2 x,
    step (Microtask false) st = Some st2 ∧
    log st2 = log st ++ [XhrSend (length (xhrs st)) rq] ∧
    xhrs st2 = xhrs st ++ [x] ∧
    xhr_onreadystatechange x = Some (OnReadyStateChange cb) ∧
    xhr_ontimeout x = Some (OnTimeout self cb) ∧
    xhr_sentAt x = Some (now st) ∧ xhr_timeout x = 0%Z ∧
    sameGlobals st st2 ∧ requests st2 = requests st ∧ now st2 = now st.
Proof.
  intros Hq Hr. unfold step. rewrite Hq.
  unfold runJob, handlerFor, runHandler, plainJob, settle, enqueue. js_unfold. js_cbn.
  match goal with |- context [_sendAsync self r cb false ?s] =>
    destruct (_sendAsync_sent self r cb rq s Hr) as (x & -> & ? & ? & ? & ?) end.
  js_exec; (eexists _, x; split; [reflexivity|]; simpl; by repeat split).
Qed.

(** The same when [request.send] throws: the callback gets the error. *)
Lemma plain_job_refused self r cb q js st :
  microtasks st = plainJob self r cb q :: js →
  ∃ st2 x,
    step (Microtask true) st = Some st2 ∧
    log st2 = log st ++
      [Callback cb (VErr "Invalid connection" (VStr (host self))) VUndefined] ∧
    xhrs st2 = xhrs st ++ [x] ∧
    xhr_sentAt x = None ∧
    sameGlobals st st2 ∧ requests st2 = requests st.
Proof.
  intros Hq. unfold step. rewrite Hq.
  unfold runJob, handlerFor, runHandler, plainJob, settle, enqueue. js_unfold. js_cbn.
  match goal with |- context [_sendAsync self r cb true ?s] =>
    destruct (_sendAsync_refused self r cb s) as (x & -> & Hx) end.
  js_exec; (eexists _, x; split; [reflexivity|]; simpl; by repeat split).
Qed.

(** The readystatechange handler of lines 237-249 on a request of the
    provider. *)
Lemma readyState_delivered x r cb t rs body st :
  xhrs st !! x = Some r →
  xhr_sentAt r = Some t →
  xhr_onreadystatechange r = Some (OnReadyStateChange cb) →
  xhr_timeout r = 0%Z →
  step (XhrReadyState x rs body) st
  = Some (set_log
            (log st ++
               (if (rs =? 4)%Z then
                  match json body with
                  | Some result => [Callback cb VNull result]
                  | None =>
                      [Callback cb (VErr "Invalid response" (VStr (text body)))
                         (VStr (text body))]
                  end
                else []))
            (set_xhrs (alter (xhrProgress rs body) x (xhrs st)) st)).
Proof.
  intros Hx Ht Hh Hto. unfold step. rewrite Hx, Ht, Hh. cbn [fire].
  unfold toplevel, exec, guarded, updateXhr, onreadystatechange, emit.
  unfold attempt, mbind, M_bind, bind, get, ret, modify. cbn -[alter lookup].
  rewrite list_lookup_alter_eq, Hx. cbn -[alter lookup]. rewrite Hto.
  destruct (rs =? 4)%Z; cbn -[alter lookup].
  - by destruct (json body).
  - by rewrite app_nil_r; destruct st.
Qed.

Lemma bind_throw {A B} (m : M A) (k : A → M B) st e st1 :
  m st = (Throw e, st1) → (m ≫= k) st = (Throw e, st1).
Proof. intros H. unfold mbind, M_bind, bind. by rewrite H. Qed.

Lemma run_app tr1 tr2 st : run (tr1 ++ tr2) st = run tr1 st ≫= run tr2.
Proof.
  revert st. induction tr1 as [|l tr1 IH]; intros st; simpl; [done|].
  destruct (step l st); [apply IH | done].
Qed.

(** Ready states before the last one call nothing. *)
Lemma progress_ignored x r cb t (progress : list (Z * Body)) st :
  xhrs st !! x = Some r →
  xhr_sentAt r = Some t →
  xhr_onreadystatechange r = Some (OnReadyStateChange cb) →
  xhr_timeout r = 0%Z →
  Forall (fun e => e.1 ≠ 4%Z) progress →
  ∃ st' r',
    run ((fun e => XhrReadyState x e.1 e.2) <$> progress) st = Some st' ∧
    log st' = log st ∧
    xhrs st' !! x = Some r' ∧
    xhr_sentAt r' = Some t ∧
    xhr_onreadystatechange r' = Some (OnReadyStateChange cb) ∧
    xhr_timeout r' = 0%Z.
Proof.
  intros Hx Ht Hh Hto Hall. revert st r Hx Ht Hh Hto.
  induction Hall as [|[rs body] progress Hrs Hall IH]; intros st r Hx Ht Hh Hto.
  - exists st, r. by repeat split.
  - rewrite fmap_cons. cbn [run fst snd].
    rewrite (readyState_delivered x r cb t rs body st Hx Ht Hh Hto).
    simpl in Hrs. apply Z.eqb_neq in Hrs. rewrite Hrs, app_nil_r.
    edestruct IH as (st' & r' & Hrun & Hlog & Hr'); [| | | |exists st', r'; split; [exact Hrun|]].
    + simpl. rewrite list_lookup_alter_eq, Hx. reflexivity.
    + exact Ht.
    + exact Hh.
    + exact Hto.
    + by rewrite Hlog.
Qed.

(** A plain relay from dispatch to answer (lines 306-310 and 235-249).
    The reaction queued by the dispatch hands the request object to the
    HTTP transport; the ready states before the last call nothing; at ready
    state 4 the callback is called once, with no error and the parsed
    body, or, when the body is not JSON, with an error and the raw text as
    the result. *)
Theorem plain_relay_answers (self : WalletConnectProvider) (r : Ref) (cb : Fn)
    (init : ConnInit) (rq : Payload) (st : State) (progress : list (Z * Body)) (body : Body) :
  requests st !! r = Some rq →
  needsSession (method rq) = false →
  microtasks st = [] →
  Forall (fun e => e.1 ≠ 4%Z) progress →
  ∃ st',
    run ([Dispatch self r cb init; Microtask false] ++
         ((fun e => XhrReadyState (length (xhrs st)) e.1 e.2) <$> progress) ++
         [XhrReadyState (length (xhrs st)) 4 body]) st = Some st' ∧
    log st' =
      log st ++
        [XhrSend (length (xhrs st)) rq;
         match json body with
         | Some result => Callback cb VNull result
         | None =>
             Callback cb (VErr "Invalid response" (VStr (text body))) (VStr (text body))
         end] ∧
    sameGlobals st st'.
Proof.
  intros Hr Hplain Hq Hall.
  destruct (plain_dispatch_queued self r cb init rq st Hr Hplain)
    as (st1 & Hstep1 & Hq1 & Hl1 & Hx1 & Hr1 & Hn1 & Hg1).
  rewrite Hq, app_nil_l in Hq1.
  destruct (plain_job_sends self r cb _ rq [] st1 Hq1)
    as (st2 & x & Hstep2 & Hl2 & Hx2 & Hh & _ & Ht & Hto & Hg2 & _); [by rewrite Hr1|].
  rewrite Hx1 in Hx2, Hl2. rewrite Hn1 in Ht. rewrite Hl1 in Hl2.
  assert (Hlook : xhrs st2 !! length (xhrs st) = Some x).
  { rewrite Hx2. by apply lookup_snoc_at. }
  destruct (progress_ignored _ x cb (now st) progress st2 Hlook Ht Hh Hto Hall)
    as (st3 & x' & Hrun3 & Hl3 & Hx3 & Ht3 & Hh3 & Hto3).
  eexists. split.
  - cbn [app run]. rewrite Hstep1, Hstep2. rewrite run_app, Hrun3. cbn [mbind option_bind run].
    rewrite (readyState_delivered _ x' cb (now st) 4 body st3 Hx3 Ht3 Hh3 Hto3).
    reflexivity.
  - split.
    + cbn [log set_log set_xhrs]. rewrite Hl3, Hl2, <- app_assoc.
      by destruct (json body).
    + assert (Hg3 : sameGlobals st2 st3).
      { clear -Hrun3. revert st2 Hrun3.
        induction progress as [|e progress IH]; intros st2 Hrun3; simpl in Hrun3.
        - by simplify_eq.
        - repeat case_match; simplify_eq. etrans; [|by eapply IH].
          apply (respects_toplevel sameGlobals). rapply respects_guarded; [|intros ?];
            respects_auto ltac:(by repeat split). }
      etrans; [exact Hg1|]. etrans; [exact Hg2|]. etrans; [exact Hg3|]. by repeat split.
Qed.

(** When [request.send] throws (lines 255-259) the callback is called as
    soon as the reaction of the dispatch runs, with an error that names the
    instance's host; nothing has been handed to the transport. *)
Theorem plain_relay_send_refused (self : WalletConnectProvider) (r : Ref) (cb : Fn)
    (init : ConnInit) (rq : Payload) (st : State) :
  requests st !! r = Some rq →
  needsSession (method rq) = false →
  microtasks st = [] →
  ∃ st',
    run [Dispatch self r cb init; Microtask true] st = Some st' ∧
    log st' = log st ++
      [Callback cb (VErr "Invalid connection" (VStr (host self))) VUndefined] ∧
    sameGlobals st st' ∧ requests st' = requests st.
Proof.
  intros Hr Hplain Hq.
  destruct (plain_dispatch_queued self r cb init rq st Hr Hplain)
    as (st1 & Hstep1 & Hq1 & Hl1 & Hx1 & Hr1 & Hn1 & Hg1).
  rewrite Hq, app_nil_l in Hq1.
  destruct (plain_job_refused self r cb _ [] st1 Hq1)
    as (st2 & x & Hstep2 & Hl2 & _ & _ & Hg2 & Hr2).
  exists st2. cbn [run]. rewrite Hstep1, Hstep2. split; [done|].
  split; [by rewrite Hl2, Hl1|]. split; [by etrans|congruence].
Qed.

(** ** The synchronous request *)

(** [send] (lines 118-135) opens a synchronous request on the instance's
    host.  When the transport throws, the caller gets an error that names
    the host and nothing was sent; when it answers, the caller gets the
    parsed body, or an error that carries the raw text when the body is
    not JSON.  Whatever happens no callback is called and nothing else in
    the module changes: the session, the promises and the queue are as
    they were. *)
Theorem send_outcomes (self : WalletConnectProvider) (payload : option Ref)
    (reply : option Body) (rq : Payload) (st : State) :
  match payload with
  | Some r => requests st !! r = Some rq
  | None => rq = emptyObject
  end →
  ∃ x,
    xhr_url x = host self ∧ xhr_async x = false ∧
    send self payload reply st =
      match reply with
      | None =>
          (Throw (VErr "Invalid connection" (VStr (host self))),
           set_xhrs (xhrs st ++ [x]) st)
      | Some b =>
          (match json b with
           | Some result => Normal result
           | None => Throw (VErr "Invalid response" (VStr (text b)))
           end,
           set_log (log st ++ [XhrSend (length (xhrs st)) rq]) (set_xhrs (xhrs st ++ [x]) st))
      end ∧
    xhr_sentAt x = match reply with Some _ => Some (now st) | None => None end.
Proof.
  intros Hp. unfold send.
  destruct (prepareRequest_request self false st)
    as (x & Hprep & Hu & Ha & _ & _ & Hs & _).
  erewrite bind_eq by exact Hprep.
  assert (Hbody :
    (match payload with Some r => readRequest r | None => ret emptyObject end)
      (set_xhrs (xhrs st ++ [x]) st) = (Normal rq, set_xhrs (xhrs st ++ [x]) st)).
  { destruct payload as [r|]; [by apply readRequest_eq | by subst]. }
  unfold try_catch, xhrSendSync. destruct reply as [b|].
  - exists (xhrProgress 4 b (xhrSent (now st) x)). split; [exact Hu|]. split; [exact Ha|].
    split; [|done].
    erewrite bind_eq.
    2:{ erewrite bind_eq.
        2:{ unfold attempt. erewrite bind_eq by exact Hbody.
            erewrite bind_eq by reflexivity.
            cbn [now set_xhrs]. erewrite bind_eq by apply updateXhr_last.
            erewrite bind_eq by reflexivity.
            unfold updateXhr, modify. cbn [xhrs set_log set_xhrs]. rewrite alter_last.
            reflexivity. }
        reflexivity. }
    erewrite bind_eq by reflexivity.
    cbn [snd xhrs log set_xhrs set_log]. rewrite lookup_snoc_at by done.
    cbn [xhr_responseText xhrProgress json text].
    by destruct (json b).
  - exists x. split; [exact Hu|]. split; [exact Ha|]. split; [|exact Hs].
    apply bind_throw. erewrite bind_eq.
    2:{ unfold attempt. erewrite bind_eq by exact Hbody. reflexivity. }
    reflexivity.
Qed.

(** ** The life of the session variables *)

#[global] Instance sameSlot_preorder : PreOrder sameSlot.
Proof.
  split; [by intros st | intros a b c (?&?) (?&?)].
  unfold sameSlot. split; congruence.
Qed.

Ltac slot_prim := by repeat split.

Lemma sameSlot_runHandler h arg b :
  h ≠ CreateSessionCatch → respects sameSlot (runHandler h arg b).
Proof. intros Hh. destruct h; try done; unfold runHandler; respects_auto slot_prim. Qed.

Lemma sameSlot_listeners ls error payload :
  respects sameSlot (guarded (forEach ls (fun f => runListener f error payload))).
Proof. unfold runListener. respects_auto slot_prim. Qed.

Ltac slot_toplevel :=
  match goal with
  | |- sameSlot _ (toplevel ?m ?s) => apply (respects_toplevel sameSlot m s)
  end;
  rapply respects_guarded; [|intros ?];
  try unfold disconnect; try unfold runAbort; respects_auto slot_prim.

Lemma dispatch_or_not l :
  (∃ self r cb init, l = Dispatch self r cb init) ∨
  (∀ self r cb init, l ≠ Dispatch self r cb init).
Proof. destruct l; (left; by eexists _, _, _, _) || (by right). Qed.

Lemma sameGlobals_sameSlot st st' : sameGlobals st st' → sameSlot st st'.
Proof. by intros (? & ? & ?). Qed.

(** A step of the caller or of the environment other than a dispatch
    keeps both variables, unless it is one of the two that clear them. *)
Lemma step_slot l st st' :
  step l st = Some st' →
  (∀ self r cb init, l ≠ Dispatch self r cb init) →
  sameSlot st st' ∨
  (sessionPromise st' = None ∧ webconnector st' = None ∧ clearsSession l st).
Proof.
  destruct l; simpl; intros Hs Hl; repeat case_match; simplify_eq.
  - left. slot_prim.
  - by edestruct Hl.
  - left. slot_toplevel.
  - match goal with Hm : microtasks st = ?j :: ?js |- _ =>
      destruct (handlerFor (job_reaction j) (job_arg j)) as [h|] eqn:Hh end.
    + assert (h = CreateSessionCatch ∨ h ≠ CreateSessionCatch) as [->|Hne]
        by (destruct h; (by left) || (by right)).
      * right. unfold toplevel, exec, guarded, runJob. rewrite Hh.
        unfold runHandler, settle, enqueue. js_exec; (split; [done|]; split; [done|]);
          right; by eexists _, _, _.
      * left. etrans; [|apply (respects_toplevel sameSlot)]; [slot_prim|].
        unfold runJob. rewrite Hh. rapply respects_guarded; [|intros ?; respects_auto slot_prim].
        rapply respects_bind; [apply respects_attempt; by apply sameSlot_runHandler|].
        intros c. respects_auto slot_prim.
    + left. etrans; [|apply (respects_toplevel sameSlot)]; [slot_prim|].
      unfold runJob. rewrite Hh. respects_auto slot_prim.
  - left. slot_toplevel.
  - left. slot_prim.
  - left. apply sameSlot_listeners.
  - right. unfold toplevel, exec, guarded, runAbort, callHook, emit.
    js_exec; (split; [done|]; split; [done|]); by left.
  - left. slot_toplevel.
  - left. slot_toplevel.
  - left. slot_prim.
Qed.

(** Once a session future is stored it is dropped only by the abort
    callback of the modal or by the reaction to a failed [createSession],
    and then [webconnector] is cleared with it.  Every other step, a
    [disconnect] call, a disconnect event and a dispatch among them, leaves
    both variables as they are. *)
Theorem session_dropped_only_by_abort_or_failure (l : Label) (st st' : State) :
  sessionPromise st ≠ None →
  step l st = Some st' →
  sameSlot st st' ∨
  (sessionPromise st' = None ∧ webconnector st' = None ∧ clearsSession l st).
Proof.
  intros Hs Hstep.
  destruct (dispatch_or_not l) as [(self&r&cb&init&->)|Hn].
  - left. simpl in Hstep. destruct (requests st !! r); [|done]. simplify_eq.
    apply sameGlobals_sameSlot. by apply (keepsSession_sendAsync self r cb init st).
  - by apply step_slot.
Qed.

(** On every trace the two variables are set together and cleared
    together: [webconnector] is null exactly when [sessionPromise] is, and
    [isConnected] answers true only while a session future is stored. *)
Theorem session_variables_agree (tr : list Label) (st st' : State) :
  slotsAgree st →
  run tr st = Some st' →
  slotsAgree st' ∧ ∀ self, isConnected self st' = true → sessionPromise st' ≠ None.
Proof.
  intros Hagree Hrun.
  assert (Hst' : slotsAgree st').
  { revert st Hagree Hrun. induction tr as [|l tr IH]; simpl; intros st Hagree Hrun.
    - by simplify_eq.
    - destruct (step l st) as [st1|] eqn:Hstep; [|done].
      apply (IH st1); [|done]. clear IH Hrun.
      assert (Hkeep : sameSlot st st1 ∨ (sessionPromise st1 = None ∧ webconnector st1 = None) →
                      slotsAgree st1).
      { unfold slotsAgree in *. intros [[-> ->]|[-> ->]]; [done|by split]. }
      destruct (dispatch_or_not l) as [(self&r&cb&init&->)|Hn].
      + simpl in Hstep. destruct (requests st !! r) as [rq|] eqn:Hr; [|done].
        destruct (sessionPromise st) as [sp|] eqn:Hsp.
        * apply Hkeep. left. simplify_eq. apply sameGlobals_sameSlot.
          apply (keepsSession_sendAsync self r cb init st). congruence.
        * destruct (needsSession (method rq)) eqn:Hneeds.
          -- destruct (dispatch_first self r cb init rq st Hsp Hr Hneeds)
               as (sp & st2 & Hstep2 & Hs2 & _ & Hw2 & _).
             simpl in Hstep2. rewrite Hr in Hstep2. simplify_eq.
             unfold slotsAgree. rewrite Hs2, Hw2. by split.
          -- destruct (plain_dispatch_queued self r cb init rq st Hr Hneeds)
               as (st2 & Hstep2 & _ & _ & _ & _ & _ & Hg).
             simpl in Hstep2. rewrite Hr in Hstep2. simplify_eq.
             apply Hkeep. left. by apply sameGlobals_sameSlot.
      + apply Hkeep. destruct (step_slot l st st1 Hstep Hn) as [?|(?&?&_)]; [by left|by right]. }
  split; [done|]. intros self Hcon Hs. apply Hst' in Hs.
  unfold isConnected in Hcon. by rewrite Hs in Hcon.
Qed.

(** ** Transactions *)

Lemma promiseResolve_eq v st :
  promiseResolve v st
  = (Normal (length (promises st)),
     set_promises
       (promises st ++ [{| pstate := Fulfilled v; reactions := []; external := false |}]) st).
Proof. reflexivity. Qed.

(** The request object after a dispatch of [eth_sendTransaction]. *)
Lemma transaction_dispatch_pushes self r cb init rq rq' st :
  requests st !! r = Some rq →
  method rq = VStr "eth_sendTransaction" →
  pushed (init_hex init) rq = Normal rq' →
  ∃ st',
    step (Dispatch self r cb init) st = Some st' ∧
    requests st' = <[r := rq']> (requests st).
Proof.
  intros Hr Hm Hpush. unfold step. rewrite Hr. eexists. split; [reflexivity|].
  unfold sendAsync.
  erewrite toplevel_bind by apply promiseResolve_eq.
  erewrite toplevel_bind by (by apply readRequest_eq).
  rewrite Hm.
  change (indexOf supportedMethods (VStr "eth_sendTransaction") >? -1)%Z with true.
  change (indexOf walletconnectMethods (VStr "eth_sendTransaction") >? -1)%Z with true.
  change (strictEq (VStr "eth_sendTransaction") "eth_sendTransaction") with true.
  cbv iota. cbn [when].
  match goal with |- context [toplevel _ ?s] =>
    pose proof (sameRequests_ensureSession self init s) as He;
    destruct (ensureSession_returns self init s) as (p & st1 & Hens) end.
  unfold sameRequests, exec in He. rewrite Hens in He. simpl in He.
  erewrite toplevel_bind by exact Hens.
  assert (Hr1 : requests st1 !! r = Some rq) by (by rewrite He).
  erewrite toplevel_bind by (rewrite (pushChainId_spec r _ rq st1 Hr1), Hpush; reflexivity).
  match goal with |- requests (toplevel ?m ?s) = _ =>
    transitivity (requests s);
    [apply (respects_toplevel sameRequests m s); rapply respects_guarded;
     [|intros ?]; respects_auto same_prim|] end.
  simpl. by rewrite He.
Qed.

(** Line 281 runs on the caller's object at every dispatch, so dispatching
    the same [eth_sendTransaction] request object a second time appends a
    second element: where the chain identifier is readable and the library
    converts it at both calls, the two strings it returned end the
    parameters, in the order of the calls. *)
Theorem redispatch_appends_again (self1 self2 : WalletConnectProvider) (r : Ref)
    (cb1 cb2 : Fn) (init1 init2 : ConnInit) (rq : Payload) (p0 c h1 h2 : Value)
    (ps : list Value) (st : State) :
  requests st !! r = Some rq →
  method rq = VStr "eth_sendTransaction" →
  params rq = VArr (p0 :: ps) →
  getProp p0 "chainId" = Normal c →
  init_hex init1 = Normal h1 →
  init_hex init2 = Normal h2 →
  ∃ st',
    run [Dispatch self1 r cb1 init1; Dispatch self2 r cb2 init2] st = Some st' ∧
    requests st' = <[r := with_params rq (VArr (p0 :: ps ++ [h1; h2]))]> (requests st).
Proof.
  intros Hr Hm Hps Hc Hh1 Hh2.
  assert (Hlt : r < length (requests st)) by (by eapply lookup_lt_Some).
  assert (Hpush1 : pushed (init_hex init1) rq
                   = Normal (with_params rq (VArr (p0 :: ps ++ [h1])))).
  { unfold pushed. rewrite Hps, Hh1. by destruct p0. }
  destruct (transaction_dispatch_pushes self1 r cb1 init1 _ _ st Hr Hm Hpush1)
    as (st1 & Hstep1 & Hreq1).
  assert (Hr1 : requests st1 !! r = Some (with_params rq (VArr (p0 :: ps ++ [h1])))).
  { rewrite Hreq1. by apply list_lookup_insert_eq. }
  destruct (transaction_dispatch_pushes self2 r cb2 init2 _
              (with_params rq (VArr (p0 :: ps ++ [h1; h2]))) st1 Hr1 Hm)
    as (st2 & Hstep2 & Hreq2).
  { unfold pushed. simpl. rewrite Hh2. unfold with_params. simpl.
    rewrite <- app_assoc. by destruct p0. }
  exists st2. cbn [run]. rewrite Hstep1, Hstep2. split; [done|].
  rewrite Hreq2, Hreq1. by rewrite list_insert_insert_eq.
Qed.

(** A dispatch of [eth_sendTransaction] at which line 281 throws (the
    first parameter cannot be read, or the library rejects the chain
    identifier) throws out of [sendAsync], before any reaction of the
    call is registered: with a session future stored the only trace of the
    call is the promise of [Promise.resolve([])], so the callback will
    never be called; with none stored the negotiation has been started all
    the same. *)
Theorem malformed_transaction_throws (self : WalletConnectProvider) (r : Ref) (cb : Fn)
    (init : ConnInit) (rq : Payload) (e : Value) (st : State) :
  requests st !! r = Some rq →
  method rq = VStr "eth_sendTransaction" →
  pushed (init_hex init) rq = Throw e →
  (∀ sp, sessionPromise st = Some sp →
     sendAsync self r cb init st
     = (Throw e,
        set_promises
          (promises st ++
             [{| pstate := Fulfilled (VArr []); reactions := []; external := false |}]) st)) ∧
  (sessionPromise st = None →
     ∃ sp st',
       sendAsync self r cb init st = (Throw e, st') ∧
       sessionPromise st' = Some sp ∧
       webconnector st' = Some (length (connectors st)) ∧
       requests st' = requests st).
Proof.
  intros Hr Hm Hpush.
  assert (Hhead : ∀ p st1,
    requests st1 = requests st →
    ensureSession self init
      (set_promises
         (promises st ++
            [{| pstate := Fulfilled (VArr []); reactions := []; external := false |}]) st)
    = (Normal p, st1) →
    sendAsync self r cb init st = (Throw e, st1)).
  { intros p st1 Hreq Hens. unfold sendAsync.
    erewrite bind_eq by apply promiseResolve_eq.
    erewrite bind_eq by (by apply readRequest_eq).
    rewrite Hm.
    change (indexOf supportedMethods (VStr "eth_sendTransaction") >? -1)%Z with true.
    change (indexOf walletconnectMethods (VStr "eth_sendTransaction") >? -1)%Z with true.
    change (strictEq (VStr "eth_sendTransaction") "eth_sendTransaction") with true.
    cbv iota. cbn [when].
    erewrite bind_eq by exact Hens.
    apply bind_throw. rewrite (pushChainId_spec r _ rq st1), Hpush; [done|by rewrite Hreq]. }
  split.
  - intros sp Hs. eapply Hhead; [|by apply ensureSession_stored]. done.
  - intros Hs.
    edestruct (ensureSession_first self init) as (sp & st1 & Hens & Hs1 & Hw1 & _ & Hreq & _);
      [|exists sp, st1; split; [eapply Hhead; [|exact Hens]; exact Hreq|]]; [exact Hs|].
    by repeat split.
Qed.

(** ** Evaluating monadic code on a symbolic state

    The state is kept as a record whose fields are written out; the
    promises are a list [old ++ new] with [new] written out, and promise
    ids are [length old + n]. *)

Lemma ext_lookup {A} (l ext : list A) n : (l ++ ext) !! (length l + n) = ext !! n.
Proof. induction l as [|a l IH]; simpl; [done|exact IH]. Qed.

Lemma ext_lookup0 {A} (l ext : list A) : (l ++ ext) !! length l = ext !! 0.
Proof. rewrite <- (Nat.add_0_r (length l)). apply ext_lookup. Qed.

Lemma nil_lookup0 {A} (l : list A) : l !! length l = None.
Proof. by apply lookup_ge_None_2. Qed.

Lemma ext_insert {A} (l ext : list A) n v :
  <[length l + n := v]> (l ++ ext) = l ++ <[n := v]> ext.
Proof. apply insert_app_r. Qed.

Lemma ext_insert0 {A} (l ext : list A) v :
  <[length l := v]> (l ++ ext) = l ++ <[0 := v]> ext.
Proof. rewrite <- (Nat.add_0_r (length l)). apply ext_insert. Qed.

Lemma ext_alter {A} (f : A → A) (l ext : list A) n :
  alter f (length l + n) (l ++ ext) = l ++ alter f n ext.
Proof. induction l as [|a l IH]; simpl; [done|by rewrite <- IH]. Qed.

Lemma ext_alter0 {A} (f : A → A) (l ext : list A) :
  alter f (length l) (l ++ ext) = l ++ alter f 0 ext.
Proof. rewrite <- (Nat.add_0_r (length l)). apply ext_alter. Qed.

Lemma ext_length {A} (l : list A) a ext :
  length (l ++ a :: ext) = length l + S (length ext).
Proof. by rewrite length_app. Qed.

Lemma old_lookup {A} (l ext : list A) i x : l !! i = Some x → (l ++ ext) !! i = Some x.
Proof. intros H. by apply lookup_app_l_Some. Qed.

Lemma old_insert {A} (l ext : list A) i x v :
  l !! i = Some x → <[i := v]> (l ++ ext) = <[i := v]> l ++ ext.
Proof. intros H. apply insert_app_l. by eapply lookup_lt_Some. Qed.

Lemma old_alter {A} (f : A → A) (l ext : list A) i x :
  l !! i = Some x → alter f i (l ++ ext) = <[i := f x]> l ++ ext.
Proof.
  revert i. induction l as [|a l IH]; intros [|i] H; try done.
  - simpl in H. by simplify_eq.
  - change (a :: alter f i (l ++ ext) = a :: <[i := f x]> l ++ ext).
    f_equal. by apply IH.
Qed.

Lemma old_alter_nil {A} (f : A → A) (l : list A) i x :
  l !! i = Some x → alter f i l = <[i := f x]> l.
Proof.
  intros H. pose proof (old_alter f l [] i x H) as Ha. by rewrite !app_nil_r in Ha.
Qed.

Lemma ins_lookup {A} (l ext : list A) i v n :
  (<[i := v]> l ++ ext) !! (length l + n) = ext !! n.
Proof. rewrite <- (length_insert l i v) at 1. apply ext_lookup. Qed.

Lemma ins_lookup0 {A} (l ext : list A) i v : (<[i := v]> l ++ ext) !! length l = ext !! 0.
Proof. rewrite <- (Nat.add_0_r (length l)). apply ins_lookup. Qed.

Lemma ins_insert {A} (l ext : list A) i v n w :
  <[length l + n := w]> (<[i := v]> l ++ ext) = <[i := v]> l ++ <[n := w]> ext.
Proof. rewrite <- (length_insert l i v) at 1. apply ext_insert. Qed.

Lemma ins_insert0 {A} (l ext : list A) i v w :
  <[length l := w]> (<[i := v]> l ++ ext) = <[i := v]> l ++ <[0 := w]> ext.
Proof. rewrite <- (Nat.add_0_r (length l)) at 1. apply ins_insert. Qed.

Lemma insert_lookup_same {A} (l : list A) i x v :
  l !! i = Some x → <[i := v]> l !! i = Some v.
Proof. intros H. apply list_lookup_insert_eq. by eapply lookup_lt_Some. Qed.

Ltac ext_norm :=
  repeat first
    [ rewrite <- !app_assoc
    | rewrite !ext_length
    | rewrite !ext_lookup
    | rewrite !ext_lookup0
    | rewrite !ext_insert
    | rewrite !ext_insert0
    | rewrite !ext_alter
    | rewrite !ext_alter0
    | rewrite !length_insert
    | rewrite !ins_lookup
    | rewrite !ins_lookup0
    | rewrite !ins_insert
    | rewrite !ins_insert0
    | rewrite !nil_lookup0
    | rewrite !app_nil_r
    | progress cbn [app length lookup list_lookup insert list_insert alter list_alter
                    Nat.add] ].

Lemma listenersFor_eq event c : listenersFor event c = listenersOf event (listeners c).
Proof.
  unfold listenersFor. induction (listeners c) as [|[e l] ls IH]; [done|].
  rewrite filter_cons. simpl. destruct (String.eqb e event) eqn:He.
  - rewrite decide_True by done. simpl. by rewrite IH.
  - rewrite decide_False by (by intros ?). exact IH.
Qed.

Lemma sessionAccounts_falsy s : truthy s = false → sessionAccounts s = s.
Proof. intros H. unfold sessionAccounts. by rewrite H. Qed.

(** A test on closed data is replaced by its value. *)
Ltac decide_bool t :=
  let v := eval cbv in t in
  lazymatch v with
  | true => change t with true
  | false => change t with false
  end.

Ltac old_norm :=
  repeat match goal with
         | H : ?l !! ?i = Some ?x |- context [<[?i := ?v]> ?l !! ?i] =>
             rewrite (insert_lookup_same l i x v H)
         | H : ?l !! ?i = Some ?x |- context [(?l ++ ?ext) !! ?i] =>
             rewrite (old_lookup l ext i x H)
         | H : ?l !! ?i = Some ?x |- context [<[?i := ?v]> (?l ++ ?ext)] =>
             rewrite (old_insert l ext i x v H)
         | H : ?l !! ?i = Some ?x |- context [alter ?f ?i (?l ++ ?ext)] =>
             rewrite (old_alter f l ext i x H)
         | H : ?l !! ?i = Some ?x |- context [alter ?f ?i ?l] =>
             rewrite (old_alter_nil f l i x H)
         | H : ?l !! ?i = _ |- context [?l !! ?i] => rewrite H
         | H : ?l = true |- context [?l] => rewrite H
         | H : ?l = false |- context [?l] => rewrite H
         | H : ?l = Some _ |- context [?l] => rewrite H
         | H : ?l = None |- context [?l] => rewrite H
         | H : ?l = Normal _ |- context [?l] => rewrite H
         | H : ?l = Throw _ |- context [?l] => rewrite H
         | H : ?l = VStr _ |- context [?l] => rewrite H
         | H : ?l = VArr _ |- context [?l] => rewrite H
         | H : ?l = VObj _ |- context [?l] => rewrite H
         | H : ?l = VUndefined |- context [?l] => rewrite H
         | H : ?l = VNull |- context [?l] => rewrite H
         | H : ?l = _ :: _ |- context [?l] => rewrite H
         | |- context [listenersFor ?e ?c] => rewrite (listenersFor_eq e c)
         | H : truthy ?s = false |- context [sessionAccounts ?s] =>
             rewrite (sessionAccounts_falsy s H)
         | |- context [Z.gtb ?a ?b] => decide_bool (Z.gtb a b)
         | |- context [Z.eqb ?a ?b] => decide_bool (Z.eqb a b)
         | |- context [strictEq ?a ?b] => decide_bool (strictEq a b)
         end.

Ltac fields :=
  cbn [sessionPromise webconnector connectors promises microtasks requests modal xhrs now
       log] in *.

Ltac js_data :=
  cbv [set_sessionPromise set_webconnector set_connectors set_promises set_microtasks
       set_requests set_modal set_xhrs set_now set_log libraryState addListener with_params
       xhrOpen xhrSetRequestHeader xhrSetHandlers xhrSent xhrProgress];
  cbn -[length lookup insert alter app Nat.add indexOf strictEq assoc pushed response
        Z.add Z.gtb Z.eqb Z.ltb Z.leb plainJob listenersFor].

(** Normalise the data of a goal [t = ?v] and take the result. *)
Ltac eval_data := repeat (progress (old_norm; js_data; ext_norm)); reflexivity.

Lemma eval_bind {A B} (m : M A) (k : A → M B) st c st1 r :
  m st = (c, st1) →
  match c with Normal a => k a st1 | Throw e => (Throw e, st1) end = r →
  (m ≫= k) st = r.
Proof. intros Hm Hk. unfold mbind, M_bind, bind. rewrite Hm. by destruct c. Qed.

Lemma eval_attempt {A} (m : M A) st c st1 :
  m st = (c, st1) → attempt m st = (Normal c, st1).
Proof. intros Hm. unfold attempt. by rewrite Hm. Qed.

Lemma eval_modify f st st1 : f st = st1 → modify f st = (Normal tt, st1).
Proof. by intros <-. Qed.

Lemma eval_lift {A} (c c' : Completion A) st : c = c' → lift c st = (c', st).
Proof. by intros <-. Qed.

Lemma eval_scrutinee {A B} (f : A → B) (x v : A) (r : B) : x = v → f v = r → f x = r.
Proof. by intros <-. Qed.

Lemma eval_toplevel {A} (m : M A) st st0 c st1 :
  st = st0 → guarded m st0 = (c, st1) → toplevel m st = st1.
Proof. intros <- H. unfold toplevel, exec. by rewrite H. Qed.

Lemma eval_run_cons l tr st st1 r :
  step l st = Some st1 → run tr st1 = r → run (l :: tr) st = r.
Proof. intros H1 H2. simpl. by rewrite H1. Qed.

Lemma eval_pushChainId r hex rq rq' st st1 :
  requests st !! r = Some rq →
  pushed hex rq = Normal rq' →
  set_requests (<[r := rq']> (requests st)) st = st1 →
  pushChainId r hex st = (Normal tt, st1).
Proof. intros Hr Hp <-. by rewrite (pushChainId_spec r hex rq st Hr), Hp. Qed.

(** The lifecycle hooks as log entries. *)
Lemma eval_callHook h args st st1 :
  set_log (log st ++ match h with Some f => [Hook f args] | None => [] end) st = st1 →
  callHook h args st = (Normal tt, st1).
Proof.
  intros <-. destruct h; [done|]. unfold callHook, ret. f_equal.
  rewrite app_nil_r. by destruct st.
Qed.

Ltac head_of t :=
  lazymatch t with
  | ?f _ => head_of f
  | _ => t
  end.

(** Big-step evaluation of a goal [m st = (?c, ?st')]: the first argument
    evaluates the operations that are known by a lemma of their own. *)
Ltac eval_m_with known :=
  cbv beta iota zeta;
  first
    [ known
    | lazymatch goal with
      | |- (_, _) = _ => reflexivity
      | |- ret _ _ = _ => reflexivity
      | |- mret _ _ = _ => reflexivity
      | |- throw _ _ = _ => reflexivity
      | |- get _ = _ => reflexivity
      | |- lift _ _ = _ => apply eval_lift; eval_data
      | |- modify _ _ = _ => apply eval_modify; eval_data
      | |- callHook _ _ _ = _ => apply eval_callHook; eval_data
      | |- pushChainId _ _ _ = _ =>
          eapply eval_pushChainId; [fields; eassumption | eassumption | eval_data]
      | |- attempt _ _ = _ => eapply eval_attempt; eval_m_with known
      | |- mbind _ _ _ = _ => eapply eval_bind; [eval_m_with known | eval_m_with known]
      | |- forEach ?xs _ _ = _ =>
          lazymatch xs with
          | [] => cbn [forEach]
          | _ :: _ => cbn [forEach]
          | _ =>
              match goal with
              | |- ?lhs = _ =>
                  let t := eval pattern xs in lhs in
                  lazymatch t with ?f _ => eapply (eval_scrutinee f xs) end;
                  [eval_data|]; cbv beta
              end
          end; eval_m_with known
      | |- (match ?x with _ => _ end) _ = _ =>
          match goal with
          | |- ?lhs = _ =>
              let t := eval pattern x in lhs in
              lazymatch t with ?f _ => eapply (eval_scrutinee f x) end;
              [eval_data|]
          end; cbv beta; progress (cbv iota); eval_m_with known
      | |- match ?x with _ => _ end = _ =>
          match goal with
          | |- ?lhs = _ =>
              let t := eval pattern x in lhs in
              lazymatch t with ?f _ => eapply (eval_scrutinee f x) end;
              [eval_data|]
          end; cbv beta; progress (cbv iota); eval_m_with known
      | |- ?lhs = _ => let h := head_of lhs in progress (unfold h); eval_m_with known
      end ].

Ltac eval_m := eval_m_with fail.

(** A step and a trace from a state written out. *)
Ltac eval_step_with known :=
  cbn [step];
  repeat lazymatch goal with
    | |- match ?x with _ => _ end = Some _ =>
        match goal with
        | |- ?lhs = _ =>
            let t := eval pattern x in lhs in
            lazymatch t with ?f _ => eapply (eval_scrutinee f x) end;
            [eval_data|]; cbv beta; progress (cbv iota)
        end
    end;
  lazymatch goal with
  | |- Some (toplevel _ _) = Some _ =>
      apply (f_equal Some); eapply eval_toplevel; [eval_data | eval_m_with known]
  | |- Some _ = Some _ => apply (f_equal Some); eval_data
  end.

Ltac eval_run_with known :=
  cbn [tasks replicate app fmap list_fmap];
  lazymatch goal with
  | |- run [] _ = _ => reflexivity
  | |- run (_ :: _) _ = _ =>
      eapply eval_run_cons; [eval_step_with known | eval_run_with known]
  end.

Ltac eval_step := eval_step_with fail.
Ltac eval_run := eval_run_with fail.


(** ** What a negotiation starts and what a dispatch registers *)

Lemma indexOf_from_found i j xs v :
  (0 ≤ i)%Z → (0 ≤ j)%Z →
  (indexOf_from i xs v >? -1)%Z = (indexOf_from j xs v >? -1)%Z.
Proof.
  revert i j. induction xs as [|x xs IH]; intros i j Hi Hj; simpl; [done|].
  destruct v; try (apply IH; lia).
  destruct (String.eqb x s); [|apply IH; lia].
  transitivity true; [|symmetry]; apply Z.gtb_lt; lia.
Qed.

Lemma walletconnect_needs_session v :
  (indexOf walletconnectMethods v >? -1)%Z = true → needsSession v = true.
Proof.
  intros H. unfold needsSession, indexOf, supportedMethods. cbn [indexOf_from].
  destruct v; try (rewrite (indexOf_from_found _ 0) by lia; exact H).
  destruct (String.eqb "eth_accounts" s); [done|].
  rewrite (indexOf_from_found _ 0) by lia. exact H.
Qed.

Lemma routes_exhaustive v :
  needsSession v = true →
  (indexOf walletconnectMethods v >? -1)%Z = false →
  strictEq v "eth_accounts" = true.
Proof.
  unfold needsSession, indexOf, supportedMethods. cbn [indexOf_from].
  destruct v as [| |b|n|s|items|fs|msg det]; try done. intros Hn Hw.
  destruct (String.eqb "eth_accounts" s) eqn:He.
  - apply String.eqb_eq in He. by subst.
  - rewrite (indexOf_from_found _ 0) in Hn by lia. congruence.
Qed.

Lemma transaction_is_signing v :
  strictEq v "eth_sendTransaction" = true →
  (indexOf walletconnectMethods v >? -1)%Z = true.
Proof. intros H. apply strictEq_true in H. by subst. Qed.

(** The accounts test of lines 215-217 is taken as a hypothesis. *)
Ltac eval_cond := idtac;
  match goal with
  | Hc : ?c' = _ |- (if ?c then ?x else ?y) ?s = ?r =>
      change ((if c' then x else y) s = r); rewrite Hc; cbv iota; eval_m_with eval_cond
  end.

(** [createWebconnector], in full: one connector, built from the instance
    and made the current one; [createSession] requested exactly when the
    library found no connection; a fresh pending promise returned. *)
Lemma createWebconnector_exact self init st :
  ∃ sp st' c,
    createWebconnector self init st = (Normal sp, st') ∧
    promises st' !! sp = Some {| pstate := Pending; reactions := []; external := false |} ∧
    length (promises st') = S sp ∧
    length (promises st) < sp ∧
    sessionPromise st' = sessionPromise st ∧
    webconnector st' = Some (length (connectors st)) ∧
    connectors st' = connectors st ++ [c] ∧
    builtConnector self init c ∧
    requests st' = requests st ∧
    log st' =
      log st ++
        (if init_connected init then []
         else [CreateSession (length (connectors st)) (length (promises st) + 2)]).
Proof.
  destruct st as [sP wc cs ps ms rqs md xs nw lg]. destruct init as [ic isess ih].
  unfold builtConnector. cbn [init_connected init_session].
  destruct ic.
  - destruct (truthy (sessionAccounts isess) &&
              truthy (match getProp (sessionAccounts isess) "length" with
                      | Normal n => n | Throw _ => VUndefined end)) eqn:Hacc.
    all: eexists _, _, _; split; [eval_m_with eval_cond|]; fields.
    all: ext_norm; repeat split; try done; try lia; eauto.
  - eexists _, _, _; split; [eval_m|]; fields.
    ext_norm; repeat split; try done; try lia; eauto.
Qed.

Ltac chain_done :=
  unfold sameGlobals; fields; ext_norm; repeat split; try done;
  try (by rewrite list_insert_id);
  try (by rewrite lookup_app_l by lia);
  try (rewrite lookup_app_l by (rewrite ?length_insert; lia);
       by rewrite list_lookup_insert_eq by lia);
  try (by rewrite drop_app_length' by (by rewrite ?length_insert));
  try (intros i pr0 Hi Hl; apply lookup_app_l_Some; by rewrite ?list_lookup_insert_ne by done).

(** The rest of a dispatch on a session path, after [ensureSession] has
    returned promise [p]: line 281 appends to the request object, the first
    reaction is registered on [p], and the reactions that answer the
    callback are chained behind it. *)
Lemma chain_registers r cb rq rq' hex p pr st :
  requests st !! r = Some rq →
  needsSession (method rq) = true →
  (if strictEq (method rq) "eth_sendTransaction" then pushed hex rq else Normal rq)
  = Normal rq' →
  promises st !! p = Some pr →
  ∃ st',
    toplevel
      (if (indexOf walletconnectMethods (method rq) >? -1)%Z then
         when (strictEq (method rq) "eth_sendTransaction") (pushChainId r hex);;
         q1 ← then_ p (SendCustom r);
         q2 ← then_ q1 (FnResult r cb);
         q3 ← catch_ q2 (FnError r cb);
         ret (Some q3)
       else if strictEq (method rq) "eth_accounts" then
         q1 ← then_ p (Accounts r cb);
         q2 ← catch_ q1 (AccountsCatch r cb);
         ret (Some q2)
       else ret None) st = st' ∧
    sameGlobals st st' ∧
    log st' = log st ∧
    requests st' = <[r := rq']> (requests st) ∧
    registered st st' p (firstReaction rq r cb (length (promises st))) ∧
    drop (length (promises st)) (promises st')
    = answerChain rq r cb (length (promises st)) ∧
    ∀ i pr0, i ≠ p → promises st !! i = Some pr0 → promises st' !! i = Some pr0.
Proof.
  intros Hr Hn Hsent Hp. unfold registered, firstReaction, answerChain. rewrite Hp.
  assert (Hlt : p < length (promises st)) by (by eapply lookup_lt_Some).
  destruct st as [sP wc cs ps ms rqs md xs nw lg]. fields.
  destruct (indexOf walletconnectMethods (method rq) >? -1)%Z eqn:Hw.
  - destruct (strictEq (method rq) "eth_sendTransaction") eqn:Htx; simplify_eq.
    all: destruct pr as [[|v|e] rs x].
    all: eexists; split; [eapply eval_toplevel; [reflexivity|eval_m]|]; fields.
    all: chain_done.
  - pose proof (routes_exhaustive _ Hn Hw) as Ha.
    assert (strictEq (method rq) "eth_sendTransaction" = false) as Htx.
    { destruct (strictEq (method rq) "eth_sendTransaction") eqn:Htx; [|done].
      apply transaction_is_signing in Htx. congruence. }
    rewrite Htx in Hsent. simplify_eq.
    destruct pr as [[|v|e] rs x].
    all: eexists; split; [eapply eval_toplevel; [reflexivity|eval_m]|]; fields.
    all: chain_done.
Qed.

(** Where line 281 throws nothing is chained: the exception leaves the call. *)
Lemma chain_throws r cb rq hex p e st :
  requests st !! r = Some rq →
  (if strictEq (method rq) "eth_sendTransaction" then pushed hex rq else Normal rq)
  = Throw e →
  toplevel
    (if (indexOf walletconnectMethods (method rq) >? -1)%Z then
       when (strictEq (method rq) "eth_sendTransaction") (pushChainId r hex);;
       q1 ← then_ p (SendCustom r);
       q2 ← then_ q1 (FnResult r cb);
       q3 ← catch_ q2 (FnError r cb);
       ret (Some q3)
     else if strictEq (method rq) "eth_accounts" then
       q1 ← then_ p (Accounts r cb);
       q2 ← catch_ q1 (AccountsCatch r cb);
       ret (Some q2)
     else ret None) st
  = set_log (log st ++ [Thrown e]) st.
Proof.
  intros Hr Hsent.
  destruct (strictEq (method rq) "eth_sendTransaction") eqn:Htx; [|done].
  rewrite (transaction_is_signing _ Htx). cbn [when].
  by erewrite toplevel_throw by (rewrite (pushChainId_spec r hex rq st Hr), Hsent; reflexivity).
Qed.

Lemma createSessions_app lg lg' :
  createSessions (lg ++ lg') = createSessions lg ++ createSessions lg'.
Proof. apply List.filter_app. Qed.

(** A dispatch on a session path with a session future stored: line 270
    leaves one fulfilled promise, lines 272-276 return the stored future,
    and the call chains on it. *)
Lemma dispatch_registers self r cb init rq st sp pr :
  requests st !! r = Some rq →
  needsSession (method rq) = true →
  sessionPromise st = Some sp →
  promises st !! sp = Some pr →
  ∃ st',
    step (Dispatch self r cb init) st = Some st' ∧
    sameGlobals st st' ∧
    promises st' !! length (promises st)
    = Some {| pstate := Fulfilled (VArr []); reactions := []; external := false |} ∧
    match (if strictEq (method rq) "eth_sendTransaction"
           then pushed (init_hex init) rq else Normal rq) with
    | Normal rq' =>
        log st' = log st ∧
        requests st' = <[r := rq']> (requests st) ∧
        registered st st' sp (firstReaction rq r cb (S (length (promises st)))) ∧
        drop (S (length (promises st))) (promises st')
        = answerChain rq r cb (S (length (promises st)))
    | Throw e =>
        st' = set_log (log st ++ [Thrown e])
                (set_promises
                   (promises st ++
                      [{| pstate := Fulfilled (VArr []); reactions := []; external := false |}])
                   st)
    end.
Proof.
  intros Hr Hn Hs Hp. unfold needsSession in Hn.
  assert (Hlt : sp < length (promises st)) by (by eapply lookup_lt_Some).
  unfold step. rewrite Hr. unfold sendAsync.
  erewrite toplevel_bind by apply promiseResolve_eq.
  erewrite toplevel_bind by (by apply readRequest_eq).
  rewrite Hn.
  erewrite toplevel_bind by (by apply ensureSession_stored).
  match goal with |- context [toplevel _ ?s0] => set (s := s0) end.
  assert (Hps : promises s !! sp = Some pr) by (by apply lookup_app_l_Some).
  assert (Hlen : length (promises s) = S (length (promises st))).
  { subst s. cbn [promises set_promises]. rewrite length_app. simpl. lia. }
  destruct (if strictEq (method rq) "eth_sendTransaction"
            then pushed (init_hex init) rq else Normal rq) as [rq'|e] eqn:Hsent.
  - destruct (chain_registers r cb rq rq' (init_hex init) sp pr s Hr Hn Hsent Hps)
      as (st' & -> & Hg & Hl & Hq & Hreg & Hdrop & Hkept).
    eexists. split; [reflexivity|]. rewrite Hlen in *.
    split; [exact Hg|]. split.
    { apply Hkept; [lia|]. subst s. cbn [promises set_promises].
      by rewrite lookup_app_r, Nat.sub_diag by lia. }
    split; [exact Hl|]. split; [exact Hq|]. split; [|exact Hdrop].
    unfold registered in *. rewrite Hp. by rewrite Hps in Hreg.
  - rewrite (chain_throws r cb rq (init_hex init) sp e s Hr Hsent).
    eexists. split; [reflexivity|]. split; [done|]. split; [|done].
    subst s. cbn [promises set_promises set_log].
    by rewrite lookup_app_r, Nat.sub_diag by lia.
Qed.

(** A dispatch on a session path with no session future stored: the call
    starts the negotiation, stores its future and is the first to chain
    on it. *)
Lemma dispatch_negotiates self r cb init rq st :
  requests st !! r = Some rq →
  needsSession (method rq) = true →
  sessionPromise st = None →
  ∃ sp st' c,
    step (Dispatch self r cb init) st = Some st' ∧
    sessionPromise st' = Some sp ∧
    length (promises st) < sp ∧
    webconnector st' = Some (length (connectors st)) ∧
    connectors st' = connectors st ++ [c] ∧
    builtConnector self init c ∧
    match (if strictEq (method rq) "eth_sendTransaction"
           then pushed (init_hex init) rq else Normal rq) with
    | Normal rq' =>
        log st' =
          log st ++
            (if init_connected init then []
             else [CreateSession (length (connectors st)) (length (promises st) + 3)]) ∧
        requests st' = <[r := rq']> (requests st) ∧
        promises st' !! sp
        = Some {| pstate := Pending; reactions := [firstReaction rq r cb (S sp)];
                  external := false |} ∧
        drop (S sp) (promises st') = answerChain rq r cb (S sp)
    | Throw e =>
        log st' =
          log st ++
            (if init_connected init then []
             else [CreateSession (length (connectors st)) (length (promises st) + 3)]) ++
            [Thrown e] ∧
        requests st' = requests st ∧
        promises st' !! sp
        = Some {| pstate := Pending; reactions := []; external := false |}
    end.
Proof.
  intros Hr Hn Hs. unfold needsSession in Hn.
  unfold step. rewrite Hr. unfold sendAsync.
  erewrite toplevel_bind by apply promiseResolve_eq.
  erewrite toplevel_bind by (by apply readRequest_eq).
  rewrite Hn.
  match goal with |- context [toplevel _ ?s0] => set (s := s0) end.
  destruct (createWebconnector_exact self init s)
    as (sp & s1 & c & Hc & Hsp & Hlen & Hlt & Hslot & Hw & Hcs & Hb & Hq & Hl).
  assert (Hens : ensureSession self init s = (Normal sp, set_sessionPromise (Some sp) s1)).
  { unfold ensureSession. erewrite bind_eq by reflexivity.
    subst s. cbn [sessionPromise set_promises]. rewrite Hs.
    by erewrite bind_eq by exact Hc. }
  erewrite toplevel_bind by exact Hens.
  assert (HP : length (promises s) = S (length (promises st))).
  { subst s. cbn [promises set_promises]. rewrite length_app. simpl. lia. }
  assert (HL : length (promises s) + 2 = length (promises st) + 3) by lia.
  rewrite HP in Hlt. rewrite HL in Hl. clear HP HL.
  assert (Hcon : connectors s = connectors st) by done.
  assert (Hlog : log s = log st) by done.
  assert (Hreq : requests s = requests st) by done.
  rewrite Hcon in Hw, Hcs. rewrite Hlog, Hcon in Hl. rewrite Hreq in Hq.
  clear Hcon Hlog Hreq. clearbody s.
  assert (Hr1 : requests (set_sessionPromise (Some sp) s1) !! r = Some rq).
  { cbn [requests set_sessionPromise]. by rewrite Hq. }
  destruct (if strictEq (method rq) "eth_sendTransaction"
            then pushed (init_hex init) rq else Normal rq) as [rq'|e] eqn:Hsent.
  - destruct (chain_registers r cb rq rq' (init_hex init) sp _
                (set_sessionPromise (Some sp) s1) Hr1 Hn Hsent Hsp)
      as (st' & -> & (Hg1 & Hg2 & Hg3) & Hl' & Hq' & Hreg & Hdrop & Hkept).
    cbn [sessionPromise webconnector connectors promises requests log set_sessionPromise]
      in *.
    unfold registered in Hreg.
    cbn [sessionPromise webconnector connectors promises microtasks requests log
         set_sessionPromise] in Hreg.
    rewrite Hsp in Hreg. destruct Hreg as [Hreg _]. rewrite Hlen in *.
    eexists sp, _, c. split; [reflexivity|].
    split; [done|]. split; [lia|]. split; [congruence|]. split; [congruence|].
    split; [done|]. split; [congruence|]. split; [by rewrite Hq', Hq|].
    split; [exact Hreg|exact Hdrop].
  - rewrite (chain_throws r cb rq (init_hex init) sp e _ Hr1 Hsent).
    cbn [sessionPromise webconnector connectors promises requests log set_sessionPromise
         set_log].
    eexists sp, _, c. split; [reflexivity|].
    cbn [sessionPromise webconnector connectors promises requests log set_sessionPromise
         set_log].
    split; [done|]. split; [lia|]. split; [done|]. split; [done|]. split; [done|].
    split; [by rewrite Hl, <- app_assoc|]. split; [done|exact Hsp].
Qed.

(** ** The stored future is a promise of the store *)

#[global] Instance promisesGrow_preorder : PreOrder promisesGrow.
Proof.
  split; [intros st | intros a b c Hab Hbc]; unfold promisesGrow in *; lia.
Qed.

Ltac grow_prim := unfold promisesGrow; simpl; len; lia.

Lemma promisesGrow_settle p o : respects promisesGrow (settle p o).
Proof. intros st. unfold exec, settle, enqueue. run_js; grow_prim. Qed.

Lemma promisesGrow_subscribe p r : respects promisesGrow (subscribe p r).
Proof. intros st. unfold exec, subscribe, enqueue. run_js; grow_prim. Qed.

Create HintDb grow discriminated.
#[global] Hint Resolve promisesGrow_settle promisesGrow_subscribe : grow.
#[global] Hint Unfold newPromise newExternalPromise enqueue resolve reject
  then_ catch_ adopt promiseResolve readRequest getCallback callHook modalOpen modalClose
  newXMLHttpRequest updateXhr prepareRequest xhrSend _sendAsync onreadystatechange ontimeout
  on createSession payloadAccounts emit : grow.

Ltac grows :=
  repeat (autounfold with grow; respects_with grow_prim; try solve [auto with grow]).

Lemma promisesGrow_runJob j b : respects promisesGrow (guarded (runJob j b)).
Proof. unfold runJob, handlerFor, runHandler. grows. Qed.

Lemma promisesGrow_sendAsync self r cb init :
  respects promisesGrow (guarded (sendAsync self r cb init)).
Proof.
  unfold sendAsync, ensureSession, createWebconnector, newWalletConnect, pushChainId.
  grows.
Qed.

Lemma promisesGrow_listeners ls error payload :
  respects promisesGrow (guarded (forEach ls (fun f => runListener f error payload))).
Proof. unfold runListener. grows. Qed.

Ltac grow_toplevel :=
  match goal with
  | |- promisesGrow _ (toplevel ?m ?s) => apply (respects_toplevel promisesGrow m s)
  end;
  rapply respects_guarded; [|intros ?];
  try unfold disconnect; try unfold runAbort; grows.

Lemma promisesGrow_step l st st' : step l st = Some st' → promisesGrow st st'.
Proof.
  destruct l; simpl; intros Hs; repeat case_match; simplify_eq.
  - grow_prim.
  - apply promisesGrow_sendAsync.
  - grow_toplevel.
  - etrans; [|apply promisesGrow_runJob]. grow_prim.
  - grow_toplevel.
  - grow_prim.
  - apply promisesGrow_listeners.
  - etrans; [|grow_toplevel]. grow_prim.
  - grow_toplevel.
  - grow_toplevel.
  - grow_prim.
Qed.

Lemma plain_dispatch_globals self r cb init rq st :
  requests st !! r = Some rq →
  needsSession (method rq) = false →
  sameGlobals st (toplevel (sendAsync self r cb init) st).
Proof.
  intros Hr Hn. unfold needsSession in Hn. unfold sendAsync.
  erewrite toplevel_bind by apply promiseResolve_eq.
  erewrite toplevel_bind by (by apply readRequest_eq).
  rewrite Hn.
  etrans; [|apply (respects_toplevel sameGlobals)]; [done|].
  respects_auto ltac:(by repeat split).
Qed.

Lemma slotInStore_step l st st' : slotInStore st → step l st = Some st' → slotInStore st'.
Proof.
  intros Hin Hstep sp' Hs'.
  pose proof (promisesGrow_step _ _ _ Hstep) as Hgrow. unfold promisesGrow in Hgrow.
  destruct (sessionPromise st) as [sp|] eqn:Hs.
  - destruct (step_in_flight l st st') as ([H1|H1] & _); [congruence|done| |congruence].
    rewrite H1 in Hs'. specialize (Hin _ Hs'). lia.
  - destruct (dispatch_or_not l) as [(self & r & cb & init & ->)|Hl].
    + simpl in Hstep. destruct (requests st !! r) as [rq|] eqn:Hr; [|done].
      destruct (needsSession (method rq)) eqn:Hn.
      * destruct (dispatch_negotiates self r cb init rq st Hr Hn Hs)
          as (sp & st1 & c & Hstep1 & Hs1 & _ & _ & _ & _ & Hcase).
        simpl in Hstep1. rewrite Hr in Hstep1.
        assert (st1 = st') as -> by congruence.
        rewrite Hs1 in Hs'. injection Hs' as <-.
        destruct (if strictEq (method rq) "eth_sendTransaction"
                  then pushed (init_hex init) rq else Normal rq) as [rq'|e].
        -- destruct Hcase as (_ & _ & Hp & _). by eapply lookup_lt_Some.
        -- destruct Hcase as (_ & _ & Hp). by eapply lookup_lt_Some.
      * injection Hstep as <-.
        destruct (plain_dispatch_globals self r cb init rq st Hr Hn) as (H1 & _).
        congruence.
    + destruct (step_slot l st st' Hstep Hl) as [(H1 & _)|(H1 & _)]; congruence.
Qed.

(** In every state the caller and the environment can reach, the stored
    session future is a promise of the store. *)
Lemma slotInStore_run tr st st' : slotInStore st → run tr st = Some st' → slotInStore st'.
Proof.
  revert st. induction tr as [|l tr IH]; simpl; intros st Hin Hr.
  - by simplify_eq.
  - destruct (step l st) as [st1|] eqn:Hs; [|done].
    eapply IH; [|exact Hr]. by eapply slotInStore_step.
Qed.

Lemma slotInStore_initial : slotInStore initial.
Proof. by intros sp. Qed.

(** ** Concurrent dispatches share one negotiation *)

Lemma registered_exists st st' p rn :
  registered st st' p rn → ∃ pr, promises st' !! p = Some pr.
Proof.
  unfold registered. destruct (promises st !! p) as [[[|v|e] rs x]|]; [| | |done].
  - intros [H _]. by eexists.
  - intros [H _]. by eexists.
  - intros [H _]. by eexists.
Qed.

(** Dispatches on the session paths made one after the other while a
    session future is stored: each finds that future and chains on it. *)
Lemma later_calls_join calls st sp :
  sessionPromise st = Some sp →
  is_Some (promises st !! sp) →
  Forall (sessionCall st) calls →
  ∃ st',
    run (dispatch <$> calls) st = Some st' ∧
    sameGlobals st st' ∧
    createSessions (log st') = createSessions (log st) ∧
    ∀ pre c post, calls = pre ++ c :: post →
      ∃ stb sti rq,
        run (dispatch <$> pre) st = Some stb ∧
        step (dispatch c) stb = Some sti ∧
        requests stb !! call_payload c = Some rq ∧
        ensureSession (call_self c) (call_init c) stb = (Normal sp, stb) ∧
        sameGlobals st sti ∧
        ∀ rq',
          (if strictEq (method rq) "eth_sendTransaction"
           then pushed (init_hex (call_init c)) rq else Normal rq) = Normal rq' →
          registered stb sti sp
            (firstReaction rq (call_payload c) (call_callback c) (S (length (promises stb)))).
Proof.
  revert st. induction calls as [|c calls IH]; intros st Hs [pr Hp] Hall.
  - exists st. repeat split; try done. intros pre c post Heq. by destruct pre.
  - inversion_clear Hall as [|?? (rq & Hr & Hn) Hall'].
    rename Hall' into Hall.
    destruct (dispatch_registers (call_self c) _ (call_callback c) (call_init c) _ _ _ _
                Hr Hn Hs Hp)
      as (st1 & Hstep & Hg & _ & Hcase).
    assert (Hs1 : sessionPromise st1 = Some sp) by (destruct Hg as (-> & _); done).
    assert (Hl : createSessions (log st1) = createSessions (log st)).
    { destruct (if strictEq (method rq) "eth_sendTransaction"
                then pushed (init_hex (call_init c)) rq else Normal rq) as [rq'|e].
      - destruct Hcase as (-> & _). done.
      - subst st1. cbn [log set_log set_promises]. by rewrite createSessions_snoc. }
    assert (Hp1 : is_Some (promises st1 !! sp)).
    { destruct (if strictEq (method rq) "eth_sendTransaction"
                then pushed (init_hex (call_init c)) rq else Normal rq) as [rq'|e].
      - destruct Hcase as (_ & _ & Hreg & _).
        destruct (registered_exists _ _ _ _ Hreg) as [pr1 H1]. by exists pr1.
      - subst st1. cbn [promises set_log set_promises]. exists pr.
        by apply lookup_app_l_Some. }
    assert (Hall1 : Forall (sessionCall st1) calls).
    { eapply List.Forall_impl; [|exact Hall]. intros c'. apply sessionCall_kept.
      by eapply requestsKept_step. }
    destruct (IH st1 Hs1 Hp1 Hall1) as (st' & Hrun & Hg' & Hl' & Hsplit).
    exists st'. split; [|split; [|split]].
    + by rewrite (run_dispatch_cons _ _ _ _ Hstep).
    + by etrans.
    + congruence.
    + intros pre c' post Heq. destruct pre as [|c0 pre]; simpl in Heq; simplify_eq.
      * exists st, st1, rq. split; [done|]. split; [done|]. split; [done|].
        split; [by apply ensureSession_stored|]. split; [done|].
        intros rq' Hsent. rewrite Hsent in Hcase. by destruct Hcase as (_ & _ & Hreg & _).
      * destruct (Hsplit pre c' post eq_refl)
          as (stb & sti & rq1 & Hb & Hi & Hr1 & He & Hgi & Hreg).
        exists stb, sti, rq1. rewrite (run_dispatch_cons _ _ _ _ Hstep).
        do 4 (split; [done|]). split; [by etrans|done].
Qed.

(** C1.  Dispatches that need the session, made while no session future is
    stored, start exactly one negotiation.  The first call builds the one
    connector from the instance it is called on, requests the session from
    the pairing transport (once, and only where the library found no
    connection), stores the future in [sessionPromise] and is the first to
    chain on it.  For every later call lines 272-276 return that same
    future without touching the state, and the call chains its first
    reaction on it; no connector is built and no session requested.  The
    same holds whatever the caller and the environment do in between, as
    long as a future stays stored: the future is the same one, and a
    dispatch made in any such state finds it and chains on it. *)
Theorem negotiation_started_once (c0 : Call) (calls : list Call) (st : State) :
  sessionPromise st = None →
  Forall (sessionCall st) (c0 :: calls) →
  ∃ sp st1 st' c,
    step (dispatch c0) st = Some st1 ∧
    sessionPromise st1 = Some sp ∧
    length (promises st) < sp ∧
    webconnector st1 = Some (length (connectors st)) ∧
    connectors st1 = connectors st ++ [c] ∧
    builtConnector (call_self c0) (call_init c0) c ∧
    createSessions (log st1) =
      createSessions (log st) ++
        (if init_connected (call_init c0) then []
         else [CreateSession (length (connectors st)) (length (promises st) + 3)]) ∧
    (∀ rq rq',
       requests st !! call_payload c0 = Some rq →
       (if strictEq (method rq) "eth_sendTransaction"
        then pushed (init_hex (call_init c0)) rq else Normal rq) = Normal rq' →
       promises st1 !! sp
       = Some {| pstate := Pending;
                 reactions := [firstReaction rq (call_payload c0) (call_callback c0) (S sp)];
                 external := false |}) ∧
    run (dispatch <$> calls) st1 = Some st' ∧
    sameGlobals st1 st' ∧
    createSessions (log st') = createSessions (log st1) ∧
    (∀ pre c post, calls = pre ++ c :: post →
       ∃ stb sti rq,
         run (dispatch <$> pre) st1 = Some stb ∧
         step (dispatch c) stb = Some sti ∧
         requests stb !! call_payload c = Some rq ∧
         ensureSession (call_self c) (call_init c) stb = (Normal sp, stb) ∧
         sameGlobals st1 sti ∧
         ∀ rq',
           (if strictEq (method rq) "eth_sendTransaction"
            then pushed (init_hex (call_init c)) rq else Normal rq) = Normal rq' →
           registered stb sti sp
             (firstReaction rq (call_payload c) (call_callback c)
                (S (length (promises stb))))) ∧
    (∀ tr st2,
       run tr st1 = Some st2 →
       slotHeld tr st1 →
       sessionPromise st2 = Some sp ∧
       length (connectors st2) = length (connectors st1) ∧
       createSessions (log st2) = createSessions (log st1)) ∧
    (∀ self r cb init rq pr st2,
       sessionPromise st2 = Some sp →
       promises st2 !! sp = Some pr →
       requests st2 !! r = Some rq →
       needsSession (method rq) = true →
       ∃ st3,
         step (Dispatch self r cb init) st2 = Some st3 ∧
         ensureSession self init st2 = (Normal sp, st2) ∧
         sameGlobals st2 st3 ∧
         createSessions (log st3) = createSessions (log st2) ∧
         ∀ rq',
           (if strictEq (method rq) "eth_sendTransaction"
            then pushed (init_hex init) rq else Normal rq) = Normal rq' →
           registered st2 st3 sp (firstReaction rq r cb (S (length (promises st2))))).
Proof.
  intros Hs Hall.
  inversion_clear Hall as [|?? (rq & Hr & Hn) Hall'].
  rename Hall' into Hall.
  destruct (dispatch_negotiates (call_self c0) _ (call_callback c0) (call_init c0) _ _
              Hr Hn Hs)
    as (sp & st1 & c & Hstep & Hs1 & Hlt & Hw & Hcs & Hb & Hcase).
  assert (Hl : createSessions (log st1) =
               createSessions (log st) ++
                 (if init_connected (call_init c0) then []
                  else [CreateSession (length (connectors st)) (length (promises st) + 3)])).
  { destruct (if strictEq (method rq) "eth_sendTransaction"
              then pushed (init_hex (call_init c0)) rq else Normal rq) as [rq'|e].
    - destruct Hcase as (-> & _). rewrite createSessions_app.
      by destruct (init_connected (call_init c0)).
    - destruct Hcase as (-> & _). rewrite !createSessions_app.
      destruct (init_connected (call_init c0)); by rewrite ?app_nil_r. }
  assert (Hp1 : is_Some (promises st1 !! sp)).
  { destruct (if strictEq (method rq) "eth_sendTransaction"
              then pushed (init_hex (call_init c0)) rq else Normal rq) as [rq'|e].
    - destruct Hcase as (_ & _ & -> & _). by eexists.
    - destruct Hcase as (_ & _ & ->). by eexists. }
  assert (Hall1 : Forall (sessionCall st1) calls).
  { eapply List.Forall_impl; [|exact Hall]. intros c'. apply sessionCall_kept.
    by eapply requestsKept_step. }
  destruct (later_calls_join calls st1 sp Hs1 Hp1 Hall1) as (st' & Hrun & Hg & Hl' & Hsplit).
  exists sp, st1, st', c. do 7 (split; [done|]). split.
  { intros rq0 rq' Hr0 Hsent. rewrite Hr in Hr0. simplify_eq. rewrite Hsent in Hcase.
    by destruct Hcase as (_ & _ & -> & _). }
  do 4 (split; [done|]). split.
  - intros tr st2 Hrun2 Hheld. by apply (one_negotiation_in_flight tr st1 st2 sp).
  - intros self r cb init rq2 pr st2 Hs2 Hp2 Hr2 Hn2.
    destruct (dispatch_registers self r cb init rq2 st2 sp pr Hr2 Hn2 Hs2 Hp2)
      as (st3 & Hstep3 & Hg3 & _ & Hcase3).
    exists st3. split; [done|]. split; [by apply ensureSession_stored|]. split; [done|].
    destruct (if strictEq (method rq2) "eth_sendTransaction"
              then pushed (init_hex init) rq2 else Normal rq2) as [rq'|e].
    + destruct Hcase3 as (-> & _ & Hreg & _). split; [done|]. intros ? _. done.
    + subst st3. cbn [log set_log set_promises]. split; [by rewrite createSessions_snoc|].
      intros ? ?. done.
Qed.

(** ** The accounts query *)

Lemma drop_lookup_head {A} (l : list A) n x xs : drop n l = x :: xs → l !! n = Some x.
Proof.
  intros H. rewrite <- (Nat.add_0_r n), <- lookup_drop. by rewrite H.
Qed.

(** C3, as the code has it.  An [eth_accounts] dispatch does not call the
    callback itself.  With a session future stored it only chains its two
    reactions on that future; with none stored it starts the negotiation
    (a connector is built and made the current one, the session is
    requested where the library found no connection) and chains them on
    the new future.  When the future is fulfilled the callback gets no
    error and the [accounts] of the session of the current connector, or
    the empty list where that is missing or there is no connector or no
    session; when the future is rejected the callback gets the error. *)
Theorem accounts_query_outcomes (r : Ref) (cb : Fn) (rq : Payload) (st : State) :
  requests st !! r = Some rq →
  (∀ self init sp pr,
     method rq = VStr "eth_accounts" →
     sessionPromise st = Some sp →
     promises st !! sp = Some pr →
     ∃ st',
       step (Dispatch self r cb init) st = Some st' ∧
       log st' = log st ∧
       sameGlobals st st' ∧
       registered st st' sp
         {| onFulfilled := Some (Accounts r cb); onRejected := None;
            derived := S (length (promises st)) |} ∧
       promises st' !! S (length (promises st)) =
         Some {| pstate := Pending;
                 reactions :=
                   [{| onFulfilled := None; onRejected := Some (AccountsCatch r cb);
                       derived := S (S (length (promises st))) |}];
                 external := false |}) ∧
  (∀ self init,
     method rq = VStr "eth_accounts" →
     sessionPromise st = None →
     ∃ sp st' c,
       step (Dispatch self r cb init) st = Some st' ∧
       sessionPromise st' = Some sp ∧
       webconnector st' = Some (length (connectors st)) ∧
       connectors st' = connectors st ++ [c] ∧
       builtConnector self init c ∧
       log st' =
         log st ++
           (if init_connected init then []
            else [CreateSession (length (connectors st)) (length (promises st) + 3)]) ∧
       promises st' !! sp =
         Some {| pstate := Pending;
                 reactions :=
                   [{| onFulfilled := Some (Accounts r cb); onRejected := None;
                       derived := S sp |}];
                 external := false |} ∧
       promises st' !! S sp =
         Some {| pstate := Pending;
                 reactions :=
                   [{| onFulfilled := None; onRejected := Some (AccountsCatch r cb);
                       derived := S (S sp) |}];
                 external := false |}) ∧
  (∀ v b, ∃ res,
     runHandler (Accounts r cb) v b st
     = (Normal (RetValue VUndefined),
        set_log (log st ++ [Callback cb VNull (response rq res)]) st) ∧
     (webconnector st = None → res = VArr []) ∧
     (∀ k c, webconnector st = Some k → connectors st !! k = Some c →
             truthy (session c) = false → res = VArr []) ∧
     (∀ k c a, webconnector st = Some k → connectors st !! k = Some c →
               truthy (session c) = true →
               getProp (session c) "accounts" = Normal a →
               res = if truthy a then a else VArr [])) ∧
  (∀ e b,
     runHandler (AccountsCatch r cb) e b st
     = (Normal (RetValue VUndefined),
        set_log (log st ++ [Callback cb e (response rq VUndefined)]) st)).
Proof.
  intros Hr. split; [|split; [|split]].
  - intros self init sp pr Hm Hs Hp.
    destruct (dispatch_registers self r cb init rq st sp pr Hr)
      as (st' & Hstep & Hg & _ & Hcase); [by rewrite Hm|done|done|].
    unfold firstReaction, answerChain in Hcase. rewrite Hm in Hcase.
    change (strictEq (VStr "eth_accounts") "eth_sendTransaction") with false in Hcase.
    change (indexOf walletconnectMethods (VStr "eth_accounts") >? -1)%Z with false in Hcase.
    cbv iota in Hcase. destruct Hcase as (Hl & _ & Hreg & Hdrop).
    exists st'. do 4 (split; [done|]).
    rewrite (drop_lookup_head _ _ _ _ Hdrop). by rewrite Nat.add_1_r.
  - intros self init Hm Hs.
    destruct (dispatch_negotiates self r cb init rq st Hr)
      as (sp & st' & c & Hstep & Hs' & _ & Hw & Hcs & Hb & Hcase); [by rewrite Hm|done|].
    unfold firstReaction, answerChain in Hcase. rewrite Hm in Hcase.
    change (strictEq (VStr "eth_accounts") "eth_sendTransaction") with false in Hcase.
    change (indexOf walletconnectMethods (VStr "eth_accounts") >? -1)%Z with false in Hcase.
    cbv iota in Hcase. destruct Hcase as (Hl & _ & Hreg & Hdrop).
    exists sp, st', c. do 7 (split; [done|]).
    rewrite (drop_lookup_head _ _ _ _ Hdrop). by rewrite Nat.add_1_r.
  - intros v b. unfold runHandler, getCallback, emit.
    erewrite bind_eq by reflexivity.
    destruct (webconnector st) as [k|] eqn:Hw.
    + destruct (connectors st !! k) as [c|] eqn:Hc.
      * destruct (truthy (session c)) eqn:Ht.
        -- eexists. split.
           { erewrite bind_eq by (erewrite bind_eq by (by apply readRequest_eq); reflexivity).
             reflexivity. }
           split; [congruence|]. split.
           ++ intros k' c' Hw' Hc' Ht'. simplify_eq. congruence.
           ++ intros k' c' a Hw' Hc' Ht' Ha. simplify_eq. by rewrite Ha.
        -- exists (VArr []). split; [|split; [|split]]; [|done|done|].
           ++ erewrite bind_eq by (erewrite bind_eq by (by apply readRequest_eq); reflexivity).
              reflexivity.
           ++ intros k' c' a Hw' Hc' Ht' Ha. simplify_eq. congruence.
      * exists (VArr []). split; [|split; [|split]]; [|done|done|].
        -- erewrite bind_eq by (erewrite bind_eq by (by apply readRequest_eq); reflexivity).
           reflexivity.
        -- intros k' c' a Hw' Hc' Ht' Ha. simplify_eq.
    + exists (VArr []). split; [|split; [|split]]; [|done|done|].
      * erewrite bind_eq by (erewrite bind_eq by (by apply readRequest_eq); reflexivity).
        reflexivity.
      * intros k' c' a Hw' Hc' Ht' Ha. simplify_eq.
  - intros e b. unfold runHandler, getCallback, emit.
    erewrite bind_eq by (erewrite bind_eq by (by apply readRequest_eq); reflexivity).
    reflexivity.
Qed.

(** ** Responses echo the request *)

Lemma registered_waitsOn st st' p rn : registered st st' p rn → waitsOn st' p rn.
Proof.
  unfold registered, waitsOn.
  destruct (promises st !! p) as [[[|v|e] rs x]|] eqn:Hp; [| | |done].
  - intros [-> _]. apply elem_of_app. right. by left.
  - intros [-> ->]. apply elem_of_app. right. by left.
  - intros [-> ->]. apply elem_of_app. right. by left.
Qed.

(** The reactions that call the callback read [id] and [jsonrpc] off the
    request object when they run, and no step changes those two fields. *)
Lemma session_reactions_echo (tr : list Label) (st st' : State) (r : Ref) (cb : Fn)
    (rq : Payload) :
  requests st !! r = Some rq →
  run tr st = Some st' →
  ∀ h arg b, h ∈ sessionReactions r cb →
    ∃ err result,
      runHandler h arg b st'
      = (Normal (RetValue VUndefined),
         set_log (log st' ++
           [Callback cb err
              (VObj [("id", id rq); ("jsonrpc", jsonrpc rq); ("result", result)])]) st').
Proof.
  intros Hr Hrun h arg b Hh.
  destruct (requestsKept_run _ _ _ Hrun r rq Hr) as (q & Hq & Hid & Hver & _).
  rewrite <- Hid, <- Hver.
  unfold sessionReactions in Hh.
  repeat (apply elem_of_cons in Hh as [->|Hh]); [..|by apply elem_of_nil in Hh];
    unfold runHandler, getCallback, emit; eexists _, _;
    try erewrite (bind_eq get) by reflexivity; cbv zeta;
    (erewrite bind_eq by (erewrite bind_eq by (by apply readRequest_eq); reflexivity));
    reflexivity.
Qed.

Lemma chainHandlers_answer rq r cb q1 h :
  h ∈ chainHandlers rq r cb q1 → h = SendCustom r ∨ h ∈ sessionReactions r cb.
Proof.
  unfold chainHandlers, firstReaction, answerChain, handlersOf, sessionReactions.
  destruct (indexOf walletconnectMethods (method rq) >? -1)%Z; simpl; intros Hh;
    repeat (apply elem_of_cons in Hh as [->|Hh]); try (by left);
    try (by apply elem_of_nil in Hh); right; repeat constructor.
Qed.

(** C6.  A dispatch on a session path registers reactions of its own
    request and its own callback: the first on the session future, the
    others chained behind it in the promises the call creates.  Whenever
    one of them calls the callback, after whatever happened in between,
    the object handed over carries the [id] and the [jsonrpc] the request
    had when it was dispatched, on the success and on the error outcome
    alike.  Where line 281 throws, nothing is registered and the exception
    leaves the call.  The state of the dispatch is any state the caller
    and the environment can reach. *)
Theorem response_echoes_request (tr0 : list Label) (self : WalletConnectProvider)
    (r : Ref) (cb : Fn) (init : ConnInit) (rq : Payload) (st : State) :
  run tr0 initial = Some st →
  requests st !! r = Some rq →
  needsSession (method rq) = true →
  ∃ st1,
    step (Dispatch self r cb init) st = Some st1 ∧
    match (if strictEq (method rq) "eth_sendTransaction"
           then pushed (init_hex init) rq else Normal rq) with
    | Normal _ =>
        ∃ sp q1,
          sessionPromise st1 = Some sp ∧
          waitsOn st1 sp (firstReaction rq r cb q1) ∧
          drop q1 (promises st1) = answerChain rq r cb q1 ∧
          ∀ tr st' h arg b,
            run tr st1 = Some st' →
            h ∈ chainHandlers rq r cb q1 →
            h ≠ SendCustom r →
            ∃ err result,
              runHandler h arg b st'
              = (Normal (RetValue VUndefined),
                 set_log (log st' ++
                   [Callback cb err
                      (VObj [("id", id rq); ("jsonrpc", jsonrpc rq); ("result", result)])])
                   st')
    | Throw e => ∃ l, log st1 = l ++ [Thrown e]
    end.
Proof.
  intros Hreach Hr Hn.
  pose proof (slotInStore_run tr0 initial st slotInStore_initial Hreach) as Hstore.
  assert (Hecho : ∀ st1, step (Dispatch self r cb init) st = Some st1 → ∀ q1 tr st' h arg b,
            run tr st1 = Some st' →
            h ∈ chainHandlers rq r cb q1 →
            h ≠ SendCustom r →
            ∃ err result,
              runHandler h arg b st'
              = (Normal (RetValue VUndefined),
                 set_log (log st' ++
                   [Callback cb err
                      (VObj [("id", id rq); ("jsonrpc", jsonrpc rq); ("result", result)])])
                   st')).
  { intros st1 Hstep q1 tr st' h arg b Hrun Hh Hne.
    apply chainHandlers_answer in Hh as [->|Hh]; [done|].
    apply (session_reactions_echo (Dispatch self r cb init :: tr) st st' r cb rq Hr);
      [|done].
    cbn [run]. by rewrite Hstep. }
  destruct (sessionPromise st) as [sp|] eqn:Hs.
  - destruct (lookup_lt_is_Some_2 _ _ (Hstore sp Hs)) as [pr Hp].
    destruct (dispatch_registers self r cb init rq st sp pr Hr Hn Hs Hp)
      as (st1 & Hstep & (Hg & _) & _ & Hcase).
    exists st1. split; [done|].
    destruct (if strictEq (method rq) "eth_sendTransaction"
              then pushed (init_hex init) rq else Normal rq) as [rq'|e].
    + destruct Hcase as (_ & _ & Hreg & Hdrop).
      exists sp, (S (length (promises st))). split; [congruence|].
      split; [by eapply registered_waitsOn|]. split; [done|].
      intros tr st' h arg b. by apply Hecho.
    + subst st1. by eexists.
  - destruct (dispatch_negotiates self r cb init rq st Hr Hn Hs)
      as (sp & st1 & c & Hstep & Hs1 & _ & _ & _ & _ & Hcase).
    exists st1. split; [done|].
    destruct (if strictEq (method rq) "eth_sendTransaction"
              then pushed (init_hex init) rq else Normal rq) as [rq'|e].
    + destruct Hcase as (_ & _ & Hreg & Hdrop).
      exists sp, (S sp). split; [done|]. split.
      { unfold waitsOn. rewrite Hreg. by left. }
      split; [done|]. intros tr st' h arg b. by apply Hecho.
    + destruct Hcase as (Hl & _). rewrite Hl, app_assoc. by eexists.
Qed.

Lemma negotiation_started_once_witness :
  ∃ sp st1 st',
    step (Dispatch hooked 0 7 fresh) threeRequests = Some st1 ∧
    run [Dispatch second 1 8 fresh; Dispatch hooked 2 9 fresh] st1 = Some st' ∧
    sessionPromise st' = Some sp ∧
    createSessions (log st') = [CreateSession 0 3].
Proof.
  destruct (negotiation_started_once
              {| call_self := hooked; call_payload := 0; call_callback := 7;
                 call_init := fresh |}
              [{| call_self := second; call_payload := 1; call_callback := 8;
                  call_init := fresh |};
               {| call_self := hooked; call_payload := 2; call_callback := 9;
                  call_init := fresh |}]
              threeRequests)
    as (sp & st1 & st' & c & Hstep & Hs1 & _ & _ & _ & _ & Hl & _ & Hrun & Hg & Hl' & _).
  - reflexivity.
  - repeat constructor; eexists; (split; [reflexivity|reflexivity]).
  - exists sp, st1, st'. split; [exact Hstep|]. split; [exact Hrun|].
    split; [destruct Hg as (Hg & _); rewrite Hg; exact Hs1|].
    rewrite Hl', Hl. reflexivity.
Defined.

Lemma accounts_query_outcomes_witness :
  ∃ sp st' c,
    step (Dispatch hooked 0 7 fresh) (after [NewRequest accountsRequest]) = Some st' ∧
    sessionPromise st' = Some sp ∧
    connectors st' = [c] ∧
    log st' = [CreateSession 0 3].
Proof.
  destruct (accounts_query_outcomes 0 7 accountsRequest (after [NewRequest accountsRequest]))
    as (_ & Hstart & _).
  - reflexivity.
  - destruct (Hstart hooked fresh) as (sp & st' & c & Hstep & Hs & _ & Hc & _ & Hl & _).
    + reflexivity.
    + reflexivity.
    + exists sp, st', c. split; [exact Hstep|]. split; [exact Hs|].
      split; [exact Hc|exact Hl].
Defined.

Lemma response_echoes_request_witness :
  ∃ err result,
    step (Dispatch hooked 0 7 fresh) (after [NewRequest accountsRequest])
    = Some (after negotiating) ∧
    run (drop 2 refusedNegotiation) (after negotiating) = Some (after refusedNegotiation) ∧
    runHandler (AccountsCatch 0 7) refused false (after refusedNegotiation)
    = (Normal (RetValue VUndefined),
       set_log (log (after refusedNegotiation) ++
         [Callback 7 err
            (VObj [("id", VNum 2); ("jsonrpc", VStr "2.0"); ("result", result)])])
         (after refusedNegotiation)).
Proof.
  destruct (response_echoes_request [NewRequest accountsRequest] hooked 0 7 fresh
              accountsRequest (after [NewRequest accountsRequest]))
    as (st1 & Hstep & Hcase).
  - reflexivity.
  - reflexivity.
  - reflexivity.
  - assert (Hc : step (Dispatch hooked 0 7 fresh) (after [NewRequest accountsRequest])
                 = Some (after negotiating)) by (vm_compute; reflexivity).
    rewrite Hc in Hstep. injection Hstep as <-.
    assert (Hrun : run (drop 2 refusedNegotiation) (after negotiating)
                   = Some (after refusedNegotiation)) by (vm_compute; reflexivity).
    assert (Hf : strictEq (method accountsRequest) "eth_sendTransaction" = false)
      by reflexivity.
    rewrite Hf in Hcase. destruct Hcase as (sp & q1 & _ & _ & _ & Hecho).
    destruct (Hecho _ _ (AccountsCatch 0 7) refused false Hrun) as (err & result & Hh).
    + unfold chainHandlers, firstReaction, answerChain, handlersOf. simpl.
      right. left.
    + discriminate.
    + exists err, result. split; [exact Hc|]. split; [exact Hrun|exact Hh].
Defined.
(** ** Signing requests *)

(** A signing request from dispatch to answer (lines 278-292), with the
    session future already fulfilled.  The first reaction hands the
    caller's request object, as it is after line 281, to
    [sendCustomRequest] of the current connector.  When the wallet answers,
    the callback is called once with no error and the answer as [result];
    when the wallet refuses, once with that error and [result: null].  Both
    answers carry the [id] and [jsonrpc] of the request. *)
Theorem signing_request_round_trip (self : WalletConnectProvider) (r : Ref) (cb : Fn)
    (init : ConnInit) (rq rq' : Payload) (st : State) (sp : PromiseId) (v : Value)
    (k : ConnId) (b : bool) :
  requests st !! r = Some rq →
  (indexOf walletconnectMethods (method rq) >? -1)%Z = true →
  (if strictEq (method rq) "eth_sendTransaction"
   then pushed (init_hex init) rq else Normal rq) = Normal rq' →
  sessionPromise st = Some sp →
  pstate <$> promises st !! sp = Some (Fulfilled v) →
  webconnector st = Some k →
  microtasks st = [] →
  ∃ st1,
    run [Dispatch self r cb init; Microtask b] st = Some st1 ∧
    log st1 = log st ++ [SendCustomRequest k rq' (length (promises st) + 4)] ∧
    (∀ result, ∃ st2,
       run (Settle (length (promises st) + 4) (Ful result) :: tasks 2) st1 = Some st2 ∧
       log st2 = log st1 ++ [Callback cb VNull (response rq result)]) ∧
    (∀ err, ∃ st2,
       run (Settle (length (promises st) + 4) (Rej err) :: tasks 3) st1 = Some st2 ∧
       log st2 = log st1 ++ [Callback cb err (response rq VNull)]).
Proof.
  intros Hr Hw Hsent Hs Hsp Hk Hq.
  pose proof (walletconnect_needs_session _ Hw) as Hn. unfold needsSession in Hn.
  destruct (promises st !! sp) as [[ps rs x]|] eqn:Hp; simpl in Hsp; simplify_eq.
  destruct st as [sP wc cs ps ms rqs md xs nw lg]. fields. subst.
  assert (Hid : response rq' = response rq).
  { destruct (strictEq (method rq) "eth_sendTransaction"); [|by simplify_eq].
    by apply pushed_Normal in Hsent as (? & ? & _ & _ & ->). }
  destruct (strictEq (method rq) "eth_sendTransaction") eqn:Htx; simplify_eq.
  all: eexists; split; [eval_run|]; fields.
  all: split; [reflexivity|]; split.
  all: intros o; eexists; (split; [eval_run|]); fields.
  all: by rewrite <- app_assoc, ?Hid.
Qed.

(** ** A session found by the connector *)

(** When [new WalletConnect] finds a session that is connected and has
    accounts (lines 214-218), nothing is asked of the pairing transport and
    no listener is registered: the future of [createWebconnector] is
    fulfilled with those accounts, and an [eth_accounts] dispatch is
    answered with them once its two queued reactions have run. *)
Theorem restored_session_answers_accounts (self : WalletConnectProvider) (r : Ref) (cb : Fn)
    (init : ConnInit) (rq : Payload) (st : State) (fs : list (string * Value))
    (a : Value) (accs : list Value) (b : bool) :
  requests st !! r = Some rq →
  method rq = VStr "eth_accounts" →
  sessionPromise st = None →
  microtasks st = [] →
  init_connected init = true →
  init_session init = VObj fs →
  assoc "accounts" fs = VArr (a :: accs) →
  ∃ st',
    run [Dispatch self r cb init; Microtask b; Microtask b] st = Some st' ∧
    log st' = log st ++ [Callback cb VNull (response rq (VArr (a :: accs)))] ∧
    sessionPromise st' = Some (length (promises st) + 2) ∧
    pstate <$> promises st' !! (length (promises st) + 2)
    = Some (Fulfilled (VArr (a :: accs))) ∧
    webconnector st' = Some (length (connectors st)) ∧
    connectors st' =
      connectors st ++
        [{| bridge := bridgeURL self; connected := true; session := VObj fs;
            uri := VUndefined; listeners := [] |}] ∧
    modal st' = modal st.
Proof.
  intros Hr Hm Hs Hq Hc Hi Hacc.
  destruct st as [sP wc cs ps ms rqs md xs nw lg]. destruct init as [ic isess ih].
  fields. cbn [init_connected init_session init_hex] in *. subst.
  eexists. split; [eval_run|]. fields.
  repeat split; try done. by ext_norm.
Qed.

(** When the session found has no accounts (lines 219-231) nothing is
    asked of the pairing transport either: the only listener registered is
    the one for [session_update].  When that event comes without an error,
    [onUpdate] is called and the future is fulfilled; the [eth_accounts]
    reaction then answers with the accounts the connector's session has at
    that moment.  When the event carries an error the callback gets that
    error. *)
Theorem restored_session_waits_for_update (self : WalletConnectProvider) (r : Ref) (cb : Fn)
    (init : ConnInit) (rq : Payload) (st : State) :
  requests st !! r = Some rq →
  method rq = VStr "eth_accounts" →
  sessionPromise st = None →
  microtasks st = [] →
  init_connected init = true →
  (truthy (init_session init) = false ∨
   ∃ fs, init_session init = VObj fs ∧ assoc "accounts" fs = VArr []) →
  ∃ st1,
    step (Dispatch self r cb init) st = Some st1 ∧
    log st1 = log st ∧
    sessionPromise st1 = Some (length (promises st) + 2) ∧
    webconnector st1 = Some (length (connectors st)) ∧
    connectors st1 =
      connectors st ++
        [{| bridge := bridgeURL self; connected := true; session := init_session init;
            uri := VUndefined;
            listeners :=
              [("session_update", OnSessionUpdate self (length (promises st) + 1))] |}] ∧
    (∀ b u fs' a accs pfs p0 more,
       assoc "accounts" fs' = VArr (a :: accs) →
       assoc "params" pfs = VArr (VObj p0 :: more) →
       ∃ st2,
         run [ConnectorChanged (length (connectors st)) true (VObj fs') u;
              Event (length (connectors st)) "session_update" VNull (VObj pfs);
              Microtask b; Microtask b] st1 = Some st2 ∧
         log st2 =
           log st ++
             match onUpdate (callbacks self) with
             | Some f => [Hook f [VNull; VObj pfs]]
             | None => []
             end ++
             [Callback cb VNull (response rq (VArr (a :: accs)))] ∧
         pstate <$> promises st2 !! (length (promises st) + 2)
         = Some (Fulfilled (assoc "accounts" p0))) ∧
    (∀ b error payload,
       truthy error = true →
       ∃ st2,
         run (Event (length (connectors st)) "session_update" error payload ::
              replicate 3 (Microtask b)) st1 = Some st2 ∧
         log st2 = log st ++ [Callback cb error (response rq VUndefined)]).
Proof.
  intros Hr Hm Hs Hq Hc Hacc.
  destruct st as [sP wc cs ps ms rqs md xs nw lg]. destruct init as [ic isess ih].
  fields. cbn [init_connected init_session init_hex] in *. subst.
  destruct Hacc as [Hno|(fs & -> & Hempty)].
  - eexists. split; [eval_step|]. fields.
    do 4 (split; [done|]). split.
    + intros b u fs' a accs pfs p0 more Hfs' Hpfs.
      eexists. split; [eval_run|]. fields.
      split; [by rewrite <- ?app_assoc|by ext_norm].
    + intros b error payload Herr.
      eexists. split; [eval_run|]. fields. by rewrite <- ?app_assoc.
  - eexists. split; [eval_step|]. fields.
    do 4 (split; [done|]). split.
    + intros b u fs' a accs pfs p0 more Hfs' Hpfs.
      eexists. split; [eval_run|]. fields.
      split; [by rewrite <- ?app_assoc|by ext_norm].
    + intros b error payload Herr.
      eexists. split; [eval_run|]. fields. by rewrite <- ?app_assoc.
Qed.

(** ** Pairing *)

Ltac log_eq :=
  fields; repeat first [rewrite <- !app_assoc | progress cbn [app]]; rewrite ?app_nil_r;
  reflexivity.

(** The negotiation of lines 143-211 from dispatch to answer.  The
    dispatch asks the pairing transport for a session.  When that succeeds
    [onCreate] is called with the connector's URI and, if the instance
    shows the QR code, the modal is opened on it.  When the wallet then
    approves, [onConnect] is called, the modal is closed and the
    [eth_accounts] callback gets the accounts of the connector's session.
    When the wallet refuses, the callback gets that error, and the rejected
    future stays stored in [sessionPromise]. *)
Theorem pairing_reaches_the_callback (self : WalletConnectProvider) (r : Ref) (cb : Fn)
    (init : ConnInit) (rq : Payload) (st : State) :
  requests st !! r = Some rq →
  method rq = VStr "eth_accounts" →
  sessionPromise st = None →
  microtasks st = [] →
  init_connected init = false →
  ∃ st1,
    step (Dispatch self r cb init) st = Some st1 ∧
    log st1 = log st ++ [CreateSession (length (connectors st)) (length (promises st) + 3)] ∧
    sessionPromise st1 = Some (length (promises st) + 6) ∧
    webconnector st1 = Some (length (connectors st)) ∧
    ∀ b u s0 x,
      ∃ st2,
        run [ConnectorChanged (length (connectors st)) false s0 u;
             Settle (length (promises st) + 3) (Ful x); Microtask b; Microtask b] st1
        = Some st2 ∧
        log st2 =
          log st1 ++
            match onCreate (callbacks self) with Some f => [Hook f [u]] | None => [] end ++
            (if showQRCode self then [ModalOpen u] else []) ∧
        modal st2 = (if showQRCode self then Some (OnModalAbort self u) else modal st) ∧
        (∀ fs a accs pfs p0 more,
           assoc "accounts" fs = VArr (a :: accs) →
           assoc "params" pfs = VArr (VObj p0 :: more) →
           ∃ st3,
             run (ConnectorChanged (length (connectors st)) true (VObj fs) u ::
                  Event (length (connectors st)) "connect" VNull (VObj pfs) ::
                  replicate 4 (Microtask b)) st2 = Some st3 ∧
             log st3 =
               log st2 ++
                 match onConnect (callbacks self) with
                 | Some f => [Hook f [VNull; VObj pfs]]
                 | None => []
                 end ++
                 (if showQRCode self then [ModalClose] else []) ++
                 [Callback cb VNull (response rq (VArr (a :: accs)))] ∧
             pstate <$> promises st3 !! (length (promises st) + 6)
             = Some (Fulfilled (assoc "accounts" p0))) ∧
        (∀ error payload,
           truthy error = true →
           ∃ st3,
             run (Event (length (connectors st)) "connect" error payload ::
                  replicate 5 (Microtask b)) st2 = Some st3 ∧
             log st3 = log st2 ++ [Callback cb error (response rq VUndefined)] ∧
             sessionPromise st3 = Some (length (promises st) + 6) ∧
             pstate <$> promises st3 !! (length (promises st) + 6)
             = Some (Rejected error)).
Proof.
  intros Hr Hm Hs Hq Hc.
  destruct st as [sP wc cs ps ms rqs md xs nw lg]. destruct init as [ic isess ih].
  fields. cbn [init_connected init_session init_hex] in *. subst.
  destruct (showQRCode self) eqn:Hqr.
  all: eexists; split; [eval_step|]; fields; do 3 (split; [done|]).
  all: intros b u s0 x; eexists; split; [eval_run|].
  all: split; [log_eq|]; split; [done|]; split.
  1,3: intros fs a accs pfs p0 more Hfs Hpfs; eexists; (split; [eval_run|]);
       (split; [log_eq|]); fields; by ext_norm.
  all: intros error payload Herr; eexists; (split; [eval_run|]).
  all: split; [log_eq|]; split; [done|]; fields; by ext_norm.
Qed.

(** A signing request dispatched with no session is held back until the
    wallet has approved, for each of the six methods of the signing
    session ([rq'] is the request object as line 281 leaves it: the object
    itself, and for [eth_sendTransaction] the object with the string of the
    library appended).  The dispatch only starts the negotiation; while
    the pairing is shown nothing is sent to the wallet; once the connect
    event has come the request object is handed to [sendCustomRequest] of
    the connector, and the wallet's answer reaches the callback. *)
Theorem signing_waits_for_the_session (self : WalletConnectProvider) (r : Ref) (cb : Fn)
    (init : ConnInit) (rq rq' : Payload) (st : State) :
  requests st !! r = Some rq →
  (indexOf walletconnectMethods (method rq) >? -1)%Z = true →
  (if strictEq (method rq) "eth_sendTransaction"
   then pushed (init_hex init) rq else Normal rq) = Normal rq' →
  sessionPromise st = None →
  microtasks st = [] →
  init_connected init = false →
  ∀ b u s0 x,
    ∃ st1,
      run [Dispatch self r cb init;
           ConnectorChanged (length (connectors st)) false s0 u;
           Settle (length (promises st) + 3) (Ful x); Microtask b; Microtask b] st
      = Some st1 ∧
      microtasks st1 = [] ∧
      log st1 =
        log st ++
          [CreateSession (length (connectors st)) (length (promises st) + 3)] ++
          match onCreate (callbacks self) with Some f => [Hook f [u]] | None => [] end ++
          (if showQRCode self then [ModalOpen u] else []) ∧
      ∀ s1 pfs p0 more,
        assoc "params" pfs = VArr (VObj p0 :: more) →
        ∃ st2,
          run (ConnectorChanged (length (connectors st)) true s1 u ::
               Event (length (connectors st)) "connect" VNull (VObj pfs) ::
               replicate 4 (Microtask b)) st1 = Some st2 ∧
          log st2 =
            log st1 ++
              match onConnect (callbacks self) with
              | Some f => [Hook f [VNull; VObj pfs]]
              | None => []
              end ++
              (if showQRCode self then [ModalClose] else []) ++
              [SendCustomRequest (length (connectors st)) rq' (length (promises st) + 12)] ∧
          ∀ result,
            ∃ st3,
              run (Settle (length (promises st) + 12) (Ful result) ::
                   replicate 2 (Microtask b)) st2 = Some st3 ∧
              log st3 = log st2 ++ [Callback cb VNull (response rq result)].
Proof.
  intros Hr Hw Hsent Hs Hq Hc b u s0 x.
  pose proof (walletconnect_needs_session _ Hw) as Hn. unfold needsSession in Hn.
  destruct st as [sP wc cs ps ms rqs md xs nw lg]. destruct init as [ic isess ih].
  fields. cbn [init_connected init_session init_hex] in *. subst.
  assert (Hid : response rq' = response rq).
  { destruct (strictEq (method rq) "eth_sendTransaction"); [|by simplify_eq].
    by apply pushed_Normal in Hsent as (? & ? & _ & _ & ->). }
  destruct (strictEq (method rq) "eth_sendTransaction") eqn:Htx; simplify_eq.
  all: destruct (showQRCode self) eqn:Hqr.
  all: eexists; split; [eval_run|]; split; [done|]; split; [log_eq|].
  all: intros s1 pfs p0 more Hpfs; eexists; (split; [eval_run|]); split; [log_eq|].
  all: intros result; eexists; (split; [eval_run|]); rewrite ?Hid; log_eq.
Qed.

(** ** Abort, then a late approval *)


(** ** A connect event that names no accounts *)

(** The connect listener (lines 146-162) reads the accounts from
    [payload.params[0]] after it has called [onConnect] and closed the
    modal.  When the event has no error and its payload has no [params],
    that read throws: the exception leaves the listener, and the promise
    the negotiation waits on is not settled. *)
Theorem connect_event_without_params_throws (self : WalletConnectProvider) (k : ConnId)
    (d : PromiseId) (pfs : list (string * Value)) (st : State) :
  listenersFor "connect" <$> connectors st !! k = Some [OnConnect self d] →
  assoc "params" pfs = VUndefined →
  ∃ st',
    step (Event k "connect" VNull (VObj pfs)) st = Some st' ∧
    log st' =
      log st ++
        match onConnect (callbacks self) with
        | Some f => [Hook f [VNull; VObj pfs]]
        | None => []
        end ++
        (if showQRCode self then [ModalClose] else []) ++ [Thrown TypeError] ∧
    promises st' = promises st ∧ microtasks st' = microtasks st ∧ sameSlot st st'.
Proof.
  intros Hl Hp. destruct (connectors st !! k) as [c|] eqn:Hc; [|done].
  simpl in Hl. injection Hl as Hl.
  destruct st as [sP wc cs ps ms rqs md xs nw lg]. fields.
  destruct (showQRCode self) eqn:Hqr.
  all: eexists; split; [eval_step|]; split; [log_eq|]; by repeat split.
Qed.

(** ** A dispatch always hands back a promise *)

Lemma then__returns p h st : ∃ q st', then_ p h st = (Normal q, st').
Proof.
  unfold then_, newPromise, subscribe, enqueue.
  unfold mbind, M_bind, bind, get, modify, ret. simpl.
  repeat case_match; simplify_eq; eexists _, _; reflexivity.
Qed.

Lemma catch__returns p h st : ∃ q st', catch_ p h st = (Normal q, st').
Proof.
  unfold catch_, newPromise, subscribe, enqueue.
  unfold mbind, M_bind, bind, get, modify, ret. simpl.
  repeat case_match; simplify_eq; eexists _, _; reflexivity.
Qed.

(** The three routes of [sendAsync] cover every request: a method in
    [supportedMethods] is in [walletconnectMethods] or is [eth_accounts],
    so the function never falls through to its end without a [return].  A
    dispatch either throws or hands back the promise at the end of its
    chain. *)
Theorem dispatch_returns_a_promise (self : WalletConnectProvider) (r : Ref) (cb : Fn)
    (init : ConnInit) (st : State) :
  match (sendAsync self r cb init st).1 with
  | Normal (Some _) | Throw _ => True
  | Normal None => False
  end.
Proof.
  unfold sendAsync. erewrite bind_eq by apply promiseResolve_eq.
  destruct (requests st !! r) as [rq|] eqn:Hr.
  2:{ erewrite bind_throw; [done|]. unfold readRequest.
      erewrite bind_eq by reflexivity. cbn [requests set_promises]. by rewrite Hr. }
  erewrite bind_eq by (by apply readRequest_eq).
  destruct (indexOf supportedMethods (method rq) >? -1)%Z eqn:Hn.
  - match goal with |- context [(_ ≫= _) ?s] =>
      destruct (ensureSession_returns self init s) as (p & st1 & Hens) end.
    erewrite bind_eq by exact Hens.
    destruct (indexOf walletconnectMethods (method rq) >? -1)%Z eqn:Hw.
    + destruct (when (strictEq (method rq) "eth_sendTransaction") (pushChainId r (init_hex init)) st1)
        as [[[]|e] st2] eqn:Hpush.
      * erewrite bind_eq by exact Hpush.
        destruct (then__returns p (SendCustom r) st2) as (q1 & st3 & H1).
        erewrite bind_eq by exact H1.
        destruct (then__returns q1 (FnResult r cb) st3) as (q2 & st4 & H2).
        erewrite bind_eq by exact H2.
        destruct (catch__returns q2 (FnError r cb) st4) as (q3 & st5 & H3).
        by erewrite bind_eq by exact H3.
      * by erewrite bind_throw by exact Hpush.
    + rewrite (routes_exhaustive _ Hn Hw).
      destruct (then__returns p (Accounts r cb) st1) as (q1 & st3 & H1).
      erewrite bind_eq by exact H1.
      destruct (catch__returns q1 (AccountsCatch r cb) st3) as (q2 & st4 & H2).
      by erewrite bind_eq by exact H2.
  - match goal with |- context [(then_ ?p ?h ≫= _) ?s] =>
      destruct (then__returns p h s) as (q1 & st3 & H1) end.
    erewrite bind_eq by exact H1.
    destruct (catch__returns q1 (PlainCatch cb) st3) as (q2 & st4 & H2).
    by erewrite bind_eq by exact H2.
Qed.

(** ** The further theorems at concrete inputs *)

Lemma send_outcomes_witness :
  ∃ x,
    send authenticated (Some 0) (Some garbled) (after [NewRequest blockRequest])
    = (Throw (VErr "Invalid response" (VStr "<html>")),
       set_log [XhrSend 0 blockRequest]
         (set_xhrs [x] (after [NewRequest blockRequest]))).
Proof.
  destruct (send_outcomes authenticated (Some 0) (Some garbled) blockRequest
              (after [NewRequest blockRequest]))
    as (x & _ & _ & Hsend & _).
  - reflexivity.
  - exists x. exact Hsend.
Defined.

Lemma plain_relay_answers_witness :
  ∃ st',
    run ([Dispatch hooked 0 7 fresh; Microtask false] ++
         [XhrReadyState 0 2 emptyBody; XhrReadyState 0 3 emptyBody] ++
         [XhrReadyState 0 4 blockNumber]) (after [NewRequest blockRequest]) = Some st' ∧
    log st' = [XhrSend 0 blockRequest; Callback 7 VNull (VNum 16)].
Proof.
  destruct (plain_relay_answers hooked 0 7 fresh blockRequest (after [NewRequest blockRequest])
              [(2%Z, emptyBody); (3%Z, emptyBody)] blockNumber)
    as (st' & Hrun & Hlog & _).
  - reflexivity.
  - reflexivity.
  - reflexivity.
  - repeat constructor; discriminate.
  - exists st'. split; [exact Hrun|exact Hlog].
Defined.

Lemma plain_relay_send_refused_witness :
  ∃ st',
    run [Dispatch hooked 0 7 fresh; Microtask true] (after [NewRequest blockRequest])
    = Some st' ∧
    log st' = [Callback 7 (VErr "Invalid connection" (VStr "http://localhost:8545")) VUndefined].
Proof.
  destruct (plain_relay_send_refused hooked 0 7 fresh blockRequest
              (after [NewRequest blockRequest]))
    as (st' & Hrun & Hlog & _).
  - reflexivity.
  - reflexivity.
  - reflexivity.
  - exists st'. split; [exact Hrun|exact Hlog].
Defined.

Lemma session_dropped_only_by_abort_or_failure_witness :
  ∃ st',
    step (Disconnect hooked) (after established) = Some st' ∧
    (sameSlot (after established) st' ∨ sessionPromise st' = None).
Proof.
  exists (toplevel (disconnect hooked) (after established)).
  split; [reflexivity|].
  destruct (session_dropped_only_by_abort_or_failure (Disconnect hooked) (after established)
              (toplevel (disconnect hooked) (after established)))
    as [Hkept|(Hs & _)].
  - intros H. vm_compute in H. discriminate H.
  - reflexivity.
  - left. exact Hkept.
  - right. exact Hs.
Defined.

Lemma session_variables_agree_witness : slotsAgree (after established).
Proof.
  refine (proj1 (session_variables_agree established initial (after established) _ _)).
  - split; reflexivity.
  - vm_compute. reflexivity.
Defined.

Lemma redispatch_appends_again_witness :
  ∃ st',
    run [Dispatch hooked 0 9 fresh; Dispatch second 0 8 fresh] (after [NewRequest txRequest])
    = Some st' ∧
    requests st' =
      [with_params txRequest (VArr [VObj [("chainId", VNum 1)]; VStr "0x01"; VStr "0x01"])].
Proof.
  destruct (redispatch_appends_again hooked second 0 9 8 fresh fresh txRequest
              (VObj [("chainId", VNum 1)]) (VNum 1) (VStr "0x01") (VStr "0x01") []
              (after [NewRequest txRequest]))
    as (st' & Hrun & Hreq).
  - reflexivity.
  - reflexivity.
  - reflexivity.
  - reflexivity.
  - reflexivity.
  - reflexivity.
  - exists st'. split; [exact Hrun|exact Hreq].
Defined.

Lemma malformed_transaction_throws_witness :
  ∃ sp st',
    sendAsync hooked 0 9 fresh (after [NewRequest emptyTransaction]) = (Throw TypeError, st') ∧
    sessionPromise st' = Some sp.
Proof.
  destruct (malformed_transaction_throws hooked 0 9 fresh emptyTransaction TypeError
              (after [NewRequest emptyTransaction]))
    as [_ Hempty].
  - reflexivity.
  - reflexivity.
  - reflexivity.
  - destruct Hempty as (sp & st' & Hthrow & Hs & _); [reflexivity|].
    exists sp, st'. split; [exact Hthrow|exact Hs].
Defined.

Lemma signing_request_round_trip_witness :
  ∃ st1,
    run [Dispatch hooked 1 9 fresh; Microtask false]
      (after (established ++ [NewRequest txRequest])) = Some st1 ∧
    log st1 =
      log (after (established ++ [NewRequest txRequest])) ++
        [SendCustomRequest 0
           (with_params txRequest (VArr [VObj [("chainId", VNum 1)]; VStr "0x01"]))
           (length (promises (after (established ++ [NewRequest txRequest]))) + 4)].
Proof.
  destruct (signing_request_round_trip hooked 1 9 fresh txRequest
              (with_params txRequest (VArr [VObj [("chainId", VNum 1)]; VStr "0x01"]))
              (after (established ++ [NewRequest txRequest])) 6 wallet 0 false)
    as (st1 & Hrun & Hlog & _).
  - reflexivity.
  - reflexivity.
  - reflexivity.
  - reflexivity.
  - reflexivity.
  - reflexivity.
  - reflexivity.
  - exists st1. split; [exact Hrun|exact Hlog].
Defined.

Lemma restored_session_answers_accounts_witness :
  ∃ st',
    run [Dispatch hooked 0 7 restored; Microtask false; Microtask false]
      (after [NewRequest accountsRequest]) = Some st' ∧
    log st' = [Callback 7 VNull (response accountsRequest wallet)].
Proof.
  destruct (restored_session_answers_accounts hooked 0 7 restored accountsRequest
              (after [NewRequest accountsRequest]) [("accounts", wallet)]
              (VStr "0xabc") [] false)
    as (st' & Hrun & Hlog & _).
  - reflexivity.
  - reflexivity.
  - reflexivity.
  - reflexivity.
  - reflexivity.
  - reflexivity.
  - reflexivity.
  - exists st'. split; [exact Hrun|exact Hlog].
Defined.

Lemma restored_session_waits_for_update_witness :
  ∃ st1,
    step (Dispatch hooked 0 7 restoredEmpty) (after [NewRequest accountsRequest]) = Some st1 ∧
    log st1 = [] ∧
    sessionPromise st1 = Some 2.
Proof.
  destruct (restored_session_waits_for_update hooked 0 7 restoredEmpty accountsRequest
              (after [NewRequest accountsRequest]))
    as (st1 & Hstep & Hlog & Hs & _).
  - reflexivity.
  - reflexivity.
  - reflexivity.
  - reflexivity.
  - reflexivity.
  - right. exists [("accounts", VArr [])]. split; reflexivity.
  - exists st1. split; [exact Hstep|]. split; [exact Hlog|exact Hs].
Defined.

Lemma pairing_reaches_the_callback_witness :
  ∃ st1,
    step (Dispatch hooked 0 7 fresh) (after [NewRequest accountsRequest]) = Some st1 ∧
    log st1 = [CreateSession 0 3] ∧
    sessionPromise st1 = Some 6.
Proof.
  destruct (pairing_reaches_the_callback hooked 0 7 fresh accountsRequest
              (after [NewRequest accountsRequest]))
    as (st1 & Hstep & Hlog & Hs & _).
  - reflexivity.
  - reflexivity.
  - reflexivity.
  - reflexivity.
  - reflexivity.
  - exists st1. split; [exact Hstep|]. split; [exact Hlog|exact Hs].
Defined.


Lemma connect_event_without_params_throws_witness :
  ∃ st',
    step (Event 0 "connect" VNull (VObj [])) (after paired) = Some st' ∧
    log st' = log (after paired) ++ [Hook 1 [VNull; VObj []]; ModalClose; Thrown TypeError].
Proof.
  destruct (connect_event_without_params_throws hooked 0 1 [] (after paired))
    as (st' & Hstep & Hlog & _).
  - reflexivity.
  - reflexivity.
  - exists st'. split; [exact Hstep|exact Hlog].
Defined.

Lemma signing_waits_for_the_session_witness :
  ∃ st1 st2,
    run [Dispatch hooked 0 9 fresh; ConnectorChanged 0 false VUndefined (VStr "wc:1");
         Settle 3 (Ful VUndefined); Microtask false; Microtask false]
      (after [NewRequest txRequest]) = Some st1 ∧
    log st1 = [CreateSession 0 3; Hook 2 [VStr "wc:1"]; ModalOpen (VStr "wc:1")] ∧
    run (ConnectorChanged 0 true (VObj [("accounts", wallet)]) (VStr "wc:1") ::
         Event 0 "connect" VNull approval :: replicate 4 (Microtask false)) st1 = Some st2 ∧
    log st2 =
      log st1 ++
        [Hook 1 [VNull; approval]; ModalClose;
         SendCustomRequest 0
           (with_params txRequest (VArr [VObj [("chainId", VNum 1)]; VStr "0x01"])) 12].
Proof.
  destruct (signing_waits_for_the_session hooked 0 9 fresh txRequest
              (with_params txRequest (VArr [VObj [("chainId", VNum 1)]; VStr "0x01"]))
              (after [NewRequest txRequest])
              eq_refl eq_refl eq_refl eq_refl eq_refl eq_refl
              false (VStr "wc:1") VUndefined VUndefined)
    as (st1 & Hrun & _ & Hlog & Hnext).
  destruct (Hnext (VObj [("accounts", wallet)])
              [("params", VArr [VObj [("accounts", wallet); ("chainId", VNum 1)]])]
              [("accounts", wallet); ("chainId", VNum 1)] [] eq_refl)
    as (st2 & Hrun2 & Hlog2 & _).
  exists st1, st2. split; [exact Hrun|]. split; [exact Hlog|].
  split; [exact Hrun2|exact Hlog2].
Defined.
